(** * TinyDice firmware: the control loop of [firmware/main.c]

    A shallow embedding of the firmware of the tiny electronic dice
    (ATtiny, one button, seven LEDs on four port lines) and the
    properties of its specification.

    8-bit C variables are integers of [Z] with the wrap-around of
    [uint8_t] written out ([u8]); registers are fields of the machine
    state; what the hardware does between two polls (the watchdog
    period running out, the level of the button pin, the ADC sample) is
    the input of one loop iteration. *)

From Stdlib Require Import ZArith NArith List Bool Lia.
Import ListNotations.
Open Scope Z_scope.

(** ** Machine integers and constants *)

(** Conversion to [uint8_t]. *)
Definition u8 (v : Z) : Z := v mod 256.

(** [_BV(bit)] of avr-libc. *)
Definition _BV (b : Z) : Z := Z.shiftl 1 b.

(** Bit numbers of port B (avr/io.h: [PORTBn], [PINBn] are [n]). *)
Definition PORTB0 : Z := 0.
Definition PORTB1 : Z := 1.
Definition PORTB2 : Z := 2.
Definition PORTB3 : Z := 3.
Definition PORTB4 : Z := 4.

Definition VLOWBATT : Z := 2400.
Definition VREF : Z := 1100.

(** [#define LOWBATT_VAL (VREF / (VLOWBATT / 255))]: two integer
    divisions of C, each truncating ([Z.quot]). *)
Definition LOWBATT_VAL : Z := VREF ÷ (VLOWBATT ÷ 255).

(** [#define TMR_MS(ms) ((uint8_t)((ms / 16) + 0.5))]: [ms] is an integer
    constant, so [ms / 16] is the integer quotient; adding one half and
    converting to [uint8_t] truncates again.  The value [q + 1/2] is
    written [(2 q + 1) / 2]. *)
Definition TMR_MS (ms : Z) : Z := u8 ((2 * (ms ÷ 16) + 1) ÷ 2).

(** Wrap-safe elapsed time, [(uint8_t)(now - ref)]. *)
Definition elapsed (now ref : Z) : Z := u8 (now - ref).

(** ** Enumerations *)

Inductive batt_t := BATT_OK | BATT_DOCHECK | BATT_LOWWARN | BATT_LOW.
Inductive btn_t := BTN_NOTPRESSED | BTN_PRESSED | BTN_DEBOUNCING.
Inductive state_t := STATE_IDLE | STATE_ROLL | STATE_ROLLDONE | STATE_STEADY.

Definition batt_eqb (a b : batt_t) : bool :=
  match a, b with
  | BATT_OK, BATT_OK | BATT_DOCHECK, BATT_DOCHECK
  | BATT_LOWWARN, BATT_LOWWARN | BATT_LOW, BATT_LOW => true
  | _, _ => false
  end.

Definition btn_eqb (a b : btn_t) : bool :=
  match a, b with
  | BTN_NOTPRESSED, BTN_NOTPRESSED | BTN_PRESSED, BTN_PRESSED
  | BTN_DEBOUNCING, BTN_DEBOUNCING => true
  | _, _ => false
  end.

Definition state_eqb (a b : state_t) : bool :=
  match a, b with
  | STATE_IDLE, STATE_IDLE | STATE_ROLL, STATE_ROLL
  | STATE_ROLLDONE, STATE_ROLLDONE | STATE_STEADY, STATE_STEADY => true
  | _, _ => false
  end.

(** ** Tables *)

Definition portVals : list Z :=
  [ 0;
    _BV PORTB4;
    _BV PORTB1;
    Z.lor (_BV PORTB1) (_BV PORTB4);
    Z.lor (_BV PORTB1) (_BV PORTB2);
    Z.lor (Z.lor (_BV PORTB1) (_BV PORTB2)) (_BV PORTB4);
    Z.lor (Z.lor (_BV PORTB0) (_BV PORTB1)) (_BV PORTB2) ].

Definition rollDelays : list Z :=
  [ 0; TMR_MS 50; TMR_MS 100; TMR_MS 200; TMR_MS 400 ].

Definition ROLLDELAY_COUNT : Z := Z.of_nat (length rollDelays).

(** Reading a C array: an index outside the array has no defined value. *)
Definition index (tbl : list Z) (i : Z) : option Z :=
  if i <? 0 then None else nth_error tbl (Z.to_nat i).

(** ** Random generator *)

(** The four [static uint8_t] of [genRandom]. *)
Record rng := mkRng { rx : Z; ry : Z; rz : Z; ra : Z }.

(** Cold start: [x = y = z = 0], [a = 86]. *)
Definition rng_seed : rng := mkRng 0 0 0 86.

(** One call of [genRandom]: the state after it; the value returned is
    the new [a]. *)
Definition rng_step (g : rng) : rng :=
  let t := u8 (Z.lxor (rx g) (Z.shiftl (rx g) 4)) in
  let x := ry g in
  let y := rz g in
  let z := ra g in
  let a := u8 (Z.lxor (Z.lxor (Z.lxor z t) (Z.shiftr z 1)) (Z.shiftl t 1)) in
  mkRng x y z a.

Definition genRandom (g : rng) : Z * rng :=
  let g' := rng_step g in (ra g', g').

(** The state after [n] calls. *)
Definition rng_iter (n : N) (g : rng) : rng := N.iter n rng_step g.

(** The first [n] values returned, in order. *)
Fixpoint rng_outputs (n : nat) (g : rng) : list Z :=
  match n with
  | O => []
  | S k => let (v, g') := genRandom g in v :: rng_outputs k g'
  end.

(** ** Display driver *)

Definition LED_MASK : Z :=
  Z.lor (Z.lor (Z.lor (_BV PORTB0) (_BV PORTB1)) (_BV PORTB2)) (_BV PORTB4).

(** [diceSet(val)]: the new value of the 8-bit register [PORTB]. *)
Definition diceSet_port (val portb : Z) : option Z :=
  match index portVals val with
  | Some pv => Some (u8 (Z.lor (Z.land portb (Z.lnot LED_MASK)) pv))
  | None => None
  end.

(** ** Battery monitor *)

(** The classification of line 192: a sample above the threshold is a
    low battery (the reference is measured against the supply). *)
Definition classify (sample : Z) : batt_t :=
  if sample >? LOWBATT_VAL then BATT_LOWWARN else BATT_OK.

(** ** Machine state *)

(** The local variables of [main], the generator, the registers the
    loop writes ([PORTB], and the bits [WDE] and [WDIE] of [WDTCR]) and
    the trace [shown] of the faces passed to [diceSet], latest first. *)
Record machine := mkMachine {
  now : Z;
  timer : Z;
  state : state_t;
  lowBatt : batt_t;
  rollResult : Z;
  nextRollChangeDelay : Z;
  btnPressState : btn_t;
  btnReleasedTime : Z;
  blinkCount : Z;
  blinkState : Z;
  gen : rng;
  PORTB : Z;
  WDE : bool;
  WDIE : bool;
  shown : list Z
}.

Definition set_now v s :=
  let 'mkMachine _ b c d e f g h i j k l m n o := s in mkMachine v b c d e f g h i j k l m n o.
Definition set_timer v s :=
  let 'mkMachine a _ c d e f g h i j k l m n o := s in mkMachine a v c d e f g h i j k l m n o.
Definition set_state v s :=
  let 'mkMachine a b _ d e f g h i j k l m n o := s in mkMachine a b v d e f g h i j k l m n o.
Definition set_lowBatt v s :=
  let 'mkMachine a b c _ e f g h i j k l m n o := s in mkMachine a b c v e f g h i j k l m n o.
Definition set_rollResult v s :=
  let 'mkMachine a b c d _ f g h i j k l m n o := s in mkMachine a b c d v f g h i j k l m n o.
Definition set_nextRollChangeDelay v s :=
  let 'mkMachine a b c d e _ g h i j k l m n o := s in mkMachine a b c d e v g h i j k l m n o.
Definition set_btnPressState v s :=
  let 'mkMachine a b c d e f _ h i j k l m n o := s in mkMachine a b c d e f v h i j k l m n o.
Definition set_btnReleasedTime v s :=
  let 'mkMachine a b c d e f g _ i j k l m n o := s in mkMachine a b c d e f g v i j k l m n o.
Definition set_blinkCount v s :=
  let 'mkMachine a b c d e f g h _ j k l m n o := s in mkMachine a b c d e f g h v j k l m n o.
Definition set_blinkState v s :=
  let 'mkMachine a b c d e f g h i _ k l m n o := s in mkMachine a b c d e f g h i v k l m n o.
Definition set_gen v s :=
  let 'mkMachine a b c d e f g h i j _ l m n o := s in mkMachine a b c d e f g h i j v l m n o.
Definition set_PORTB v s :=
  let 'mkMachine a b c d e f g h i j k _ m n o := s in mkMachine a b c d e f g h i j k v m n o.
Definition set_WDTCR (wde wdie : bool) s :=
  let 'mkMachine a b c d e f g h i j k l _ _ o := s in mkMachine a b c d e f g h i j k l wde wdie o.
Definition set_shown v s :=
  let 'mkMachine a b c d e f g h i j k l m n _ := s in mkMachine a b c d e f g h i j k l m n v.

(** What the hardware presents to one iteration of [while(1)]. *)
Record poll := mkPoll {
  wdt_expired1 : bool;  (* the watchdog period ran out before line 161 *)
  btn1 : bool;          (* BTN_ISPRESSED() at line 167 *)
  adc : Z;              (* ADCH, should battLevel() be called *)
  wdt_expired2 : bool;  (* the watchdog period ran out before line 274 *)
  btn2 : bool           (* BTN_ISPRESSED() at line 276 *)
}.

(** ** Watchdog timer *)

(** A running watchdog that times out clears [WDIE] (the first time-out
    in interrupt-and-reset mode). *)
Definition wdt_hw (expired : bool) (s : machine) : machine :=
  if WDE s && expired then set_WDTCR (WDE s) false s else s.

Definition WDT_TIMEDOUT (s : machine) : bool := negb (WDIE s).
Definition WDT_INT_RESET (s : machine) : machine := set_WDTCR true true s.
Definition wdt_disable (s : machine) : machine := set_WDTCR false false s.

(** ** The loop, section by section *)

(** Option as the error monad: [None] is an array read out of bounds. *)
Notation "x <- c1 ;; c2" :=
  (match c1 with Some x => c2 | None => None end)
  (at level 61, c1 at next level, right associativity).

(** [diceSet(val)] on the machine. *)
Definition diceSet (val : Z) (s : machine) : option machine :=
  p <- diceSet_port val (PORTB s) ;;
  Some (set_shown (val :: shown s) (set_PORTB p s)).

(** Lines 161-165. *)
Definition tick_section (i : poll) (s : machine) : machine :=
  let s := wdt_hw (wdt_expired1 i) s in
  if WDT_TIMEDOUT s then set_now (u8 (now s + 1)) (WDT_INT_RESET s) else s.

(** Lines 167-189. *)
Definition button_section (i : poll) (s : machine) : machine :=
  if btn1 i then
    let s :=
      if btn_eqb (btnPressState s) BTN_NOTPRESSED
      then set_blinkState 0 (set_blinkCount 0 (set_timer (now s) s))
      else s in
    set_state STATE_ROLL
      (set_nextRollChangeDelay 1 (set_btnPressState BTN_PRESSED s))
  else if btn_eqb (btnPressState s) BTN_PRESSED then
    set_btnPressState BTN_DEBOUNCING (set_btnReleasedTime (now s) s)
  else if elapsed (now s) (btnReleasedTime s) >=? TMR_MS 50 then
    set_btnPressState BTN_NOTPRESSED s
  else s.

(** Lines 191-192. *)
Definition battery_section (i : poll) (s : machine) : machine :=
  if batt_eqb (lowBatt s) BATT_DOCHECK
  then set_lowBatt (classify (adc i)) s
  else s.

(** Lines 196-214, the body of [if(lowBatt == BATT_LOWWARN)]. *)
Definition warn_branch (s : machine) : option machine :=
  if elapsed (now s) (timer s) >=? TMR_MS 32 then
    let s := set_timer (now s) s in
    let s := set_blinkState (if blinkState s =? 0 then 1 else 0) s in
    if blinkState s =? 0 then diceSet 1 s
    else
      s <- diceSet 0 s ;;
      let s := set_blinkCount (u8 (blinkCount s + 1)) s in
      if blinkCount s >? 5
      then Some (set_lowBatt BATT_LOW (set_blinkState 0 (set_blinkCount 0 s)))
      else Some s
  else Some s.

(** Lines 218-236, the body of [else if(state == STATE_ROLL)]. *)
Definition roll_branch (s : machine) : option machine :=
  d <- index rollDelays (nextRollChangeDelay s) ;;
  if elapsed (now s) (timer s) >=? d then
    let s := set_timer (now s) s in
    let s := set_nextRollChangeDelay (u8 (nextRollChangeDelay s + 1)) s in
    if nextRollChangeDelay s >=? ROLLDELAY_COUNT then
      let s := set_state STATE_ROLLDONE s in
      let (r, g) := genRandom (gen s) in
      let s := set_rollResult (u8 (Z.rem r 6 + 1)) (set_gen g s) in
      diceSet (rollResult s) s
    else
      let s := set_rollResult (u8 (rollResult s + 1)) s in
      let s := if rollResult s >? 6 then set_rollResult 1 s else s in
      diceSet (rollResult s) s
  else Some s.

(** Lines 240-261, the body of [else if(state == STATE_ROLLDONE)]. *)
Definition rolldone_branch (s : machine) : option machine :=
  if (blinkState s =? 0) || (elapsed (now s) (timer s) >=? blinkState s) then
    let s := set_timer (now s) s in
    if blinkState s =? TMR_MS 200 then
      diceSet 0 (set_blinkState (TMR_MS 50) s)
    else
      s <- diceSet (rollResult s) (set_blinkState (TMR_MS 200) s) ;;
      let s := set_blinkCount (u8 (blinkCount s + 1)) s in
      if blinkCount s >? 3
      then Some (set_state STATE_STEADY (set_blinkState 0 (set_blinkCount 0 s)))
      else Some s
  else Some s.

(** Lines 265-269, the body of [else if(state == STATE_STEADY)]. *)
Definition steady_branch (s : machine) : option machine :=
  if elapsed (now s) (timer s) >=? TMR_MS 2000 then
    s <- diceSet 0 s ;; Some (set_state STATE_IDLE s)
  else Some s.

(** Lines 194-270: the warning has priority over the animator. *)
Definition display_section (s : machine) : option machine :=
  if batt_eqb (lowBatt s) BATT_LOWWARN then warn_branch s
  else match state s with
       | STATE_ROLL => roll_branch s
       | STATE_ROLLDONE => rolldone_branch s
       | STATE_STEADY => steady_branch s
       | STATE_IDLE => Some s
       end.

(** The condition of line 276. *)
Definition fully_idle (i : poll) (s : machine) : bool :=
  negb (btn2 i) && btn_eqb (btnPressState s) BTN_NOTPRESSED
  && state_eqb (state s) STATE_IDLE
  && negb (batt_eqb (lowBatt s) BATT_LOWWARN).

(** Lines 272-288.  The sleep itself ends with the next interrupt, where
    the next iteration starts. *)
Definition sleep_section (i : poll) (s : machine) : machine :=
  let s := wdt_hw (wdt_expired2 i) s in
  if negb (WDT_TIMEDOUT s) then
    if fully_idle i s
    then set_lowBatt BATT_DOCHECK (wdt_disable s)
    else s
  else s.

(** Lines 161-270, all but the sleep. *)
Definition main_logic (i : poll) (s : machine) : option machine :=
  display_section (battery_section i (button_section i (tick_section i s))).

(** One iteration of [while(1)]. *)
Definition loop_body (i : poll) (s : machine) : option machine :=
  s <- main_logic i s ;; Some (sleep_section i s).

(** The iterations for a list of polls, in order. *)
Fixpoint run (ins : list poll) (s : machine) : option machine :=
  match ins with
  | [] => Some s
  | i :: rest => s <- loop_body i s ;; run rest s
  end.

(** ** Start-up *)

(** Lines 133-134: [for(uint8_t i=0;i<battLevel();i++) genRandom();],
    the battery being sampled at every test.  [None]: the list of
    samples ran out before the loop ended. *)
Fixpoint warm_up (samples : list Z) (i : Z) (g : rng) : option rng :=
  match samples with
  | [] => None
  | v :: rest =>
      if i <? v then warm_up rest (u8 (i + 1)) (rng_step g) else Some g
  end.

(** The machine at the first iteration (lines 129, 140-155), the
    generator being in state [g] after the warm-up. *)
Definition main_init (g : rng) : machine :=
  {| now := 0; timer := 0; state := STATE_IDLE; lowBatt := BATT_DOCHECK;
     rollResult := 0; nextRollChangeDelay := 0;
     btnPressState := BTN_NOTPRESSED; btnReleasedTime := 0;
     blinkCount := 0; blinkState := 0; gen := g;
     PORTB := Z.lor 0 (_BV PORTB3); WDE := true; WDIE := true;
     shown := [] |}.

Definition boot (samples : list Z) : option machine :=
  g <- warm_up samples 0 rng_seed ;; Some (main_init g).

(** * States, measures and scenarios of the statements *)

(** ** Frames and invariants *)

(** The fields the display section never writes. *)
Definition same_inputs (s s' : machine) : Prop :=
  now s' = now s /\ btnPressState s' = btnPressState s /\
  btnReleasedTime s' = btnReleasedTime s /\
  WDE s' = WDE s /\ WDIE s' = WDIE s.

(** The two bits of [WDTCR] go together: [WDIE] is set only by
    [WDT_INT_RESET], which also sets [WDE]. *)
Definition wdt_consistent (s : machine) : Prop :=
  WDIE s = true -> WDE s = true.

(** The first iteration after power-up with nothing going on. *)
Definition idle_poll : poll := mkPoll false false 0 false false.

(** The machine after that iteration. *)
Definition first_sleep : machine :=
  sleep_section idle_poll (battery_section idle_poll (main_init rng_seed)).

(** An index of [portVals]. *)
Definition face_ok (v : Z) : Prop := 0 <= v <= 6.

(** What keeps the two array reads of the loop in bounds. *)
Definition display_safe (s : machine) : Prop :=
  face_ok (rollResult s) /\
  (state s = STATE_ROLL -> 1 <= nextRollChangeDelay s <= 4) /\
  Forall face_ok (shown s).

(** ** Ticks and the debouncer *)

(** Whether the iteration for [i] from [s] advances [now] (line 161). *)
Definition ticked (i : poll) (s : machine) : bool :=
  WDT_TIMEDOUT (wdt_hw (wdt_expired1 i) s).

(** The number of ticks counted over the iterations for [ins] from [s]. *)
Fixpoint ticks (ins : list poll) (s : machine) : Z :=
  match ins with
  | [] => 0
  | i :: rest =>
      (if ticked i s then 1 else 0)
      + match loop_body i s with Some s1 => ticks rest s1 | None => 0 end
  end.

(** The debouncer at [t] ticks after the release recorded at [r]. *)
Definition settling (r t : Z) (s : machine) : Prop :=
  btnReleasedTime s = r /\
  (t < TMR_MS 50 -> btnPressState s = BTN_DEBOUNCING /\ elapsed (now s) r = t) /\
  (TMR_MS 50 <= t -> btnPressState s = BTN_NOTPRESSED).

(** ** Polls and runs *)

(** An iteration woken by the watchdog: one tick, the button read as
    [pressed] at both reads, [sample] on the ADC. *)
Definition tick_poll (pressed : bool) (sample : Z) : poll :=
  mkPoll true pressed sample false pressed.

(** The machine after the iterations for [ins] ([s] itself should one of
    them read out of bounds). *)
Definition state_after (ins : list poll) (s : machine) : machine :=
  match run ins s with Some s' => s' | None => s end.

(** The battery was checked and no warning is being blinked. *)
Definition batt_settled (s : machine) : Prop :=
  lowBatt s = BATT_OK \/ lowBatt s = BATT_LOW.

(** The sections before the display section. *)
Definition front_sections (i : poll) (s : machine) : machine :=
  battery_section i (button_section i (tick_section i s)).

(** ** The roll *)

(** The animator in STATE_ROLL with no battery warning in the way. *)
Definition rolling (s : machine) : Prop :=
  state s = STATE_ROLL /\ 1 <= nextRollChangeDelay s <= 4 /\
  batt_settled s /\ WDE s = true /\ face_ok (rollResult s).

(** Iterations, one per tick, until the current delay has run out. *)
Definition roll_wait (s : machine) : Z :=
  let d := match index rollDelays (nextRollChangeDelay s) with
           | Some d => d
           | None => 0
           end in
  let e := elapsed (u8 (now s + 1)) (timer s) in
  if e >=? d then 1 else 1 + (d - e).

(** The delays of the schedule after entry [n]. *)
Definition roll_rest (n : Z) : Z :=
  fold_right Z.add 0 (skipn (Z.to_nat n + 1) rollDelays).

(** Iterations, one per tick, until the result is drawn. *)
Definition roll_remaining (s : machine) : Z :=
  roll_wait s + roll_rest (nextRollChangeDelay s).

(** ** The low-battery warning *)







(** The first check after power-up finds the battery low; no button. *)
Definition warn_entry : machine :=
  state_after [tick_poll false 200] (main_init rng_seed).






(** ** The settling blink *)

(** The faces of [k] writes of the settling blink, latest first: the
    result on the odd writes, blank on the even ones. *)
Fixpoint settle_trace (r : Z) (k : nat) : list Z :=
  match k with
  | O => []
  | S k' => (if Nat.even k' then r else 0) :: settle_trace r k'
  end.

(** The settling blink after [k] writes since [s0]. *)
Definition result_blinking (k : nat) (s0 s : machine) : Prop :=
  state s = STATE_ROLLDONE /\ batt_settled s /\
  rollResult s = rollResult s0 /\
  shown s = settle_trace (rollResult s0) k ++ shown s0 /\
  Z.of_nat k
  = 2 * blinkCount s - (if blinkState s =? TMR_MS 200 then 1 else 0) /\
  ((blinkState s = 0 /\ blinkCount s = 0) \/
   ((blinkState s = TMR_MS 200 \/ blinkState s = TMR_MS 50) /\
    1 <= blinkCount s <= 3)).

(** The animator is in STATE_ROLLDONE at [s] and after each of the
    iterations for [ins]. *)
Fixpoint settling_throughout (ins : list poll) (s : machine) : bool :=
  state_eqb (state s) STATE_ROLLDONE &&
  match ins with
  | [] => true
  | i :: rest =>
      match loop_body i s with
      | Some s1 => settling_throughout rest s1
      | None => false
      end
  end.

(** Iterations, one per tick, until the animator leaves STATE_ROLLDONE. *)
Definition settle_remaining (s : machine) : Z :=
  let e := elapsed (u8 (now s + 1)) (timer s) in
  (if (blinkState s =? 0) || (e >=? blinkState s) then 1
   else 1 + (blinkState s - e))
  + (TMR_MS 200 + TMR_MS 50) * (3 - blinkCount s)
  + (if blinkState s =? TMR_MS 200 then TMR_MS 50 else 0).

(** A roll from power-up: the button read pressed in five iterations,
    then released; the result is drawn in iteration 50. *)
Definition roll_done : machine :=
  state_after (repeat (tick_poll true 0) 5 ++ repeat (tick_poll false 0) 45)
    (main_init rng_seed).

(** Forty-five iterations later. *)
Definition settle_last : machine :=
  state_after (repeat (tick_poll false 0) 45) roll_done.

(** After the display section of the next iteration. *)
Definition steady_entry : machine :=
  match main_logic (tick_poll false 0) settle_last with
  | Some m => m
  | None => settle_last
  end.

(** ** The generator as a linear map *)

(** [genRandom] is linear over GF(2) on the 32 bits of its state: sums
    are bitwise exclusive or.  A linear map is represented by the images
    of the 32 states with one bit set, four rows (one per variable) of
    eight columns (one per bit). *)

Definition rng_zero : rng := mkRng 0 0 0 0.

Definition rng_xor (g h : rng) : rng :=
  mkRng (Z.lxor (rx g) (rx h)) (Z.lxor (ry g) (ry h))
        (Z.lxor (rz g) (rz h)) (Z.lxor (ra g) (ra h)).

(** The four variables hold 8-bit values. *)
Definition rng_bytes (g : rng) : Prop :=
  0 <= rx g < 256 /\ 0 <= ry g < 256 /\ 0 <= rz g < 256 /\ 0 <= ra g < 256.

(** The state with [v] in variable [j] (0 for [x] to 3 for [a]). *)
Definition embed (j : nat) (v : Z) : rng :=
  match j with
  | 0%nat => mkRng v 0 0 0
  | 1%nat => mkRng 0 v 0 0
  | 2%nat => mkRng 0 0 v 0
  | _ => mkRng 0 0 0 v
  end.

(** Variable [j] of the state. *)
Definition byte_of (j : nat) (g : rng) : Z :=
  match j with
  | 0%nat => rx g
  | 1%nat => ry g
  | 2%nat => rz g
  | _ => ra g
  end.

Definition bits8 : list Z := [0; 1; 2; 3; 4; 5; 6; 7].
Definition vars4 : list nat := [0; 1; 2; 3]%nat.

Definition xor_all (l : list rng) : rng := fold_right rng_xor rng_zero l.

(** The sum of the columns of [row] selected by the bits of [v]. *)
Definition byte_sum (row : list rng) (v : Z) : rng :=
  xor_all (map (fun bc => if Z.testbit v (fst bc) then snd bc else rng_zero)
             (combine bits8 row)).

(** The map with columns [m] applied to [g]. *)
Definition apply_cols (m : list (list rng)) (g : rng) : rng :=
  xor_all (map (fun jr => byte_sum (snd jr) (byte_of (fst jr) g))
             (combine vars4 m)).

(** The columns of [f]. *)
Definition columns (f : rng -> rng) : list (list rng) :=
  map (fun j => map (fun b => f (embed j (Z.shiftl 1 b))) bits8) vars4.

(** The columns of [a] after [b]. *)
Definition compose_cols (a b : list (list rng)) : list (list rng) :=
  map (map (apply_cols a)) b.

(** The columns of the [p]-th power, by squaring. *)
Fixpoint power_cols (m : list (list rng)) (p : positive) : list (list rng) :=
  match p with
  | xH => m
  | xO q => let a := power_cols m q in compose_cols a a
  | xI q => let a := power_cols m q in compose_cols m (compose_cols a a)
  end.

(** Additive maps that keep the variables within 8 bits. *)
Definition linear (f : rng -> rng) : Prop :=
  f rng_zero = rng_zero /\
  (forall g h, f (rng_xor g h) = rng_xor (f g) (f h)) /\
  (forall g, rng_bytes g -> rng_bytes (f g)).

(** A byte is the sum of its bits. *)
Definition byte_bits (v : Z) : Z :=
  fold_right Z.lxor 0
    (map (fun b => if Z.testbit v b then Z.shiftl 1 b else 0) bits8).

(** Length of the cycle of the seed, [31 * 127 * 601 * 1801]. *)
Definition rng_period : N := 4261412737%N.

(** After [n] calls the generator is back in its cold-start state. *)
Definition returns (n : N) : Prop := rng_iter n rng_seed = rng_seed.

(** Trial division. *)
Definition no_proper_divisor (q : N) : bool :=
  forallb (fun d => negb (q mod N.of_nat d =? 0)%N)
    (seq 2 (N.to_nat q - 2)).

(** ** The generator, one call *)

(** What one call mixes into the new [a] from the old [x]:
    [t ^ (t << 1)] for [t = x ^ (x << 4)] (lines 83 and 87). *)
Definition rng_mix (x : Z) : Z :=
  let t := u8 (Z.lxor x (Z.shiftl x 4)) in u8 (Z.lxor t (Z.shiftl t 1)).

(** ** Machines the loop can reach *)

(** The blink counters and the animator, by battery state. *)
Definition warning_inv (s : machine) : Prop :=
  (lowBatt s = BATT_DOCHECK ->
     state s = STATE_IDLE /\ btnPressState s = BTN_NOTPRESSED /\
     blinkCount s = 0 /\ blinkState s = 0) /\
  (lowBatt s = BATT_LOWWARN ->
     (state s = STATE_IDLE \/ state s = STATE_ROLL) /\
     (blinkState s = 0 \/ blinkState s = 1) /\ 0 <= blinkCount s <= 5) /\
  (lowBatt s <> BATT_LOWWARN ->
     state s = STATE_IDLE \/ state s = STATE_STEADY ->
     blinkCount s = 0 /\ blinkState s = 0).

(** The port: a byte, the pull-up on, the LED lines showing the face
    passed last to [diceSet] (blank before the first call). *)
Definition port_inv (s : machine) : Prop :=
  0 <= PORTB s < 256 /\ Z.testbit (PORTB s) PORTB3 = true /\
  index portVals (hd 0 (shown s)) = Some (Z.land (PORTB s) LED_MASK).

(** Idle without a warning has the display blank. *)
Definition idle_dark (s : machine) : Prop :=
  state s = STATE_IDLE -> lowBatt s <> BATT_LOWWARN -> hd 0 (shown s) = 0.

(** Everything the invariants say, together. *)
Definition reachable_inv (s : machine) : Prop :=
  wdt_consistent s /\ warning_inv s /\ idle_dark s /\ port_inv s /\
  (WDE s = false -> lowBatt s = BATT_DOCHECK).

(** ** The spin while the button is held *)

(** The face after [k] steps of the count-up from the blank display. *)
Definition spin_face (k : nat) : Z :=
  match k with
  | O => 0
  | S j => Z.of_nat (j mod 6) + 1
  end.

(** The faces of [k] steps, latest first. *)
Fixpoint spin_trace (k : nat) : list Z :=
  match k with
  | O => []
  | S j => spin_face (S j) :: spin_trace j
  end.

(** The spin at [n] iterations after the one that saw the press. *)
Definition spinning (g : rng) (n : nat) (s : machine) : Prop :=
  state s = STATE_ROLL /\ lowBatt s = BATT_OK /\
  btnPressState s = BTN_PRESSED /\ WDE s = true /\ gen s = g /\
  elapsed (now s) (timer s) = Z.of_nat (n mod 3) /\
  rollResult s = spin_face (n / 3) /\ shown s = spin_trace (n / 3).

(** * Properties *)

(** ** Arithmetic of [uint8_t] *)

Lemma u8_range (v : Z) : 0 <= u8 v < 256.
Proof. unfold u8. apply Z.mod_pos_bound. lia. Qed.

Lemma u8_small (v : Z) : 0 <= v < 256 -> u8 v = v.
Proof. intros H. unfold u8. now apply Z.mod_small. Qed.

Lemma elapsed_range (n r : Z) : 0 <= elapsed n r < 256.
Proof. apply u8_range. Qed.

Lemma elapsed_after (ref e : Z) :
  0 <= e < 256 -> elapsed (u8 (ref + e)) ref = e.
Proof.
  intros He. unfold elapsed, u8.
  rewrite Zminus_mod_idemp_l.
  replace (ref + e - ref) with e by ring.
  now apply Z.mod_small.
Qed.

Lemma elapsed_same (n : Z) : elapsed n n = 0.
Proof. unfold elapsed, u8. now rewrite Z.sub_diag. Qed.

(** One more tick on a counter that has not wrapped since [ref]. *)
Lemma elapsed_succ (n ref : Z) :
  elapsed n ref < 255 -> elapsed (u8 (n + 1)) ref = elapsed n ref + 1.
Proof.
  intros H. unfold elapsed, u8 in *.
  rewrite Zminus_mod_idemp_l.
  replace (n + 1 - ref) with ((n - ref) + 1) by ring.
  rewrite <- Zplus_mod_idemp_l.
  apply Z.mod_small.
  pose proof (Z.mod_pos_bound (n - ref) 256). lia.
Qed.

(** ** The timing constants, in ticks of 16 ms *)

Lemma TMR_MS_values :
  TMR_MS 32 = 2 /\ TMR_MS 50 = 3 /\ TMR_MS 100 = 6 /\ TMR_MS 200 = 12 /\
  TMR_MS 400 = 25 /\ TMR_MS 2000 = 125.
Proof. repeat split; reflexivity. Qed.

(** C4.  The low-battery threshold is [1100 / (2400 / 255)] with two
    truncating integer divisions, the inner one first: [2400 / 255] is 9
    and [1100 / 9] is 122 (one division of [1100 * 255] by [2400] would
    give 116).  A sample strictly above the threshold classifies as a
    low battery (warn), a sample at or below it as Ok; this is what the
    loop stores when a check is due. *)
Theorem battery_threshold :
  LOWBATT_VAL = Z.quot VREF (Z.quot VLOWBATT 255) /\
  VLOWBATT = 2400 /\ VREF = 1100 /\
  Z.quot VLOWBATT 255 = 9 /\
  LOWBATT_VAL = 122 /\
  Z.quot (VREF * 255) VLOWBATT = 116 /\
  (forall sample : Z,
      classify sample = if sample >? 122 then BATT_LOWWARN else BATT_OK) /\
  (forall sample : Z, (sample > LOWBATT_VAL <-> classify sample = BATT_LOWWARN)) /\
  (forall sample : Z, (sample <= LOWBATT_VAL <-> classify sample = BATT_OK)) /\
  (forall (i : poll) (s : machine),
      lowBatt (battery_section i (set_lowBatt BATT_DOCHECK s))
      = if adc i >? 122 then BATT_LOWWARN else BATT_OK).
Proof.
  repeat split; try reflexivity.
  - unfold classify. intros H. destruct (Z.gtb_spec sample LOWBATT_VAL); [reflexivity | lia].
  - unfold classify. destruct (Z.gtb_spec sample LOWBATT_VAL); [lia | discriminate].
  - unfold classify. intros H. destruct (Z.gtb_spec sample LOWBATT_VAL); [lia | reflexivity].
  - unfold classify. destruct (Z.gtb_spec sample LOWBATT_VAL); [discriminate | lia].
  - intros i s. destruct s; reflexivity.
Qed.

(** C5.  With [now] being [ref] advanced by [e < 256] ticks modulo 256,
    the comparison [(uint8_t)(now - ref) >= threshold] of the code holds
    exactly when [e >= threshold], whatever the position of [ref], so
    also when the counter wrapped from 255 to 0 in between. *)
Theorem wrap_safe_elapsed (now_ ref e threshold : Z) :
  0 <= now_ < 256 -> 0 <= ref < 256 -> 0 <= e < 256 ->
  now_ = (ref + e) mod 256 ->
  (elapsed now_ ref >= threshold <-> e >= threshold) /\
  (elapsed now_ ref >=? threshold) = (e >=? threshold).
Proof.
  intros _ _ He Hnow.
  assert (E : elapsed now_ ref = e).
  { subst now_. now apply (elapsed_after ref e). }
  rewrite E. split; [tauto | reflexivity].
Qed.

Lemma wrap_safe_elapsed_witness :
  (elapsed 4 250 >= 3 <-> 10 >= 3) /\ (elapsed 4 250 >=? 3) = (10 >=? 3).
Proof.
  apply (wrap_safe_elapsed 4 250 10 3); [lia | lia | lia | reflexivity].
Defined.

(** ** Display driver *)

Lemma index_portVals (val : Z) :
  0 <= val <= 6 -> exists pv, index portVals val = Some pv /\ Z.land pv (Z.lnot LED_MASK) = 0.
Proof.
  intros H.
  assert (C : val = 0 \/ val = 1 \/ val = 2 \/ val = 3 \/ val = 4 \/ val = 5 \/ val = 6) by lia.
  repeat (destruct C as [C | C]; [subst val; eexists; split; reflexivity | ]).
  subst val; eexists; split; reflexivity.
Qed.

Lemma index_portVals_none (val : Z) :
  ~ (0 <= val <= 6) -> index portVals val = None.
Proof.
  intros H. unfold index.
  destruct (Z.ltb_spec val 0); [reflexivity | ].
  apply nth_error_None. simpl. lia.
Qed.

Lemma LED_MASK_bits (n : Z) :
  Z.testbit LED_MASK n = (n =? 0) || (n =? 1) || (n =? 2) || (n =? 4).
Proof.
  destruct (Z.ltb_spec n 0) as [Hn | Hn].
  - rewrite Z.testbit_neg_r by lia.
    repeat match goal with |- context [?a =? ?b] => destruct (Z.eqb_spec a b); [lia | ] end.
    reflexivity.
  - destruct (Z.ltb_spec n 5) as [H5 | H5].
    + assert (C : n = 0 \/ n = 1 \/ n = 2 \/ n = 3 \/ n = 4) by lia.
      repeat (destruct C as [C | C]; [subst n; reflexivity | ]).
      subst n; reflexivity.
    + replace LED_MASK with (23 mod 2 ^ 5) by reflexivity.
      rewrite Z.mod_pow2_bits_high by lia.
      repeat match goal with |- context [?a =? ?b] => destruct (Z.eqb_spec a b); [lia | ] end.
      reflexivity.
Qed.

(** The bits of [PORTB] after [diceSet]: the LED lines take the pattern,
    the other lines keep their level. *)
Lemma diceSet_port_bits (val portb pv : Z) :
  0 <= portb < 256 ->
  index portVals val = Some pv ->
  exists p, diceSet_port val portb = Some p /\
    forall n, Z.testbit p n =
              if Z.testbit LED_MASK n then Z.testbit pv n else Z.testbit portb n.
Proof.
  intros Hp Hi. unfold diceSet_port. rewrite Hi.
  eexists; split; [reflexivity | ].
  intros n.
  assert (Hpv : Z.land pv (Z.lnot LED_MASK) = 0).
  { destruct (Z_le_dec 0 val) as [H0 | H0]; [destruct (Z_le_dec val 6) as [H6 | H6] | ].
    - destruct (index_portVals val (conj H0 H6)) as [pv' [E1 E2]]. congruence.
    - rewrite index_portVals_none in Hi by lia. discriminate.
    - rewrite index_portVals_none in Hi by lia. discriminate. }
  assert (Hpvn : Z.testbit LED_MASK n = false -> Z.testbit pv n = false).
  { intros Hm. destruct (Z.ltb_spec n 0) as [Hn | Hn].
    - apply Z.testbit_neg_r; lia.
    - assert (B := f_equal (fun v => Z.testbit v n) Hpv). cbv beta in B.
      rewrite Z.land_spec, Z.lnot_spec, Hm, Z.bits_0 in B by lia.
      now rewrite andb_true_r in B. }
  destruct (Z.ltb_spec n 0) as [Hn | Hn].
  { rewrite !(Z.testbit_neg_r _ n) by lia. reflexivity. }
  destruct (Z.ltb_spec n 8) as [H8 | H8].
  - unfold u8. change 256 with (2 ^ 8). rewrite Z.mod_pow2_bits_low by lia.
    rewrite Z.lor_spec, Z.land_spec, Z.lnot_spec by lia.
    destruct (Z.testbit LED_MASK n) eqn:Em.
    + simpl. now rewrite andb_false_r.
    + rewrite Hpvn by reflexivity. simpl. now rewrite andb_true_r, orb_false_r.
  - unfold u8. change 256 with (2 ^ 8). rewrite Z.mod_pow2_bits_high by lia.
    rewrite LED_MASK_bits.
    repeat match goal with |- context [?a =? ?b] => destruct (Z.eqb_spec a b); [lia | ] end.
    simpl. rewrite <- (Z.mod_small portb (2 ^ 8)) by (change (2 ^ 8) with 256; lia).
    now rewrite Z.mod_pow2_bits_high by lia.
Qed.

(** C10.  For every face 0..6, [diceSet] succeeds and changes at most
    bits 0, 1, 2 and 4 of [PORTB]: every other bit, bit 3 with the
    pull-up of the button in particular, has the value it had before
    the call. *)
Theorem diceSet_frame (val : Z) (s : machine) :
  0 <= val <= 6 -> 0 <= PORTB s < 256 ->
  exists s', diceSet val s = Some s' /\
    (forall n, n <> 0 -> n <> 1 -> n <> 2 -> n <> 4 ->
               Z.testbit (PORTB s') n = Z.testbit (PORTB s) n) /\
    Z.testbit (PORTB s') PORTB3 = Z.testbit (PORTB s) PORTB3 /\
    0 <= PORTB s' < 256.
Proof.
  intros Hv Hp.
  destruct (index_portVals val Hv) as [pv [Hi _]].
  destruct (diceSet_port_bits val (PORTB s) pv Hp Hi) as [p [E B]].
  unfold diceSet. rewrite E.
  eexists; split; [reflexivity | ].
  assert (P : PORTB (set_shown (val :: shown s) (set_PORTB p s)) = p)
    by (destruct s; reflexivity).
  rewrite P.
  assert (F : forall n, n <> 0 -> n <> 1 -> n <> 2 -> n <> 4 ->
                        Z.testbit p n = Z.testbit (PORTB s) n).
  { intros n n0 n1 n2 n4. rewrite B, LED_MASK_bits.
    repeat match goal with |- context [?a =? ?b] => destruct (Z.eqb_spec a b); [lia | ] end.
    reflexivity. }
  split; [exact F | split].
  - apply F; unfold PORTB3; lia.
  - unfold diceSet_port in E. rewrite Hi in E. injection E as <-. apply u8_range.
Qed.

Lemma diceSet_frame_witness :
  exists s', diceSet 5 (main_init rng_seed) = Some s' /\
    (forall n, n <> 0 -> n <> 1 -> n <> 2 -> n <> 4 ->
               Z.testbit (PORTB s') n = Z.testbit (PORTB (main_init rng_seed)) n) /\
    Z.testbit (PORTB s') PORTB3 = Z.testbit (PORTB (main_init rng_seed)) PORTB3 /\
    0 <= PORTB s' < 256.
Proof.
  apply (diceSet_frame 5 (main_init rng_seed)); simpl; lia.
Defined.

(** ** Generic facts about the sections *)

(** Case analysis on the comparison an [if] tests. *)
Ltac split_if :=
  match goal with
  | |- context [if ?a >=? ?b then _ else _] => destruct (Z.geb_spec a b)
  | |- context [if ?a >? ?b then _ else _] => destruct (Z.gtb_spec a b)
  | |- context [if ?a =? ?b then _ else _] => destruct (Z.eqb_spec a b)
  | |- context [if ?a <? ?b then _ else _] => destruct (Z.ltb_spec a b)
  end.

(** [diceSet] with a face of the table writes the port and logs the face. *)
Lemma diceSet_ok (val : Z) (s : machine) :
  0 <= val <= 6 ->
  exists p, 0 <= p < 256 /\
    diceSet val s = Some (set_shown (val :: shown s) (set_PORTB p s)).
Proof.
  intros Hv. destruct (index_portVals val Hv) as [pv [Hi _]].
  unfold diceSet, diceSet_port. rewrite Hi.
  eexists; split; [apply u8_range | reflexivity].
Qed.

(** What [diceSet] leaves alone. *)
Lemma diceSet_inv (val : Z) (s s' : machine) :
  diceSet val s = Some s' ->
  exists p, s' = set_shown (val :: shown s) (set_PORTB p s).
Proof.
  unfold diceSet. destruct (diceSet_port val (PORTB s)) as [p | ]; [ | discriminate].
  intros E. injection E as <-. now exists p.
Qed.

Lemma same_inputs_diceSet (val : Z) (s s' : machine) :
  diceSet val s = Some s' -> same_inputs s s'.
Proof.
  intros E. destruct (diceSet_inv _ _ _ E) as [p ->].
  destruct s; repeat split.
Qed.

Lemma display_section_same_inputs (s s' : machine) :
  display_section s = Some s' -> same_inputs s s'.
Proof.
  unfold display_section, warn_branch, roll_branch, rolldone_branch, steady_branch.
  intros E.
  repeat match type of E with
         | context [match ?c with _ => _ end] =>
             lazymatch c with
             | diceSet _ _ => fail
             | _ => destruct c eqn:?
             end
         end;
    try discriminate;
    try (injection E as <-; destruct s; repeat split; fail);
    repeat match type of E with
           | context [diceSet ?v ?m] =>
               let D := fresh "D" in
               destruct (diceSet v m) as [? | ] eqn:D; [ | discriminate];
               apply same_inputs_diceSet in D
           end;
    repeat match type of E with
           | context [match ?c with _ => _ end] => destruct c eqn:?
           end;
    try (injection E as <-);
    try match goal with D : same_inputs _ _ |- _ =>
          destruct D as (D1 & D2 & D3 & D4 & D5) end;
    unfold same_inputs.
  all: try (destruct s; repeat split; fail).
  all: try (destruct s; destruct m; cbn in *; repeat split; congruence).
Qed.

(** ** Power scheduler *)

Lemma main_logic_wdt (i : poll) (s m : machine) :
  wdt_consistent s -> main_logic i s = Some m ->
  WDE m = true /\ (WDIE m = true -> WDE m = true).
Proof.
  unfold main_logic, wdt_consistent. intros C E.
  apply display_section_same_inputs in E.
  destruct E as (_ & _ & _ & E1 & E2). rewrite E1, E2. clear E1 E2.
  assert (T : WDE (tick_section i s) = true).
  { unfold tick_section, WDT_TIMEDOUT, WDT_INT_RESET, wdt_hw.
    destruct s as [a b c d e f g h j k l m' wde wdie o]; cbn in *.
    destruct wde, wdie, (wdt_expired1 i); cbn; auto. }
  assert (B : forall x, WDE (battery_section i (button_section i x)) = WDE x
                     /\ WDIE (battery_section i (button_section i x)) = WDIE x).
  { intros x. unfold battery_section, button_section.
    destruct x; cbn.
    repeat match goal with
           | |- context [if ?c then _ else _] => destruct c
           end; cbn; split; reflexivity. }
  destruct (B (tick_section i s)) as [-> ->]. auto.
Qed.

(** After an iteration the watchdog bits are consistent again, the
    watchdog having run through the display section. *)
Lemma loop_body_wdt (i : poll) (s s' : machine) :
  wdt_consistent s -> loop_body i s = Some s' ->
  exists m,
    main_logic i s = Some m /\ s' = sleep_section i m /\ WDE m = true /\
    wdt_consistent s'.
Proof.
  intros C E. unfold loop_body in E.
  destruct (main_logic i s) as [m | ] eqn:M; [ | discriminate].
  injection E as <-.
  destruct (main_logic_wdt i s m C M) as [W1 _].
  exists m. split; [reflexivity | split; [reflexivity | split; [exact W1 | ]]].
  unfold sleep_section, fully_idle, WDT_TIMEDOUT, wdt_disable, wdt_hw,
    wdt_consistent.
  destruct m as [a b st lb rr n bp h bc bs g p wde wdie o]; cbn in *.
  subst wde.
  destruct (wdt_expired2 i), wdie, (btn2 i), bp, st, lb; cbn;
    intros; try discriminate; reflexivity.
Qed.

(** C8.  In an iteration of the loop the watchdog (the periodic tick
    source) ends up disabled exactly when, at the sleep check, it has
    not timed out, the raw button is not pressed, the debouncer is in
    NotPressed, the animator is Idle and the battery state is not the
    blinking warning; whenever it is disabled the battery state is set
    to DOCHECK (so also from the sticky BATT_LOW), and otherwise the
    sleep section changes no variable. *)
Theorem deep_sleep_only_when_idle (i : poll) (s s' : machine) :
  wdt_consistent s ->
  loop_body i s = Some s' ->
  exists m,
    main_logic i s = Some m /\ s' = sleep_section i m /\ WDE m = true /\
    (WDE s' = false <->
       (WDT_TIMEDOUT (wdt_hw (wdt_expired2 i) m) = false /\ btn2 i = false /\
        btnPressState m = BTN_NOTPRESSED /\ state m = STATE_IDLE /\
        lowBatt m <> BATT_LOWWARN)) /\
    (WDE s' = false ->
       lowBatt s' = BATT_DOCHECK /\ state s' = STATE_IDLE /\
       btnPressState s' = BTN_NOTPRESSED) /\
    (WDE s' = true -> s' = wdt_hw (wdt_expired2 i) m) /\
    wdt_consistent s'.
Proof.
  intros C E. unfold loop_body in E.
  destruct (main_logic i s) as [m | ] eqn:M; [ | discriminate].
  injection E as <-.
  destruct (main_logic_wdt i s m C M) as [W1 W2].
  exists m. split; [reflexivity | split; [reflexivity | split; [exact W1 | ]]].
  unfold sleep_section, fully_idle, WDT_TIMEDOUT, wdt_disable, wdt_hw, wdt_consistent.
  destruct m as [a b st lb e f bp h j k l p wde wdie o]; cbn in *.
  subst wde.
  destruct (wdt_expired2 i), wdie, (btn2 i), bp, st, lb; cbn;
    repeat split; intros; try discriminate; try congruence; try tauto;
    repeat match goal with H : _ /\ _ |- _ => destruct H end;
    try discriminate; try congruence.
Qed.

Lemma deep_sleep_only_when_idle_witness :
  wdt_consistent (main_init rng_seed) /\
  loop_body idle_poll (main_init rng_seed) = Some first_sleep /\
  WDE first_sleep = false /\ lowBatt first_sleep = BATT_DOCHECK.
Proof.
  assert (C : wdt_consistent (main_init rng_seed)) by (intros _; reflexivity).
  assert (L : loop_body idle_poll (main_init rng_seed) = Some first_sleep)
    by reflexivity.
  destruct (deep_sleep_only_when_idle idle_poll (main_init rng_seed) first_sleep C L)
    as [m (_ & _ & _ & _ & D & _)].
  split; [exact C | split; [exact L | split; [reflexivity | apply D; reflexivity]]].
Defined.

(** ** The faces passed to [diceSet] *)

Ltac fields :=
  cbn [now timer state lowBatt rollResult nextRollChangeDelay btnPressState
       btnReleasedTime blinkCount blinkState gen PORTB WDE WDIE shown
       set_now set_timer set_state set_lowBatt set_rollResult
       set_nextRollChangeDelay set_btnPressState set_btnReleasedTime
       set_blinkCount set_blinkState set_gen set_PORTB set_WDTCR set_shown
       wdt_expired1 btn1 adc wdt_expired2 btn2 fst snd
       negb andb orb batt_eqb btn_eqb state_eqb] in *.

(** The value drawn at the end of a roll. *)
Lemma rolled_face (g : rng) :
  u8 (Z.rem (fst (genRandom g)) 6 + 1) = fst (genRandom g) mod 6 + 1 /\
  1 <= u8 (Z.rem (fst (genRandom g)) 6 + 1) <= 6.
Proof.
  assert (R : 0 <= fst (genRandom g) < 256) by (cbn; apply u8_range).
  rewrite Z.rem_mod_nonneg by lia.
  pose proof (Z.mod_pos_bound (fst (genRandom g)) 6).
  rewrite u8_small by lia. lia.
Qed.

Ltac dice :=
  match goal with
  | |- context [diceSet ?v ?m] =>
      let p := fresh "p" in
      let Hp := fresh "Hp" in
      let E := fresh "E" in
      destruct (diceSet_ok v m) as [p [Hp E]];
      [ try (unfold face_ok in *; fields; lia) | rewrite E; fields ]
  end.

Lemma index_rollDelays (n : Z) :
  1 <= n <= 4 ->
  exists d, index rollDelays n = Some d /\ 3 <= d <= 25.
Proof.
  intros H. assert (C : n = 1 \/ n = 2 \/ n = 3 \/ n = 4) by lia.
  destruct C as [-> | [-> | [-> | ->]]]; eexists; (split; [reflexivity | cbv; intuition discriminate]).
Qed.

Ltac safe_done :=
  unfold display_safe, face_ok in *; fields;
  repeat match goal with
         | |- _ /\ _ => split
         | |- Forall _ (_ :: _) => constructor
         | |- _ -> _ => intro
         end;
  repeat match goal with
         | N : ?A -> _, H : ?A |- _ => specialize (N H)
         end;
  try assumption; try discriminate; try lia; auto.

Lemma warn_branch_safe (s : machine) :
  display_safe s -> exists s', warn_branch s = Some s' /\ display_safe s'.
Proof.
  intros (R & N & F). unfold warn_branch.
  destruct s as [a b st lb rr n bp h bc bs g p wde wdie sh]; fields.
  split_if; [ | eexists; split; [reflexivity | safe_done]].
  split_if; split_if; try lia; dice;
    try split_if; eexists; (split; [reflexivity | safe_done]).
Qed.

Lemma roll_branch_safe (s : machine) :
  state s = STATE_ROLL -> display_safe s ->
  exists s', roll_branch s = Some s' /\ display_safe s'.
Proof.
  intros S (R & N & F). unfold roll_branch.
  destruct (index_rollDelays _ (N S)) as [d [-> Hd]].
  destruct s as [a b st lb rr n bp h bc bs g p wde wdie sh]; fields.
  specialize (N S). subst st. unfold face_ok in R.
  split_if; [ | eexists; split; [reflexivity | safe_done]].
  assert (U : u8 (n + 1) = n + 1) by (apply u8_small; lia).
  rewrite U. change ROLLDELAY_COUNT with 5.
  split_if.
  - destruct (genRandom g) as [r g'] eqn:G. fields.
    destruct (rolled_face g) as [_ Hr]. rewrite G in Hr. fields.
    dice. eexists; split; [reflexivity | safe_done].
  - assert (V : u8 (rr + 1) = rr + 1) by (apply u8_small; lia).
    rewrite V.
    split_if; fields; dice; eexists; (split; [reflexivity | safe_done]).
Qed.

Lemma rolldone_branch_safe (s : machine) :
  state s = STATE_ROLLDONE -> display_safe s ->
  exists s', rolldone_branch s = Some s' /\ display_safe s'.
Proof.
  intros S (R & N & F). unfold rolldone_branch.
  destruct s as [a b st lb rr n bp h bc bs g p wde wdie sh]; fields. subst st.
  destruct ((bs =? 0) || (elapsed a b >=? bs));
    [ | eexists; split; [reflexivity | safe_done]].
  split_if; dice; try split_if; eexists; (split; [reflexivity | safe_done]).
Qed.

Lemma steady_branch_safe (s : machine) :
  state s = STATE_STEADY -> display_safe s ->
  exists s', steady_branch s = Some s' /\ display_safe s'.
Proof.
  intros S (R & N & F). unfold steady_branch.
  destruct s as [a b st lb rr n bp h bc bs g p wde wdie sh]; fields. subst st.
  split_if; [dice | ]; eexists; (split; [reflexivity | safe_done]).
Qed.

Lemma display_section_safe (s : machine) :
  display_safe s -> exists s', display_section s = Some s' /\ display_safe s'.
Proof.
  intros H. unfold display_section.
  destruct (batt_eqb (lowBatt s) BATT_LOWWARN); [now apply warn_branch_safe | ].
  destruct (state s) eqn:S.
  - now exists s.
  - now apply roll_branch_safe.
  - now apply rolldone_branch_safe.
  - now apply steady_branch_safe.
Qed.

Lemma loop_body_safe (i : poll) (s : machine) :
  display_safe s -> exists s', loop_body i s = Some s' /\ display_safe s'.
Proof.
  intros H. unfold loop_body, main_logic.
  assert (P : display_safe (battery_section i (button_section i (tick_section i s)))).
  { unfold battery_section, button_section, tick_section, WDT_TIMEDOUT,
      WDT_INT_RESET, wdt_hw.
    destruct s as [a b st lb rr n bp h bc bs g p wde wdie sh].
    destruct H as (R & N & F). fields.
    repeat match goal with
           | |- context [if ?c then _ else _] => destruct c; fields
           end; safe_done. }
  destruct (display_section_safe _ P) as [m [-> Hm]].
  eexists; split; [reflexivity | ].
  unfold sleep_section, WDT_TIMEDOUT, wdt_disable, wdt_hw.
  destruct m as [a b st lb rr n bp h bc bs g p wde wdie sh].
  destruct Hm as (R & N & F). fields.
  repeat match goal with
         | |- context [if ?c then _ else _] => destruct c; fields
         end; safe_done.
Qed.

Lemma run_safe (ins : list poll) :
  forall s, display_safe s -> exists s', run ins s = Some s' /\ display_safe s'.
Proof.
  induction ins as [ | i rest IH]; intros s H; cbn [run].
  - now exists s.
  - destruct (loop_body_safe i s H) as [s1 [-> H1]]. now apply IH.
Qed.

(** C9.  From power-up, whatever the hardware presents and whatever the
    state of the generator after the warm-up, no iteration of the loop
    reads a table out of bounds: [rollResult] is within 0..6 after every
    iteration and so is every face that was passed to [diceSet]. *)
Theorem diceSet_argument_in_range (ins : list poll) (g : rng) :
  exists s', run ins (main_init g) = Some s' /\
    0 <= rollResult s' <= 6 /\
    Forall (fun v => 0 <= v <= 6) (shown s') /\
    Forall (fun v => exists pv, index portVals v = Some pv) (shown s').
Proof.
  destruct (run_safe ins (main_init g)) as [s' [E (R & _ & F)]].
  { repeat split; cbn; try lia; try discriminate. constructor. }
  exists s'. repeat split; try apply R; try exact E; try exact F.
  eapply Forall_impl; [ | exact F].
  intros v Hv. destruct (index_portVals v Hv) as [pv [Hi _]]. now exists pv.
Qed.

(** ** Button debouncer *)

Lemma ticks_nonneg (ins : list poll) : forall s, 0 <= ticks ins s.
Proof.
  induction ins as [ | i rest IH]; intros s; cbn [ticks]; [lia | ].
  destruct (ticked i s); destruct (loop_body i s) as [s1 | ];
    try specialize (IH s1); lia.
Qed.

(** The debouncer's variables after one iteration. *)
Lemma loop_body_button (i : poll) (s s' : machine) :
  loop_body i s = Some s' ->
  now s' = now (tick_section i s) /\
  btnPressState s' = btnPressState (button_section i (tick_section i s)) /\
  btnReleasedTime s' = btnReleasedTime (button_section i (tick_section i s)).
Proof.
  unfold loop_body, main_logic. intros E.
  destruct (display_section _) as [m | ] eqn:D; [ | discriminate].
  injection E as <-.
  apply display_section_same_inputs in D.
  destruct D as (D1 & D2 & D3 & _ & _).
  assert (S : forall x, now (sleep_section i x) = now x /\
                        btnPressState (sleep_section i x) = btnPressState x /\
                        btnReleasedTime (sleep_section i x) = btnReleasedTime x).
  { intros x. unfold sleep_section, WDT_TIMEDOUT, wdt_disable, wdt_hw.
    destruct x; fields.
    repeat match goal with
           | |- context [if ?c then _ else _] => destruct c; fields
           end; repeat split. }
  destruct (S m) as (-> & -> & ->). rewrite D1, D2, D3.
  unfold battery_section, button_section.
  destruct (tick_section i s); fields.
  repeat match goal with
         | |- context [if ?c then _ else _] => destruct c; fields
         end; repeat split.
Qed.

Lemma now_tick_section (i : poll) (s : machine) :
  now (tick_section i s) = if ticked i s then u8 (now s + 1) else now s.
Proof.
  unfold tick_section, ticked, WDT_TIMEDOUT, WDT_INT_RESET, wdt_hw.
  destruct s; fields.
  repeat match goal with
         | |- context [if ?c then _ else _] => destruct c; fields
         end; reflexivity.
Qed.

Lemma loop_body_released (i : poll) (s s' : machine) :
  btn1 i = false -> loop_body i s = Some s' ->
  now s' = (if ticked i s then u8 (now s + 1) else now s) /\
  (btnPressState s = BTN_PRESSED ->
     btnPressState s' = BTN_DEBOUNCING /\ btnReleasedTime s' = now s') /\
  (btnPressState s <> BTN_PRESSED ->
     btnReleasedTime s' = btnReleasedTime s /\
     btnPressState s' =
       if elapsed (now s') (btnReleasedTime s) >=? TMR_MS 50
       then BTN_NOTPRESSED else btnPressState s).
Proof.
  intros B E. apply loop_body_button in E. destruct E as (E1 & E2 & E3).
  rewrite E1, E2, E3, <- now_tick_section.
  assert (T : btnPressState (tick_section i s) = btnPressState s /\
              btnReleasedTime (tick_section i s) = btnReleasedTime s).
  { unfold tick_section, WDT_TIMEDOUT, WDT_INT_RESET, wdt_hw.
    destruct s; fields.
    repeat match goal with
           | |- context [if ?c then _ else _] => destruct c; fields
           end; split; reflexivity. }
  destruct T as [T1 T2]. revert T1 T2.
  generalize (tick_section i s). intros m T1 T2.
  unfold button_section. rewrite B, T1, T2.
  destruct m; fields. subst.
  split; [reflexivity | ].
  destruct (btnPressState s); cbn [btn_eqb]; (split; [intros P | intros P]);
    try discriminate; try congruence; fields; try (split; reflexivity);
    split_if; fields; split; reflexivity.
Qed.

Lemma loop_body_pressed (i : poll) (s s' : machine) :
  btn1 i = true -> loop_body i s = Some s' -> btnPressState s' = BTN_PRESSED.
Proof.
  intros B E. apply loop_body_button in E. destruct E as (_ & -> & _).
  unfold button_section. rewrite B.
  destruct (tick_section i s); fields.
  destruct (btn_eqb _ _); reflexivity.
Qed.

(** Once released for good, the debouncer stays in NotPressed. *)
Lemma released_stays (ins : list poll) :
  forall s s',
    Forall (fun i => btn1 i = false) ins ->
    btnPressState s = BTN_NOTPRESSED ->
    run ins s = Some s' -> btnPressState s' = BTN_NOTPRESSED.
Proof.
  induction ins as [ | i rest IH]; intros s s' Q P E; cbn [run] in E.
  - now injection E as <-.
  - destruct (loop_body i s) as [s1 | ] eqn:L; [ | discriminate].
    inversion Q as [ | ? ? Qi Qr]; subst.
    apply (IH s1 s' Qr); [ | exact E].
    destruct (loop_body_released i s s1 Qi L) as (_ & _ & H).
    destruct H as [_ H]; [congruence | ].
    rewrite H, P. now destruct (_ >=? _).
Qed.

Lemma settling_step (i : poll) (r t : Z) (s s' : machine) :
  0 <= t -> btn1 i = false -> settling r t s -> loop_body i s = Some s' ->
  settling r (t + if ticked i s then 1 else 0) s'.
Proof.
  intros T B (R & D & N) L.
  destruct (loop_body_released i s s' B L) as (E & _ & H).
  change (TMR_MS 50) with 3 in *.
  assert (P : btnPressState s <> BTN_PRESSED).
  { destruct (Z_lt_dec t 3) as [Lt | Ge].
    - destruct (D Lt) as [-> _]. discriminate.
    - rewrite N by lia. discriminate. }
  destruct (H P) as [H1 H2]. clear H.
  unfold settling. change (TMR_MS 50) with 3.
  split; [congruence | ].
  destruct (Z_lt_dec t 3) as [Lt | Ge].
  - destruct (D Lt) as [D1 D2]. rewrite R in H2.
    assert (El : elapsed (now s') r = t + if ticked i s then 1 else 0).
    { rewrite E. destruct (ticked i s).
      - rewrite elapsed_succ; lia.
      - lia. }
    rewrite El, D1 in H2. rewrite El.
    destruct (Z.geb_spec (t + if ticked i s then 1 else 0) 3); split; intros; try lia; auto.
  - specialize (N ltac:(lia)). rewrite N in H2.
    destruct (_ >=? _) in H2; destruct (ticked i s); split; intros; try lia; auto.
Qed.

Lemma settling_run (ins : list poll) :
  forall (r t : Z) (s s' : machine),
    0 <= t -> Forall (fun i => btn1 i = false) ins ->
    settling r t s -> run ins s = Some s' ->
    settling r (t + ticks ins s) s'.
Proof.
  induction ins as [ | i rest IH]; intros r t s s' T Q S E;
    cbn [run ticks] in *.
  - injection E as <-. now rewrite Z.add_0_r.
  - destruct (loop_body i s) as [s1 | ] eqn:L; [ | discriminate].
    inversion Q as [ | ? ? Qi Qr]; subst.
    rewrite Z.add_assoc.
    apply IH; try assumption.
    + destruct (ticked i s); lia.
    + now apply settling_step.
Qed.

(** C7.  On the first iteration that reads the button released, the
    debouncer goes from Pressed to Debouncing and records the tick.
    While the button stays released the state is a function of the
    ticks counted since: Debouncing before [TMR_MS 50] (3 ticks, 48 ms),
    NotPressed from then on, so the transition to NotPressed is taken
    once and, once taken, the state stays NotPressed.  A press read in
    any state, Debouncing included, gives Pressed. *)
Theorem debounce_release (first : poll) (ins : list poll) (s s1 s' : machine) :
  btnPressState s = BTN_PRESSED ->
  btn1 first = false -> Forall (fun i => btn1 i = false) ins ->
  loop_body first s = Some s1 -> run ins s1 = Some s' ->
  (btnPressState s1 = BTN_DEBOUNCING /\ btnReleasedTime s1 = now s1) /\
  btnReleasedTime s' = now s1 /\
  btnPressState s' =
    (if ticks ins s1 <? TMR_MS 50 then BTN_DEBOUNCING else BTN_NOTPRESSED) /\
  (forall (p q : list poll) (mid : machine),
      ins = p ++ q -> run p s1 = Some mid ->
      btnPressState mid = BTN_NOTPRESSED ->
      btnPressState s' = BTN_NOTPRESSED) /\
  (forall (again : poll) (s2 : machine),
      btn1 again = true -> loop_body again s' = Some s2 ->
      btnPressState s2 = BTN_PRESSED).
Proof.
  intros P B Q L R.
  destruct (loop_body_released first s s1 B L) as (_ & H & _).
  destruct (H P) as [H1 H2]. clear H.
  assert (S1 : settling (now s1) 0 s1).
  { repeat split; auto.
    - apply elapsed_same.
    - change (TMR_MS 50) with 3. lia. }
  pose proof (settling_run ins (now s1) 0 s1 s' (Z.le_refl 0) Q S1 R) as (S2 & S3 & S4).
  rewrite Z.add_0_l in *.
  split; [split; assumption | split; [exact S2 | split; [ | split]]].
  - destruct (Z.ltb_spec (ticks ins s1) (TMR_MS 50)) as [Lt | Ge].
    + now destruct (S3 Lt).
    + now apply S4.
  - intros p q mid -> Rp N.
    assert (Rq : run q mid = Some s').
    { clear - R Rp. revert s1 R Rp.
      induction p as [ | i p IH]; intros s1 R Rp; cbn [run app] in *.
      - injection Rp as <-. exact R.
      - destruct (loop_body i s1) as [x | ]; [ | discriminate]. now apply (IH x). }
    apply Forall_app in Q. destruct Q as [_ Qq].
    now apply (released_stays q mid s' Qq N).
  - intros again s2 Ba La. now apply (loop_body_pressed again s' s2).
Qed.

(** ** Runs *)

Lemma run_app (p q : list poll) :
  forall s, run (p ++ q) s = (m <- run p s ;; run q m).
Proof.
  induction p as [ | i p IH]; intros s; cbn [run app].
  - reflexivity.
  - destruct (loop_body i s) as [x | ]; [apply IH | reflexivity].
Qed.

(** Splitting a list with a last element at an inner element. *)
Lemma split_before_last {A : Type} (l p q : list A) (x i : A) :
  l ++ [x] = p ++ i :: q -> exists r, l = p ++ r.
Proof.
  revert l. induction p as [ | y p IH]; intros l E.
  - now exists l.
  - destruct l as [ | z l]; cbn [app] in E.
    + injection E as _ E. destruct p; discriminate.
    + injection E as -> E. destruct (IH l E) as [r ->]. now exists r.
Qed.

Lemma debounce_release_witness :
  btnPressState
    (state_after (tick_poll true 0 :: repeat (tick_poll false 0) 5)
       (main_init rng_seed)) = BTN_NOTPRESSED.
Proof.
  destruct (debounce_release (tick_poll false 0) (repeat (tick_poll false 0) 4)
              (state_after [tick_poll true 0] (main_init rng_seed))
              (state_after [tick_poll true 0; tick_poll false 0] (main_init rng_seed))
              (state_after (tick_poll true 0 :: repeat (tick_poll false 0) 5)
                 (main_init rng_seed)))
    as (_ & _ & H & _).
  - reflexivity.
  - reflexivity.
  - repeat constructor.
  - reflexivity.
  - reflexivity.
  - rewrite H. reflexivity.
Defined.

(** ** Roll animator: the button held *)

(** Case analysis on the innermost test of a hypothesis or of the goal. *)
Ltac inner_case_in E :=
  match type of E with
  | context [match ?c with _ => _ end] =>
      lazymatch c with
      | context [match _ with _ => _ end] => fail
      | _ => destruct c eqn:?; fields; try discriminate E
      end
  end.

Ltac inner_case :=
  match goal with
  | |- context [match ?c with _ => _ end] =>
      lazymatch c with
      | context [match _ with _ => _ end] => fail
      | _ => destruct c eqn:?; fields; try discriminate
      end
  end.

Lemma loop_body_sections (i : poll) (s s' : machine) :
  loop_body i s = Some s' ->
  exists m, display_section (front_sections i s) = Some m /\
            s' = sleep_section i m.
Proof.
  unfold loop_body, main_logic, front_sections.
  destruct (display_section _) as [m | ]; [ | discriminate].
  intros E. injection E as <-. now exists m.
Qed.

(** The sleep section writes [WDTCR] and [lowBatt] only. *)
Lemma sleep_section_frame (i : poll) (m : machine) :
  now (sleep_section i m) = now m /\ timer (sleep_section i m) = timer m /\
  state (sleep_section i m) = state m /\
  rollResult (sleep_section i m) = rollResult m /\
  nextRollChangeDelay (sleep_section i m) = nextRollChangeDelay m /\
  btnPressState (sleep_section i m) = btnPressState m /\
  blinkCount (sleep_section i m) = blinkCount m /\
  blinkState (sleep_section i m) = blinkState m /\
  gen (sleep_section i m) = gen m /\ PORTB (sleep_section i m) = PORTB m /\
  shown (sleep_section i m) = shown m.
Proof.
  unfold sleep_section, WDT_TIMEDOUT, wdt_disable, wdt_hw.
  destruct m; fields. repeat inner_case; repeat split.
Qed.

(** Outside Idle the sleep section leaves the battery state and keeps
    the watchdog running. *)
Lemma sleep_section_busy (i : poll) (m : machine) :
  state m <> STATE_IDLE ->
  lowBatt (sleep_section i m) = lowBatt m /\ WDE (sleep_section i m) = WDE m.
Proof.
  unfold sleep_section, fully_idle, WDT_TIMEDOUT, wdt_disable, wdt_hw.
  destruct m as [a b st lb rr n bp h bc bs g p wde wdie sh]; fields.
  intros S. destruct st; try congruence;
    repeat inner_case; try (split; reflexivity);
    exfalso;
    repeat match goal with
           | H : context [_ && false] |- _ => rewrite andb_false_r in H
           | H : context [false && _] |- _ => rewrite andb_false_l in H
           end; discriminate.
Qed.

(** With the button read pressed the front sections restart the roll. *)
Lemma front_held (i : poll) (s : machine) :
  btn1 i = true ->
  state (front_sections i s) = STATE_ROLL /\
  nextRollChangeDelay (front_sections i s) = 1 /\
  btnPressState (front_sections i s) = BTN_PRESSED /\
  gen (front_sections i s) = gen s /\
  rollResult (front_sections i s) = rollResult s /\
  shown (front_sections i s) = shown s /\ PORTB (front_sections i s) = PORTB s.
Proof.
  intros B. unfold front_sections, battery_section, button_section, tick_section,
    WDT_TIMEDOUT, WDT_INT_RESET, wdt_hw.
  rewrite B. destruct s; fields. repeat inner_case; repeat split.
Qed.

(** The warning branch leaves the animator's variables alone. *)
Lemma warn_branch_frame (s s' : machine) :
  warn_branch s = Some s' ->
  state s' = state s /\ nextRollChangeDelay s' = nextRollChangeDelay s /\
  gen s' = gen s /\ rollResult s' = rollResult s /\ now s' = now s.
Proof.
  unfold warn_branch, diceSet. intros E.
  destruct s; fields. repeat inner_case_in E;
    injection E as <-; repeat split.
Qed.

(** The roll branch at the first delay: a step of the count-up, no draw. *)
Lemma roll_branch_first (s s' : machine) :
  nextRollChangeDelay s = 1 -> roll_branch s = Some s' ->
  state s' = state s /\ 1 <= nextRollChangeDelay s' <= 2 /\ gen s' = gen s.
Proof.
  unfold roll_branch, diceSet. intros N E.
  destruct s as [a b st lb rr n bp h bc bs g p wde wdie sh]; fields. subst n.
  change (index rollDelays 1) with (Some 3) in E.
  change (u8 (1 + 1) >=? ROLLDELAY_COUNT) with false in E.
  change (u8 (1 + 1)) with 2 in E.
  repeat inner_case_in E; injection E as <-; fields; repeat split; lia.
Qed.

(** One iteration with the button read pressed: the animator is (back)
    in STATE_ROLL at the first or second delay and nothing was drawn. *)
Lemma held_step (i : poll) (s s' : machine) :
  btn1 i = true -> loop_body i s = Some s' ->
  state s' = STATE_ROLL /\ 1 <= nextRollChangeDelay s' <= 2 /\
  gen s' = gen s /\ btnPressState s' = BTN_PRESSED.
Proof.
  intros B E. apply loop_body_sections in E. destruct E as [m [D ->]].
  destruct (front_held i s B) as (F1 & F2 & F3 & F4 & _).
  destruct (sleep_section_frame i m) as (_ & _ & -> & _ & -> & -> & _ & _ & -> & _).
  pose proof (display_section_same_inputs _ _ D) as (_ & -> & _).
  rewrite F3, <- F4.
  unfold display_section in D. rewrite F1 in D.
  destruct (batt_eqb _ _).
  - apply warn_branch_frame in D. destruct D as (-> & -> & -> & _).
    rewrite F1, F2. repeat split; lia.
  - apply roll_branch_first in D; [ | exact F2].
    destruct D as (-> & D2 & ->). rewrite F1. repeat split; lia.
Qed.

Lemma held_run (held : list poll) :
  forall s s',
    Forall (fun i => btn1 i = true) held -> held <> [] ->
    run held s = Some s' ->
    state s' = STATE_ROLL /\ 1 <= nextRollChangeDelay s' <= 2 /\ gen s' = gen s.
Proof.
  induction held as [ | i rest IH]; intros s s' Q NE E; [congruence | ].
  cbn [run] in E. destruct (loop_body i s) as [s1 | ] eqn:L; [ | discriminate].
  inversion Q as [ | ? ? Qi Qr]; subst.
  destruct (held_step i s s1 Qi L) as (H1 & H2 & H3 & _).
  destruct rest as [ | j rest'].
  - cbn [run] in E. injection E as <-. auto.
  - destruct (IH s1 s' Qr ltac:(discriminate) E) as (K1 & K2 & K3).
    rewrite K3, H3. auto.
Qed.

(** While the button is read pressed the generator is not consulted:
    the iteration commutes with a change of its state. *)
Lemma front_sections_gen (i : poll) (g' : rng) (s : machine) :
  front_sections i (set_gen g' s) = set_gen g' (front_sections i s).
Proof.
  unfold front_sections, battery_section, button_section, tick_section,
    WDT_TIMEDOUT, WDT_INT_RESET, wdt_hw.
  destruct s; fields. repeat inner_case; reflexivity.
Qed.

Lemma sleep_section_gen (i : poll) (g' : rng) (m : machine) :
  sleep_section i (set_gen g' m) = set_gen g' (sleep_section i m).
Proof.
  unfold sleep_section, fully_idle, WDT_TIMEDOUT, wdt_disable, wdt_hw.
  destruct m; fields. repeat inner_case; reflexivity.
Qed.

Lemma display_section_gen (g' : rng) (s : machine) :
  state s = STATE_ROLL -> nextRollChangeDelay s = 1 ->
  display_section (set_gen g' s)
  = match display_section s with Some m => Some (set_gen g' m) | None => None end.
Proof.
  intros S N.
  unfold display_section, warn_branch, roll_branch, diceSet.
  destruct s as [a b st lb rr n bp h bc bs g p wde wdie sh]; fields. subst st n.
  change (index rollDelays 1) with (Some 3).
  repeat inner_case; try reflexivity.
  all: exfalso;
    match goal with H : (u8 (1 + 1) >=? ROLLDELAY_COUNT) = true |- _ =>
      discriminate H end.
Qed.

Lemma held_step_gen (i : poll) (g' : rng) (s : machine) :
  btn1 i = true ->
  loop_body i (set_gen g' s)
  = match loop_body i s with Some m => Some (set_gen g' m) | None => None end.
Proof.
  intros B. unfold loop_body, main_logic.
  change (battery_section i (button_section i (tick_section i ?x)))
    with (front_sections i x).
  rewrite front_sections_gen.
  destruct (front_held i s B) as (F1 & F2 & _).
  rewrite (display_section_gen g' _ F1 F2).
  destruct (display_section (front_sections i s)) as [m | ]; [ | reflexivity].
  now rewrite sleep_section_gen.
Qed.

Lemma held_run_gen (held : list poll) (g' : rng) :
  forall s,
    Forall (fun i => btn1 i = true) held ->
    run held (set_gen g' s)
    = match run held s with Some m => Some (set_gen g' m) | None => None end.
Proof.
  induction held as [ | i rest IH]; intros s Q; cbn [run]; [reflexivity | ].
  inversion Q as [ | ? ? Qi Qr]; subst.
  rewrite (held_step_gen i g' s Qi).
  destruct (loop_body i s) as [s1 | ]; [now apply IH | reflexivity].
Qed.

(** ** Roll animator: after the release *)

(** An iteration woken by the watchdog with the button released and no
    battery check due: the front sections advance [now] by one tick and
    run the debouncer; the other variables are as they were. *)
Lemma front_released_tick (v : Z) (s : machine) :
  WDE s = true -> lowBatt s <> BATT_DOCHECK ->
  now (front_sections (tick_poll false v) s) = u8 (now s + 1) /\
  WDE (front_sections (tick_poll false v) s) = true /\
  WDIE (front_sections (tick_poll false v) s) = true /\
  timer (front_sections (tick_poll false v) s) = timer s /\
  state (front_sections (tick_poll false v) s) = state s /\
  lowBatt (front_sections (tick_poll false v) s) = lowBatt s /\
  rollResult (front_sections (tick_poll false v) s) = rollResult s /\
  nextRollChangeDelay (front_sections (tick_poll false v) s)
  = nextRollChangeDelay s /\
  blinkCount (front_sections (tick_poll false v) s) = blinkCount s /\
  blinkState (front_sections (tick_poll false v) s) = blinkState s /\
  gen (front_sections (tick_poll false v) s) = gen s /\
  PORTB (front_sections (tick_poll false v) s) = PORTB s /\
  shown (front_sections (tick_poll false v) s) = shown s.
Proof.
  intros W B.
  unfold front_sections, battery_section, button_section, tick_section,
    WDT_TIMEDOUT, WDT_INT_RESET, wdt_hw, tick_poll.
  destruct s as [a b st lb rr n bp h bc bs g p wde wdie sh]; fields. subst wde.
  destruct lb; try congruence; fields; repeat inner_case; repeat split.
Qed.

(** The roll branch, case by case. *)
Lemma roll_branch_spec (s : machine) :
  1 <= nextRollChangeDelay s <= 4 -> face_ok (rollResult s) ->
  exists d s',
    index rollDelays (nextRollChangeDelay s) = Some d /\
    roll_branch s = Some s' /\
    now s' = now s /\ lowBatt s' = lowBatt s /\ WDE s' = WDE s /\
    WDIE s' = WDIE s /\ face_ok (rollResult s') /\
    blinkCount s' = blinkCount s /\ blinkState s' = blinkState s /\
    if elapsed (now s) (timer s) >=? d then
      timer s' = now s /\
      if nextRollChangeDelay s =? 4 then
        state s' = STATE_ROLLDONE /\ gen s' = snd (genRandom (gen s)) /\
        rollResult s' = fst (genRandom (gen s)) mod 6 + 1 /\
        shown s' = rollResult s' :: shown s
      else
        state s' = state s /\
        nextRollChangeDelay s' = nextRollChangeDelay s + 1 /\ gen s' = gen s
    else s' = s.
Proof.
  intros N R.
  destruct (index_rollDelays _ N) as [d [Hd _]].
  exists d. unfold roll_branch. rewrite Hd.
  destruct s as [a b st lb rr n bp h bc bs g p wde wdie sh]; fields.
  unfold face_ok in R.
  destruct (Z.geb_spec (elapsed a b) d) as [Ge | Lt].
  2: { eexists; repeat split; try reflexivity; fields; lia. }
  rewrite (u8_small (n + 1)) by lia. change ROLLDELAY_COUNT with 5.
  destruct (Z.eqb_spec n 4) as [-> | N4].
  - cbn [Z.add Z.geb Z.compare Pos.add Pos.succ Pos.compare Pos.compare_cont].
    destruct (rolled_face g) as [Hr1 Hr2].
    destruct (genRandom g) as [r g'] eqn:G. fields.
    rewrite Hr1 in *. dice.
    eexists; repeat split; try reflexivity; unfold face_ok; fields; lia.
  - destruct (Z.geb_spec (n + 1) 5); [lia | ].
    rewrite (u8_small (rr + 1)) by lia.
    split_if; fields; dice;
      eexists; repeat split; try reflexivity; unfold face_ok; fields; lia.
Qed.

Lemma roll_schedule :
  index rollDelays 1 = Some 3 /\ index rollDelays 2 = Some 6 /\
  index rollDelays 3 = Some 12 /\ index rollDelays 4 = Some 25 /\
  roll_rest 1 = 43 /\ roll_rest 2 = 37 /\ roll_rest 3 = 25 /\ roll_rest 4 = 0.
Proof. repeat split; reflexivity. Qed.

Ltac schedule :=
  destruct roll_schedule as (I1 & I2 & I3 & I4 & T1 & T2 & T3 & T4);
  rewrite ?I1, ?I2, ?I3, ?I4, ?T1, ?T2, ?T3, ?T4 in *.

Lemma roll_remaining_bounds (s : machine) :
  1 <= nextRollChangeDelay s <= 2 -> 1 <= roll_remaining s <= 47.
Proof.
  intros N. unfold roll_remaining, roll_wait.
  pose proof (elapsed_range (u8 (now s + 1)) (timer s)).
  assert (C : nextRollChangeDelay s = 1 \/ nextRollChangeDelay s = 2) by lia.
  destruct C as [-> | ->]; schedule; split_if; lia.
Qed.

Lemma released_tick_roll (v : Z) (s : machine) :
  rolling s ->
  exists s',
    loop_body (tick_poll false v) s = Some s' /\
    ((state s' = STATE_ROLLDONE /\ roll_remaining s = 1 /\
      gen s' = snd (genRandom (gen s)) /\
      rollResult s' = fst (genRandom (gen s)) mod 6 + 1 /\
      shown s' = rollResult s' :: shown s /\
      blinkCount s' = blinkCount s /\ blinkState s' = blinkState s /\
      batt_settled s' /\ WDE s' = true)
     \/
     (rolling s' /\ roll_remaining s' = roll_remaining s - 1 /\
      gen s' = gen s /\ blinkCount s' = blinkCount s /\
      blinkState s' = blinkState s)).
Proof.
  intros (S & N & B & W & R).
  assert (ND : lowBatt s <> BATT_DOCHECK) by (destruct B as [B | B]; rewrite B; discriminate).
  destruct (front_released_tick v s W ND)
    as (F1 & F2 & F3 & F4 & F5 & F6 & F7 & F8 & F9 & F10 & F11 & F12 & F13).
  unfold loop_body, main_logic.
  change (battery_section ?i (button_section ?i (tick_section ?i ?x)))
    with (front_sections i x).
  set (m := front_sections (tick_poll false v) s) in *.
  assert (D : display_section m = roll_branch m).
  { unfold display_section. rewrite F6, F5, S.
    destruct B as [-> | ->]; reflexivity. }
  rewrite D.
  destruct (roll_branch_spec m)
    as (d & m' & Hd & Hr & R1 & R2 & R3 & R4 & R5 & R7 & R8 & R6);
    [lia | now rewrite F7 | ].
  rewrite Hr. eexists; split; [reflexivity | ].
  unfold face_ok in *.
  destruct (sleep_section_frame (tick_poll false v) m')
    as (Z1 & Z2 & Z3 & Z4 & Z5 & Z6 & Z7 & Z8 & Z9 & Z10 & Z11).
  rewrite F8 in Hd.
  assert (Hd' := index_rollDelays _ N). destruct Hd' as [d' [Hd' Hb]].
  assert (d' = d) by congruence. subst d'. clear Hd'.
  rewrite F1, F4, F8 in R6.
  unfold roll_remaining, roll_wait. rewrite Hd.
  pose proof (elapsed_range (u8 (now s + 1)) (timer s)) as He.
  rewrite Z7, Z8, Z9, R7, R8, F9, F10.
  destruct (Z.geb_spec (elapsed (u8 (now s + 1)) (timer s)) d) as [Ge | Lt].
  - destruct R6 as [T R6].
    destruct (Z.eqb_spec (nextRollChangeDelay s) 4) as [N4 | N4].
    + left. destruct R6 as (Q1 & Q2 & Q3 & Q4).
      assert (NI : state m' <> STATE_IDLE) by (rewrite Q1; discriminate).
      destruct (sleep_section_busy (tick_poll false v) m' NI) as [B1 B2].
      unfold batt_settled.
      rewrite Z3, Z4, Z11, B1, B2, Q1, Q2, Q4, Q3, F11, F13, R2, R3, F2, F6, N4.
      schedule. repeat split; try reflexivity; try assumption.
    + right. destruct R6 as (Q1 & Q2 & Q3).
      assert (NI : state m' <> STATE_IDLE) by (rewrite Q1, F5, S; discriminate).
      destruct (sleep_section_busy (tick_poll false v) m' NI) as [B1 B2].
      unfold rolling, batt_settled.
      rewrite Z1, Z2, Z3, Z4, Z5, B1, B2, R1, R2, R3, T, Q1, Q2, Q3,
        F1, F2, F5, F6, F11, S.
      assert (E1 : elapsed (u8 (u8 (now s + 1) + 1)) (u8 (now s + 1)) = 1).
      { rewrite elapsed_succ; rewrite elapsed_same; lia. }
      rewrite E1.
      split; [ | split; [ | repeat split]].
      * repeat split; try assumption; try lia.
      * assert (C : nextRollChangeDelay s = 1 \/ nextRollChangeDelay s = 2
                    \/ nextRollChangeDelay s = 3) by lia.
        destruct C as [C | [C | C]]; rewrite C;
          cbn [Z.add Pos.add Pos.succ]; schedule; reflexivity.
  - right. subst m'.
    assert (NI : state m <> STATE_IDLE) by (rewrite F5, S; discriminate).
    destruct (sleep_section_busy (tick_poll false v) m NI) as [B1 B2].
    unfold rolling, batt_settled.
    rewrite Z1, Z2, Z3, Z4, Z5, B1, B2, F1, F2, F4, F5, F6, F7, F8, F11, Hd.
    rewrite (elapsed_succ (u8 (now s + 1)) (timer s)) by lia.
    split; [repeat split; try assumption; lia | ].
    split; [split_if; lia | repeat split].
Qed.

Lemma roll_remaining_pos (s : machine) :
  1 <= nextRollChangeDelay s <= 4 -> 1 <= roll_remaining s.
Proof.
  intros N. unfold roll_remaining, roll_wait.
  pose proof (elapsed_range (u8 (now s + 1)) (timer s)).
  assert (C : nextRollChangeDelay s = 1 \/ nextRollChangeDelay s = 2 \/
              nextRollChangeDelay s = 3 \/ nextRollChangeDelay s = 4) by lia.
  destruct C as [-> | [-> | [-> | ->]]]; schedule; split_if; lia.
Qed.

(** With a tick per iteration and the button released, a roll at
    [roll_remaining s = n] is still rolling after fewer than [n]
    iterations and draws its result in iteration [n]. *)
Lemma roll_run (v : Z) (n : nat) :
  forall (s : machine) (k : nat),
    rolling s -> roll_remaining s = Z.of_nat n -> (k <= n)%nat ->
    exists s',
      run (repeat (tick_poll false v) k) s = Some s' /\
      blinkCount s' = blinkCount s /\ blinkState s' = blinkState s /\
      if (k <? n)%nat then rolling s' /\ gen s' = gen s
      else state s' = STATE_ROLLDONE /\
           gen s' = snd (genRandom (gen s)) /\
           rollResult s' = fst (genRandom (gen s)) mod 6 + 1 /\
           hd 0 (shown s') = rollResult s' /\
           batt_settled s' /\ WDE s' = true.
Proof.
  induction n as [ | n IH]; intros s k R M K.
  - destruct R as (_ & N & _). pose proof (roll_remaining_pos s N). lia.
  - destruct k as [ | k].
    + exists s. cbn [repeat run]. change (0 <? S n)%nat with true.
      cbv iota. repeat split; try reflexivity; apply R.
    + cbn [repeat run].
      destruct (released_tick_roll v s R) as [s1 [-> [D | C]]].
      * destruct D as (D1 & D2 & D3 & D4 & D5 & D6 & D7 & D8 & D9).
        assert (n = 0%nat) by lia. subst n.
        assert (k = 0%nat) by lia. subst k.
        exists s1. cbn [repeat run]. split; [reflexivity | ].
        split; [exact D6 | split; [exact D7 | ]].
        cbn. rewrite D5. cbn [hd]. repeat split; assumption.
      * destruct C as (C1 & C2 & C3 & C4 & C5).
        destruct (IH s1 k C1 ltac:(lia) ltac:(lia)) as (s' & E & B1 & B2 & H).
        exists s'. split; [exact E | ].
        split; [congruence | split; [congruence | ]].
        change (S k <? S n)%nat with (k <? n)%nat.
        destruct (k <? n)%nat; rewrite <- C3; exact H.
Qed.

Lemma front_lowBatt (i : poll) (s : machine) :
  lowBatt (front_sections i s)
  = if batt_eqb (lowBatt s) BATT_DOCHECK then classify (adc i) else lowBatt s.
Proof.
  unfold front_sections, battery_section, button_section, tick_section,
    WDT_TIMEDOUT, WDT_INT_RESET, wdt_hw.
  destruct s as [a b st lb rr n bp h bc bs g p wde wdie sh]; fields.
  repeat inner_case; reflexivity.
Qed.

(** An iteration with the button read pressed and a good battery. *)
Lemma held_step_rolling (i : poll) (s : machine) :
  display_safe s -> wdt_consistent s -> lowBatt s <> BATT_LOWWARN ->
  btn1 i = true -> adc i <= LOWBATT_VAL ->
  exists s',
    loop_body i s = Some s' /\ display_safe s' /\ wdt_consistent s' /\
    rolling s' /\ nextRollChangeDelay s' <= 2 /\ gen s' = gen s.
Proof.
  intros DS WC NW B A.
  destruct (loop_body_safe i s DS) as [s' [L DS']].
  exists s'. split; [exact L | split; [exact DS' | ]].
  destruct (held_step i s s' B L) as (H1 & H2 & H3 & _).
  destruct (loop_body_wdt i s s' WC L) as (m & M & -> & W & WC').
  split; [exact WC' | ].
  destruct (sleep_section_frame i m) as (_ & _ & Z3 & Z4 & _).
  assert (NI : state m <> STATE_IDLE) by (rewrite <- Z3, H1; discriminate).
  destruct (sleep_section_busy i m NI) as [B1 B2].
  split; [ | split; [lia | exact H3]].
  unfold rolling, batt_settled. rewrite B1, B2, Z4.
  destruct DS' as (R' & _). rewrite Z4 in R'. unfold face_ok in R'.
  repeat split; try assumption; try lia.
  unfold main_logic in M.
  change (battery_section ?i (button_section ?i (tick_section ?i ?x)))
    with (front_sections i x) in M.
  assert (FB : batt_settled (front_sections i s)).
  { unfold batt_settled. rewrite front_lowBatt. unfold classify.
    destruct (Z.gtb_spec (adc i) LOWBATT_VAL); [lia | ].
    destruct (lowBatt s); cbn [batt_eqb]; auto; congruence. }
  destruct (front_held i s B) as (F1 & F2 & _ & _ & F5 & _).
  unfold display_section in M. rewrite F1 in M.
  destruct (roll_branch_spec (front_sections i s)) as (d & m' & _ & Hr & _ & Lb & _);
    [lia | rewrite F5; apply DS | ].
  unfold batt_settled in FB.
  destruct FB as [FB | FB]; rewrite FB in M; cbn [batt_eqb] in M;
    rewrite Hr in M; injection M as <-; rewrite Lb, FB; auto.
Qed.

Lemma held_run_rolling (held : list poll) :
  forall s,
    display_safe s -> wdt_consistent s -> lowBatt s <> BATT_LOWWARN ->
    held <> [] ->
    Forall (fun i => btn1 i = true /\ adc i <= LOWBATT_VAL) held ->
    exists s',
      run held s = Some s' /\ rolling s' /\ nextRollChangeDelay s' <= 2 /\
      gen s' = gen s.
Proof.
  induction held as [ | i rest IH]; intros s DS WC NW NE Q; [congruence | ].
  inversion Q as [ | ? ? [Qb Qa] Qr]; subst.
  destruct (held_step_rolling i s DS WC NW Qb Qa) as (s1 & L & DS1 & WC1 & R1 & N1 & G1).
  cbn [run]. rewrite L.
  destruct rest as [ | j rest'].
  - exists s1. cbn [run]. auto.
  - assert (NW1 : lowBatt s1 <> BATT_LOWWARN).
    { destruct R1 as (_ & _ & [B | B] & _); rewrite B; discriminate. }
    destruct (IH s1 DS1 WC1 NW1 ltac:(discriminate) Qr) as (s' & E & R' & N' & G').
    exists s'. split; [exact E | split; [exact R' | split; [exact N' | congruence]]].
Qed.

(** Power-up ends in [main_init], whatever the warm-up. *)
Lemma boot_main_init (samples : list Z) (s : machine) :
  boot samples = Some s -> exists g, s = main_init g.
Proof.
  unfold boot. destruct (warm_up samples 0 rng_seed) as [g | ]; [ | discriminate].
  intros E. injection E as <-. now exists g.
Qed.

Lemma main_init_safe (g : rng) :
  display_safe (main_init g) /\ wdt_consistent (main_init g) /\
  lowBatt (main_init g) <> BATT_LOWWARN.
Proof.
  repeat split; cbn; try lia; try discriminate. constructor.
Qed.

(** C1 (as amended).  The button is read pressed from the first
    iteration on and the battery is good.  While it is held, whatever
    the ticks, the animator stays in STATE_ROLL, the generator is not
    called, and the faces shown do not depend on the state of the
    generator: the sequence displayed is a function of the polls alone.
    The roll completes after the release: with one tick per iteration
    and the button released, the animator is still rolling during the
    first [n - 1] iterations, [n] being at most 47, and in iteration [n]
    it enters STATE_ROLLDONE with the result [(next() mod 6) + 1], which
    is within 1..6 and is the face on display. *)
Theorem roll_completes_after_release (held : list poll) (g : rng) (v : Z) :
  held <> [] ->
  Forall (fun i => btn1 i = true /\ adc i <= LOWBATT_VAL) held ->
  exists (s : machine) (n : nat),
    run held (main_init g) = Some s /\ state s = STATE_ROLL /\ gen s = g /\
    (forall g' : rng,
        exists s2, run held (main_init g') = Some s2 /\
                   shown s2 = shown s /\ PORTB s2 = PORTB s) /\
    (1 <= n <= 47)%nat /\
    forall k : nat, (k <= n)%nat ->
      exists s',
        run (held ++ repeat (tick_poll false v) k) (main_init g) = Some s' /\
        if (k <? n)%nat then state s' = STATE_ROLL /\ gen s' = g
        else state s' = STATE_ROLLDONE /\
             rollResult s' = fst (genRandom g) mod 6 + 1 /\
             1 <= rollResult s' <= 6 /\
             hd 0 (shown s') = rollResult s' /\
             gen s' = snd (genRandom g).
Proof.
  intros NE Q.
  destruct (main_init_safe g) as (DS & WC & NW).
  destruct (held_run_rolling held (main_init g) DS WC NW NE Q)
    as (s & E & R & N & G).
  cbn [gen main_init] in G.
  assert (Qb : Forall (fun i => btn1 i = true) held).
  { eapply Forall_impl; [ | exact Q]. now intros i [H _]. }
  assert (N12 : 1 <= nextRollChangeDelay s <= 2) by (destruct R as (_ & N' & _); lia).
  pose proof (roll_remaining_bounds s N12) as RB.
  exists s, (Z.to_nat (roll_remaining s)).
  split; [exact E | split; [apply R | split; [exact G | split; [ | split; [lia | ]]]]].
  - intros g'.
    pose proof (held_run_gen held g' (main_init g) Qb) as HG.
    change (set_gen g' (main_init g)) with (main_init g') in HG.
    rewrite E in HG. exists (set_gen g' s).
    split; [exact HG | destruct s; split; reflexivity].
  - intros k K.
    destruct (roll_run v (Z.to_nat (roll_remaining s)) s k R ltac:(lia) K)
      as (s' & E' & _ & _ & H).
    exists s'. rewrite run_app, E. split; [exact E' | ].
    destruct (k <? Z.to_nat (roll_remaining s))%nat.
    + destruct H as [(H1 & _) H2]. split; [exact H1 | congruence].
    + destruct H as (H1 & H2 & H3 & H4 & _).
      rewrite G in H2, H3.
      split; [exact H1 | split; [exact H3 | split; [ | split; [exact H4 | exact H2]]]].
      rewrite H3. pose proof (Z.mod_pos_bound (fst (genRandom g)) 6). lia.
Qed.

Lemma roll_completes_after_release_witness :
  exists (s : machine) (n : nat),
    run [tick_poll true 0] (main_init rng_seed) = Some s /\
    state s = STATE_ROLL /\ (1 <= n <= 47)%nat /\
    exists s',
      run ([tick_poll true 0] ++ repeat (tick_poll false 0) n) (main_init rng_seed)
      = Some s' /\ state s' = STATE_ROLLDONE /\ 1 <= rollResult s' <= 6.
Proof.
  destruct (roll_completes_after_release [tick_poll true 0] rng_seed 0)
    as (s & n & E & S & _ & _ & N & H).
  - discriminate.
  - constructor; [split; [reflexivity | intro C; discriminate C] | constructor].
  - exists s, n. split; [exact E | split; [exact S | split; [exact N | ]]].
    destruct (H n (Nat.le_refl n)) as (s' & E' & H').
    rewrite Nat.ltb_irrefl in H'. destruct H' as (H1 & _ & H3 & _).
    exists s'. split; [exact E' | split; [exact H1 | exact H3]].
Defined.

(** C1, the claim as stated fails: with the button held and never
    released (here with a tick in every iteration and a good battery),
    no number of iterations brings the animator to the end of the roll;
    line 176 puts the roll back to its first delay in every iteration. *)
Lemma held_button_never_completes :
  ~ (exists (n : nat) (s' : machine),
        run (repeat (tick_poll true 0) n) (main_init rng_seed) = Some s' /\
        (state s' = STATE_ROLLDONE \/ state s' = STATE_STEADY)).
Proof.
  intros (n & s' & E & H).
  destruct n as [ | n].
  - cbn in E. injection E as <-. cbn in H. destruct H; discriminate.
  - assert (Q : Forall (fun i => btn1 i = true) (repeat (tick_poll true 0) (S n))).
    { apply Forall_forall. intros x Hx. apply repeat_spec in Hx. now subst. }
    destruct (held_run _ _ _ Q ltac:(discriminate) E) as (S & _).
    rewrite S in H. destruct H; discriminate.
Qed.

(** ** Low-battery warning *)

(** With the button read released and no battery check due, the front
    sections leave the variables of the display section alone. *)
Lemma front_released (i : poll) (s : machine) :
  btn1 i = false -> lowBatt s <> BATT_DOCHECK ->
  timer (front_sections i s) = timer s /\
  state (front_sections i s) = state s /\
  lowBatt (front_sections i s) = lowBatt s /\
  rollResult (front_sections i s) = rollResult s /\
  nextRollChangeDelay (front_sections i s) = nextRollChangeDelay s /\
  blinkCount (front_sections i s) = blinkCount s /\
  blinkState (front_sections i s) = blinkState s /\
  gen (front_sections i s) = gen s /\
  PORTB (front_sections i s) = PORTB s /\
  shown (front_sections i s) = shown s.
Proof.
  intros B ND.
  unfold front_sections, battery_section, button_section, tick_section,
    WDT_TIMEDOUT, WDT_INT_RESET, wdt_hw.
  rewrite B.
  destruct s as [a b st lb rr n bp h bc bs g p wde wdie sh]; fields.
  destruct lb; try congruence; fields; repeat inner_case; repeat split.
Qed.





















(** ** Roll animator: settling *)

(** The settling branch, case by case. *)
Lemma rolldone_branch_spec (s : machine) :
  face_ok (rollResult s) -> 0 <= blinkCount s <= 3 ->
  exists s',
    rolldone_branch s = Some s' /\
    now s' = now s /\ lowBatt s' = lowBatt s /\ rollResult s' = rollResult s /\
    if (blinkState s =? 0) || (elapsed (now s) (timer s) >=? blinkState s) then
      timer s' = now s /\
      if blinkState s =? TMR_MS 200 then
        shown s' = 0 :: shown s /\ state s' = state s /\
        blinkCount s' = blinkCount s /\ blinkState s' = TMR_MS 50
      else
        shown s' = rollResult s :: shown s /\
        if blinkCount s =? 3
        then state s' = STATE_STEADY /\ blinkCount s' = 0 /\ blinkState s' = 0
        else state s' = state s /\ blinkCount s' = blinkCount s + 1 /\
             blinkState s' = TMR_MS 200
    else s' = s.
Proof.
  intros R BC. unfold rolldone_branch.
  destruct s as [a b st lb rr n bp h bc bs g p wde wdie sh]; fields.
  destruct ((bs =? 0) || (elapsed a b >=? bs)).
  2: { eexists; repeat split; reflexivity. }
  destruct (Z.eqb_spec bs (TMR_MS 200)) as [-> | N12].
  - dice. eexists; repeat split; reflexivity.
  - dice. rewrite (u8_small (bc + 1)) by lia.
    destruct (Z.eqb_spec bc 3) as [-> | N3].
    + eexists; repeat split; reflexivity.
    + destruct (Z.gtb_spec (bc + 1) 3); [lia | ].
      eexists; repeat split; reflexivity.
Qed.

Lemma batt_settled_cases (s : machine) :
  batt_settled s ->
  lowBatt s <> BATT_DOCHECK /\ batt_eqb (lowBatt s) BATT_LOWWARN = false.
Proof. intros [B | B]; rewrite B; split; (discriminate || reflexivity). Qed.

(** One iteration of the settling blink with the button released. *)
Lemma settle_step (i : poll) (k : nat) (s0 s m : machine) :
  btn1 i = false -> face_ok (rollResult s0) ->
  result_blinking k s0 s -> main_logic i s = Some m ->
  (shown m = shown s \/ blinkState s = 0 \/
   elapsed (now m) (timer s) >= blinkState s) /\
  ((result_blinking k s0 m /\ shown m = shown s) \/
   (result_blinking (S k) s0 m /\ timer m = now m) \/
   (k = 6%nat /\ state m = STATE_STEADY /\
    shown m = settle_trace (rollResult s0) 7 ++ shown s0 /\
    blinkCount m = 0 /\ blinkState m = 0 /\ timer m = now m /\
    rollResult m = rollResult s0 /\ batt_settled m)).
Proof.
  intros B R0 (S & Bt & Rr & Sh & K & BB) M.
  destruct (batt_settled_cases s Bt) as [ND NW].
  destruct (front_released i s B ND)
    as (F1 & F2 & F3 & F4 & F5 & F6 & F7 & F8 & F9 & F10).
  unfold main_logic in M.
  change (battery_section ?i (button_section ?i (tick_section ?i ?x)))
    with (front_sections i x) in M.
  set (f := front_sections i s) in *.
  unfold display_section in M. rewrite F3, NW, F2, S in M.
  destruct (rolldone_branch_spec f) as (m' & W & W1 & W2 & W3 & W4);
    [rewrite F4, Rr; exact R0 | rewrite F6; lia | ].
  rewrite W in M. injection M as <-.
  rewrite F1, F7, F6, F10, F4, F2 in W4. rewrite W1.
  assert (Ev : Nat.even k = negb (blinkState s =? TMR_MS 200)).
  { destruct (Z.eqb_spec (blinkState s) (TMR_MS 200)); cbn [negb].
    - rewrite <- Nat.negb_odd.
      assert (O : Nat.odd k = true)
        by (apply Nat.odd_spec; exists (Z.to_nat (blinkCount s - 1)); lia).
      now rewrite O.
    - apply Nat.even_spec. exists (Z.to_nat (blinkCount s)). lia. }
  assert (Bm : batt_settled m') by (unfold batt_settled; rewrite W2, F3; exact Bt).
  change (TMR_MS 200) with 12 in *. change (TMR_MS 50) with 3 in *.
  destruct ((blinkState s =? 0) || (elapsed (now f) (timer s) >=? blinkState s))
    eqn:Fire.
  - split.
    { apply orb_prop in Fire. destruct Fire as [Fz | Fe].
      - right; left. now apply Z.eqb_eq.
      - right; right. apply Z.geb_le in Fe. lia. }
    destruct W4 as [T W4]. right.
    destruct (Z.eqb_spec (blinkState s) 12) as [B12 | B12].
    + left. destruct W4 as (Sh' & P1 & P2 & P3).
      split; [ | congruence].
      unfold result_blinking;
        change (TMR_MS 200) with 12; change (TMR_MS 50) with 3. rewrite P1, P2, P3, Sh', Sh, W3, F4, S, Rr.
      cbn [settle_trace]. rewrite Ev. cbn [negb].
      change (3 =? 12) with false. cbv iota.
      repeat split; auto; try lia.
    + destruct W4 as [Sh' W4].
      destruct (Z.eqb_spec (blinkCount s) 3) as [C3 | C3].
      * right. destruct W4 as (P1 & P2 & P3).
        assert (k = 6%nat) by lia. subst k.
        repeat split; try assumption; try congruence.
        rewrite Sh', Sh, Rr. reflexivity.
      * left. destruct W4 as (P1 & P2 & P3).
        split; [ | congruence].
        unfold result_blinking;
        change (TMR_MS 200) with 12; change (TMR_MS 50) with 3. rewrite P1, P2, P3, Sh', Sh, W3, F4, S, Rr.
        cbn [settle_trace]. rewrite Ev. cbn [negb].
        change (12 =? 12) with true. cbv iota.
        repeat split; auto; try lia.
  - subst m'. split; [left; exact F10 | ]. left.
    split; [ | exact F10].
    unfold result_blinking;
        change (TMR_MS 200) with 12; change (TMR_MS 50) with 3. rewrite F2, F4, F10, F6, F7.
    repeat split; auto; try apply Bm.
Qed.

Lemma sleep_section_result_blinking (i : poll) (k : nat) (s0 m : machine) :
  result_blinking k s0 m -> result_blinking k s0 (sleep_section i m).
Proof.
  intros (S & Bt & Rr & Sh & K & BB).
  destruct (sleep_section_frame i m)
    as (_ & _ & Z3 & Z4 & _ & _ & Z7 & Z8 & _ & _ & Z11).
  assert (NI : state m <> STATE_IDLE) by (rewrite S; discriminate).
  destruct (sleep_section_busy i m NI) as [B1 _].
  unfold result_blinking, batt_settled. rewrite Z3, Z4, Z7, Z8, Z11, B1.
  repeat split; assumption.
Qed.

Lemma settling_throughout_start (ins : list poll) (s : machine) :
  settling_throughout ins s = true -> state s = STATE_ROLLDONE.
Proof.
  destruct ins; cbn [settling_throughout]; intros H;
    apply andb_prop in H; destruct H as [H _];
    destruct (state s); (reflexivity || discriminate).
Qed.

Lemma settle_run_inv (ins : list poll) :
  forall (k : nat) (s0 s s1 : machine),
    face_ok (rollResult s0) ->
    result_blinking k s0 s -> Forall (fun i => btn1 i = false) ins ->
    settling_throughout ins s = true -> run ins s = Some s1 ->
    exists k1, (k <= k1)%nat /\ result_blinking k1 s0 s1.
Proof.
  induction ins as [ | i rest IH]; intros k s0 s s1 R0 Bl Q W R;
    cbn [run settling_throughout] in *.
  - injection R as <-. now exists k.
  - inversion Q as [ | ? ? Qi Qr]; subst.
    apply andb_prop in W. destruct W as [_ W].
    destruct (loop_body i s) as [s' | ] eqn:L; [ | discriminate].
    unfold loop_body in L.
    destruct (main_logic i s) as [m | ] eqn:M; [ | discriminate].
    injection L as <-.
    pose proof (settling_throughout_start _ _ W) as Sw.
    destruct (settle_step i k s0 s m Qi R0 Bl M) as (_ & [[Bm _] | [[Bm _] | X]]).
    + destruct (IH k s0 _ s1 R0 (sleep_section_result_blinking i k s0 m Bm) Qr W R)
        as (k1 & K1 & B1).
      exists k1. split; [lia | exact B1].
    + destruct (IH (S k) s0 _ s1 R0
                  (sleep_section_result_blinking i (S k) s0 m Bm) Qr W R)
        as (k1 & K1 & B1).
      exists k1. split; [lia | exact B1].
    + destruct X as (_ & Sm & _).
      destruct (sleep_section_frame i m) as (_ & _ & Z3 & _). congruence.
Qed.

Lemma settling_throughout_prefix (p q : list poll) :
  forall s, settling_throughout (p ++ q) s = true ->
            settling_throughout p s = true.
Proof.
  induction p as [ | i p IH]; intros s W; cbn [app settling_throughout] in *.
  - apply settling_throughout_start in W. rewrite W. reflexivity.
  - apply andb_prop in W. destruct W as [W1 W2]. rewrite W1. cbn [andb].
    destruct (loop_body i s) as [s1 | ]; [now apply IH | discriminate].
Qed.

Lemma result_blinking_bound (k : nat) (s0 s : machine) :
  result_blinking k s0 s -> (k <= 6)%nat.
Proof.
  intros (_ & _ & _ & _ & K & BB). revert K.
  change (TMR_MS 200) with 12 in *. change (TMR_MS 50) with 3 in *.
  destruct (Z.eqb_spec (blinkState s) 12); lia.
Qed.

Lemma released_tick_settle (v : Z) (k : nat) (s0 s : machine) :
  face_ok (rollResult s0) -> result_blinking k s0 s -> WDE s = true ->
  exists m,
    main_logic (tick_poll false v) s = Some m /\
    ((settle_remaining s = 1 /\ state m = STATE_STEADY) \/
     (state m = STATE_ROLLDONE /\
      (result_blinking k s0 (sleep_section (tick_poll false v) m) \/
       result_blinking (S k) s0 (sleep_section (tick_poll false v) m)) /\
      WDE (sleep_section (tick_poll false v) m) = true /\
      settle_remaining (sleep_section (tick_poll false v) m)
      = settle_remaining s - 1)).
Proof.
  intros R0 Bl W.
  pose proof Bl as (St & Bt & Rr & Sh & K & BB).
  destruct (batt_settled_cases s Bt) as [ND NW].
  destruct (front_released_tick v s W ND)
    as (F1 & F2 & F3 & F4 & F5 & F6 & F7 & F8 & F9 & F10 & F11 & F12 & F13).
  destruct (rolldone_branch_spec (front_sections (tick_poll false v) s))
    as (m & Wb & W1 & W2 & W3 & W4);
    [rewrite F7, Rr; exact R0 | rewrite F9; lia | ].
  assert (M : main_logic (tick_poll false v) s = Some m).
  { unfold main_logic.
    change (battery_section ?i (button_section ?i (tick_section ?i ?x)))
      with (front_sections i x).
    unfold display_section. rewrite F6, NW, F5, St. exact Wb. }
  exists m. split; [exact M | ].
  destruct (settle_step (tick_poll false v) k s0 s m eq_refl R0 Bl M) as (_ & Cases).
  destruct (sleep_section_frame (tick_poll false v) m)
    as (Z1 & Z2 & _ & _ & _ & _ & Z7 & Z8 & _).
  rewrite F1, F4, F9, F10, F5 in W4.
  unfold settle_remaining. rewrite Z1, Z2, Z7, Z8, W1, F1.
  pose proof (elapsed_range (u8 (now s + 1)) (timer s)) as He.
  change (TMR_MS 200) with 12 in *. change (TMR_MS 50) with 3 in *.
  assert (After : forall k', result_blinking k' s0 m ->
            state m = STATE_ROLLDONE /\
            result_blinking k' s0 (sleep_section (tick_poll false v) m) /\
            WDE (sleep_section (tick_poll false v) m) = true).
  { intros k' Bm. pose proof Bm as (Sm & _).
    split; [exact Sm | split; [now apply sleep_section_result_blinking | ]].
    assert (NI : state m <> STATE_IDLE) by (rewrite Sm; discriminate).
    destruct (sleep_section_busy (tick_poll false v) m NI) as [_ ->].
    now destruct (main_logic_wdt (tick_poll false v) s m (fun _ => W) M). }
  assert (Next : (exists k', result_blinking k' s0 m /\ (k' = k \/ k' = S k)) ->
            state m = STATE_ROLLDONE /\
            (result_blinking k s0 (sleep_section (tick_poll false v) m) \/
             result_blinking (S k) s0 (sleep_section (tick_poll false v) m)) /\
            WDE (sleep_section (tick_poll false v) m) = true).
  { intros (k' & Bm & [-> | ->]); destruct (After _ Bm) as (A1 & A2 & A3); auto. }
  destruct ((blinkState s =? 0) ||
            (elapsed (u8 (now s + 1)) (timer s) >=? blinkState s)) eqn:Fire.
  - destruct W4 as [T W4]. rewrite T.
    assert (E1 : elapsed (u8 (u8 (now s + 1) + 1)) (u8 (now s + 1)) = 1).
    { rewrite elapsed_succ; rewrite elapsed_same; lia. }
    rewrite E1.
    destruct (Z.eqb_spec (blinkState s) 12) as [B12 | B12].
    + right. destruct W4 as (_ & P1 & P2 & P3).
      destruct Cases as [[Bm _] | [[Bm _] | X]];
        [ | | destruct X as (_ & X & _); congruence ].
      * destruct (Next (ex_intro _ k (conj Bm (or_introl eq_refl)))) as (A1 & A2 & A3).
        split; [exact A1 | split; [exact A2 | split; [exact A3 | ]]].
        rewrite P2, P3. change (3 =? 0) with false. change (1 >=? 3) with false.
        change (3 =? 12) with false. cbn [orb]. cbv iota. lia.
      * destruct (Next (ex_intro _ (Datatypes.S k) (conj Bm (or_intror eq_refl))))
          as (A1 & A2 & A3).
        split; [exact A1 | split; [exact A2 | split; [exact A3 | ]]].
        rewrite P2, P3. change (3 =? 0) with false. change (1 >=? 3) with false.
        change (3 =? 12) with false. cbn [orb]. cbv iota. lia.
    + destruct W4 as [_ W4].
      destruct (Z.eqb_spec (blinkCount s) 3) as [C3 | C3].
      * left. destruct W4 as (P1 & _). split; [lia | exact P1].
      * right. destruct W4 as (P1 & P2 & P3).
        destruct Cases as [[Bm _] | [[Bm _] | X]];
          [ | | destruct X as (_ & X & _); congruence ].
        -- destruct (Next (ex_intro _ k (conj Bm (or_introl eq_refl))))
             as (A1 & A2 & A3).
           split; [exact A1 | split; [exact A2 | split; [exact A3 | ]]].
           rewrite P2, P3. change (12 =? 0) with false.
           change (1 >=? 12) with false. change (12 =? 12) with true.
           cbn [orb]. cbv iota. lia.
        -- destruct (Next (ex_intro _ (Datatypes.S k) (conj Bm (or_intror eq_refl))))
             as (A1 & A2 & A3).
           split; [exact A1 | split; [exact A2 | split; [exact A3 | ]]].
           rewrite P2, P3. change (12 =? 0) with false.
           change (1 >=? 12) with false. change (12 =? 12) with true.
           cbn [orb]. cbv iota. lia.
  - right. subst m.
    assert (Bf : result_blinking k s0 (front_sections (tick_poll false v) s)).
    { unfold result_blinking, batt_settled. rewrite F5, F6, F7, F13, F9, F10.
      exact Bl. }
    destruct (Next (ex_intro _ k (conj Bf (or_introl eq_refl)))) as (A1 & A2 & A3).
    split; [exact A1 | split; [exact A2 | split; [exact A3 | ]]].
    rewrite F4, F9, F10.
    apply orb_false_elim in Fire. destruct Fire as [Fz Fe].
    rewrite Fz. cbn [orb].
    destruct (Z.geb_spec (elapsed (u8 (now s + 1)) (timer s)) (blinkState s));
      [discriminate | ].
    assert (Bs : blinkState s = 12 \/ blinkState s = 3).
    { apply Z.eqb_neq in Fz. destruct BB as [[B0 _] | [Bs _]]; [lia | exact Bs]. }
    rewrite (elapsed_succ (u8 (now s + 1)) (timer s)) by lia.
    split_if; lia.
Qed.

(** With a tick per iteration the settling blink lasts
    [settle_remaining] iterations. *)
Lemma settle_run_ends (v : Z) (n : nat) :
  forall (k : nat) (s0 s : machine),
    face_ok (rollResult s0) -> result_blinking k s0 s -> WDE s = true ->
    settle_remaining s = Z.of_nat (S n) ->
    exists s1 m,
      settling_throughout (repeat (tick_poll false v) n) s = true /\
      run (repeat (tick_poll false v) n) s = Some s1 /\
      main_logic (tick_poll false v) s1 = Some m /\ state m = STATE_STEADY.
Proof.
  induction n as [ | n IH]; intros k s0 s R0 Bl W R.
  - destruct (released_tick_settle v k s0 s R0 Bl W) as (m & M & [[_ Sm] | C]).
    + exists s, m. cbn [repeat run settling_throughout].
      destruct Bl as (-> & _). repeat split; auto.
    + exfalso. destruct C as (_ & Bm & _ & R').
      assert (P : 1 <= settle_remaining (sleep_section (tick_poll false v) m)).
      { unfold settle_remaining.
        change (TMR_MS 200) with 12. change (TMR_MS 50) with 3.
        set (x := sleep_section (tick_poll false v) m) in *.
        pose proof (elapsed_range (u8 (now x + 1)) (timer x)) as He.
        assert (BB : 0 <= blinkCount x <= 3).
        { destruct Bm as [Bm | Bm];
            destruct Bm as (_ & _ & _ & _ & _ & [[_ B0] | [_ B1]]); lia. }
        destruct ((blinkState x =? 0)
                  || (elapsed (u8 (now x + 1)) (timer x) >=? blinkState x)) eqn:C.
        - destruct (Z.eqb_spec (blinkState x) 12); lia.
        - apply orb_false_elim in C. destruct C as [_ C].
          destruct (Z.geb_spec (elapsed (u8 (now x + 1)) (timer x)) (blinkState x));
            [discriminate | ].
          destruct (Z.eqb_spec (blinkState x) 12); lia. }
      lia.
  - destruct (released_tick_settle v k s0 s R0 Bl W) as (m & M & [[R1 _] | C]);
      [lia | ].
    destruct C as (Sm & Bm & W' & R').
    assert (R'' : settle_remaining (sleep_section (tick_poll false v) m)
                  = Z.of_nat (S n)) by lia.
    assert (Next : exists s1 m1,
               settling_throughout (repeat (tick_poll false v) n)
                 (sleep_section (tick_poll false v) m) = true /\
               run (repeat (tick_poll false v) n)
                 (sleep_section (tick_poll false v) m) = Some s1 /\
               main_logic (tick_poll false v) s1 = Some m1 /\
               state m1 = STATE_STEADY).
    { destruct Bm as [Bm | Bm]; eapply IH; eauto. }
    destruct Next as (s1 & m1 & N1 & N2 & N3 & N4).
    exists s1, m1. cbn [repeat run settling_throughout].
    unfold loop_body. rewrite M.
    destruct Bl as (-> & _). cbn [state_eqb andb].
    repeat split; assumption.
Qed.

Lemma result_blinking_phase (k : nat) (s0 s : machine) :
  result_blinking k s0 s ->
  (blinkState s = 0 /\ k = 0%nat) \/
  blinkState s = (if Nat.even k then TMR_MS 50 else TMR_MS 200).
Proof.
  intros (_ & _ & _ & _ & K & BB).
  change (TMR_MS 200) with 12 in *. change (TMR_MS 50) with 3 in *.
  destruct BB as [[B0 C0] | [[B12 | B3] C]].
  - left. rewrite B0, C0 in K. cbn in K. split; [exact B0 | lia].
  - right. rewrite B12 in K. change (12 =? 12) with true in K. cbv iota in K.
    rewrite <- Nat.negb_odd.
    assert (O : Nat.odd k = true)
      by (apply Nat.odd_spec; exists (Z.to_nat (blinkCount s - 1)); lia).
    now rewrite O.
  - right. rewrite B3 in K. change (3 =? 12) with false in K. cbv iota in K.
    assert (E : Nat.even k = true)
      by (apply Nat.even_spec; exists (Z.to_nat (blinkCount s)); lia).
    now rewrite E.
Qed.

(** C6 (as amended).  The animator has just entered STATE_ROLLDONE (both
    blink counters at 0) with no battery warning, and the button stays
    released.  The display is then written seven times, the result and
    blank in turn, the result first: the first write comes at once, a
    write after a showing of the result only when [TMR_MS 200]
    (12 ticks) have passed since it, a write after a blank only when
    [TMR_MS 50] (3 ticks) have passed.  The animator leaves
    STATE_ROLLDONE on the seventh write, which is the fourth showing of
    the result: three show phases and three hide phases are complete,
    and STATE_STEADY starts with the fourth showing, the result on
    display and both counters back at 0.  With the watchdog running
    and one tick per iteration this is iteration 46. *)
Theorem settle_blink_sequence (ins : list poll) (last : poll) (s s1 m : machine) :
  state s = STATE_ROLLDONE -> blinkCount s = 0 -> blinkState s = 0 ->
  batt_settled s -> 0 <= rollResult s <= 6 ->
  Forall (fun i => btn1 i = false) ins -> btn1 last = false ->
  settling_throughout ins s = true ->
  run ins s = Some s1 ->
  main_logic last s1 = Some m -> state m <> STATE_ROLLDONE ->
  (state m = STATE_STEADY /\
   shown m = settle_trace (rollResult s) 7 ++ shown s /\
   settle_trace (rollResult s) 7
   = [rollResult s; 0; rollResult s; 0; rollResult s; 0; rollResult s] /\
   rollResult m = rollResult s /\
   blinkCount m = 0 /\ blinkState m = 0 /\ timer m = now m) /\
  (forall (p q : list poll) (i : poll) (a b : machine),
      ins ++ [last] = p ++ i :: q ->
      run p s = Some a -> main_logic i a = Some b ->
      exists k : nat,
        (k <= 6)%nat /\ shown a = settle_trace (rollResult s) k ++ shown s /\
        (shown b = shown a \/
         ((k = 0%nat \/
           elapsed (now b) (timer a)
           >= (if Nat.even k then TMR_MS 50 else TMR_MS 200)) /\
          timer b = now b /\
          shown b = (if Nat.even k then rollResult s else 0) :: shown a))) /\
  (WDE s = true ->
   forall v : Z,
     exists s1' m' : machine,
       settling_throughout (repeat (tick_poll false v) 45) s = true /\
       run (repeat (tick_poll false v) 45) s = Some s1' /\
       main_logic (tick_poll false v) s1' = Some m' /\
       state m' = STATE_STEADY).
Proof.
  intros St BC BS Bt R0 Q Ql W R M NR.
  assert (B0 : result_blinking 0 s s).
  { unfold result_blinking. rewrite St, BC, BS. cbn. repeat split; auto. }
  split; [ | split].
  - destruct (settle_run_inv ins 0 s s s1 R0 B0 Q W R) as (k1 & _ & B1).
    destruct (settle_step last k1 s s1 m Ql R0 B1 M) as (_ & [[Bm _] | [[Bm _] | X]]).
    + destruct Bm as (Sm & _). congruence.
    + destruct Bm as (Sm & _). congruence.
    + destruct X as (_ & X1 & X2 & X3 & X4 & X5 & X6 & _). repeat split; assumption.
  - intros p q i a b E Ra Mb.
    assert (Qa : Forall (fun i => btn1 i = false) (ins ++ [last])).
    { apply Forall_app. split; [exact Q | now constructor]. }
    rewrite E in Qa. apply Forall_app in Qa. destruct Qa as [Qp Qi].
    inversion Qi as [ | ? ? Qi' _]; subst.
    assert (Wp : settling_throughout p s = true).
    { destruct (split_before_last ins p q last i E) as [r ->].
      now apply settling_throughout_prefix in W. }
    destruct (settle_run_inv p 0 s s a R0 B0 Qp Wp Ra) as (k & _ & Ba).
    exists k. split; [now apply (result_blinking_bound k s a) | ].
    split; [apply Ba | ].
    pose proof (result_blinking_phase k s a Ba) as Ph.
    assert (Due : blinkState a = 0 \/ elapsed (now b) (timer a) >= blinkState a ->
                  k = 0%nat \/
                  elapsed (now b) (timer a)
                  >= (if Nat.even k then TMR_MS 50 else TMR_MS 200)).
    { intros [Z0 | Ge].
      - destruct Ph as [[_ K0] | Ph]; [now left | ].
        rewrite Z0 in Ph. destruct (Nat.even k); discriminate Ph.
      - destruct Ph as [[_ K0] | Ph]; [now left | right]. now rewrite <- Ph. }
    destruct (settle_step i k s a b Qi' R0 Ba Mb) as (T & [[_ Sh] | [[Bb Tb] | X]]).
    + left. exact Sh.
    + destruct T as [T | T]; [left; exact T | right].
      split; [exact (Due T) | split; [exact Tb | ]].
      destruct Bb as (_ & _ & _ & Sb & _). destruct Ba as (_ & _ & _ & Sa & _).
      rewrite Sb, Sa. reflexivity.
    + destruct T as [T | T]; [left; exact T | right].
      split; [exact (Due T) | ].
      destruct X as (-> & _ & Sb & _ & _ & Tb & _).
      destruct Ba as (_ & _ & _ & Sa & _).
      split; [exact Tb | ]. rewrite Sb, Sa. reflexivity.
  - intros We v.
    assert (Rem : settle_remaining s = Z.of_nat 46).
    { unfold settle_remaining. rewrite BC, BS. reflexivity. }
    exact (settle_run_ends v 45 0 s s R0 B0 We Rem).
Qed.

Lemma settle_blink_sequence_witness :
  state steady_entry = STATE_STEADY /\
  shown steady_entry = [6; 0; 6; 0; 6; 0; 6] ++ shown roll_done.
Proof.
  destruct (settle_blink_sequence (repeat (tick_poll false 0) 45)
              (tick_poll false 0) roll_done settle_last steady_entry)
    as ((H1 & H2 & _) & _).
  - reflexivity.
  - reflexivity.
  - reflexivity.
  - left. reflexivity.
  - vm_compute. split; intro C; discriminate C.
  - repeat constructor.
  - reflexivity.
  - vm_compute. reflexivity.
  - vm_compute. reflexivity.
  - vm_compute. reflexivity.
  - intro C. vm_compute in C. discriminate C.
  - split; [exact H1 | rewrite H2; reflexivity].
Defined.

(** C6, the claim as stated fails: in the roll of [roll_done] the
    result, 6, is first shown by the settling branch in the iteration
    after the draw, and STATE_STEADY is entered 45 ticks later, on the
    fourth showing.
    Four show phases of [TMR_MS 200] ticks each do not fit into 45
    ticks: only three of them, and three hide phases, are complete
    when the animator turns to STATE_STEADY. *)
Lemma steady_on_fourth_show :
  exists s1 s45 s46 : machine,
    run [tick_poll false 0] roll_done = Some s1 /\
    shown s1 = 6 :: shown roll_done /\
    run (repeat (tick_poll false 0) 45) roll_done = Some s45 /\
    state s45 = STATE_ROLLDONE /\
    shown s45 = [0; 6; 0; 6; 0; 6] ++ shown roll_done /\
    run (repeat (tick_poll false 0) 46) roll_done = Some s46 /\
    state s46 = STATE_STEADY /\
    shown s46 = [6; 0; 6; 0; 6; 0; 6] ++ shown roll_done /\
    elapsed (now s46) (now s1) = 45 /\
    45 < 4 * TMR_MS 200.
Proof.
  eexists. eexists. eexists.
  split; [vm_compute; reflexivity | ].
  split; [reflexivity | ].
  split; [vm_compute; reflexivity | ].
  split; [reflexivity | split; [reflexivity | ]].
  split; [vm_compute; reflexivity | ].
  split; [reflexivity | split; [reflexivity | split; reflexivity]].
Qed.

(** ** Random generator: linear structure *)

Lemma u8_land (v : Z) : u8 v = Z.land v 255.
Proof. unfold u8. change 255 with (Z.ones 8). now rewrite Z.land_ones by lia. Qed.

Lemma u8_lxor (a b : Z) : u8 (Z.lxor a b) = Z.lxor (u8 a) (u8 b).
Proof.
  rewrite !u8_land. apply Z.bits_inj'. intros n Hn.
  rewrite Z.lxor_spec, !Z.land_spec, Z.lxor_spec.
  destruct (Z.testbit a n), (Z.testbit b n), (Z.testbit 255 n); reflexivity.
Qed.

Lemma rng_step_linear : linear rng_step.
Proof.
  split; [reflexivity | split].
  - intros g h. unfold rng_step, rng_xor. cbn [rx ry rz ra].
    f_equal.
    repeat (rewrite u8_lxor || rewrite Z.shiftl_lxor || rewrite Z.shiftr_lxor).
    apply Z.bits_inj'. intros n Hn. rewrite !Z.lxor_spec.
    repeat match goal with
           | |- context [Z.testbit ?v n] => destruct (Z.testbit v n)
           end; reflexivity.
  - intros g (Hx & Hy & Hz & Ha). unfold rng_step, rng_bytes. cbn [rx ry rz ra].
    repeat split; try lia; apply u8_range.
Qed.

Lemma rng_xor_zero_r (g : rng) : rng_xor g rng_zero = g.
Proof. destruct g; unfold rng_xor; cbn. now rewrite !Z.lxor_0_r. Qed.

Lemma byte_bits_eq (v : Z) : 0 <= v < 256 -> byte_bits v = v.
Proof.
  intros H.
  assert (A : forallb (fun n => byte_bits (Z.of_nat n) =? Z.of_nat n)
                (seq 0 256) = true) by (vm_compute; reflexivity).
  rewrite forallb_forall in A.
  specialize (A (Z.to_nat v)). rewrite Z2Nat.id in A by lia.
  apply Z.eqb_eq, A, in_seq. lia.
Qed.

Section Sums.

(** An additive map from bytes to generator states. *)
Variable h : Z -> rng.
Hypothesis h_zero : h 0 = rng_zero.
Hypothesis h_xor : forall u w, h (Z.lxor u w) = rng_xor (h u) (h w).

Lemma additive_bits (v : Z) (l : list Z) :
  h (fold_right Z.lxor 0
       (map (fun b => if Z.testbit v b then Z.shiftl 1 b else 0) l))
  = xor_all (map (fun b => if Z.testbit v b then h (Z.shiftl 1 b)
                           else rng_zero) l).
Proof.
  induction l as [ | b l IH]; cbn [map fold_right xor_all].
  - exact h_zero.
  - rewrite h_xor. unfold xor_all in IH. rewrite IH.
    destruct (Z.testbit v b); [reflexivity | now rewrite h_zero].
Qed.

Lemma additive_byte (v : Z) :
  0 <= v < 256 ->
  byte_sum (map (fun b => h (Z.shiftl 1 b)) bits8) v = h v.
Proof.
  intros Hv. rewrite <- (byte_bits_eq v Hv) at 2.
  unfold byte_bits. rewrite additive_bits. reflexivity.
Qed.

End Sums.

Lemma embed_zero (j : nat) : embed j 0 = rng_zero.
Proof. destruct j as [ | [ | [ | j]]]; reflexivity. Qed.

Lemma embed_xor (j : nat) (u w : Z) :
  embed j (Z.lxor u w) = rng_xor (embed j u) (embed j w).
Proof. destruct j as [ | [ | [ | j]]]; reflexivity. Qed.

Lemma embed_bytes (j : nat) (v : Z) : 0 <= v < 256 -> rng_bytes (embed j v).
Proof.
  intros H. destruct j as [ | [ | [ | j]]]; unfold rng_bytes; cbn; lia.
Qed.

Lemma sum_of_vars (g : rng) :
  xor_all (map (fun j => embed j (byte_of j g)) vars4) = g.
Proof.
  destruct g as [x y z a]. unfold xor_all, rng_xor. cbn.
  now rewrite !Z.lxor_0_r.
Qed.

Lemma linear_xor_all (f : rng -> rng) (l : list rng) :
  linear f -> f (xor_all l) = xor_all (map f l).
Proof.
  intros (F0 & Fx & _). induction l as [ | g l IH]; cbn [map xor_all fold_right].
  - exact F0.
  - rewrite Fx. unfold xor_all in IH. now rewrite IH.
Qed.

(** The columns of a linear map give the map back. *)
Lemma apply_columns (f : rng -> rng) (g : rng) :
  linear f -> rng_bytes g -> apply_cols (columns f) g = f g.
Proof.
  intros L (Hx & Hy & Hz & Ha).
  rewrite <- (sum_of_vars g) at 2.
  rewrite (linear_xor_all f _ L).
  destruct L as (F0 & Fx & _).
  unfold apply_cols, columns, vars4.
  cbn [map combine fst snd byte_of].
  rewrite !(additive_byte (fun v => f (embed _ v))); try assumption;
    try (intros; rewrite embed_xor; apply Fx);
    try (rewrite embed_zero; exact F0).
  reflexivity.
Qed.

Lemma linear_compose (f h : rng -> rng) :
  linear f -> linear h -> linear (fun g => f (h g)).
Proof.
  intros (F0 & Fx & Fb) (H0 & Hx & Hb). repeat split.
  - now rewrite H0.
  - intros g k. now rewrite Hx, Fx.
  - destruct (Fb (h g) (Hb g H)) as (A & _). apply A.
  - destruct (Fb (h g) (Hb g H)) as (A & _). apply A.
  - destruct (Fb (h g) (Hb g H)) as (_ & A & _). apply A.
  - destruct (Fb (h g) (Hb g H)) as (_ & A & _). apply A.
  - destruct (Fb (h g) (Hb g H)) as (_ & _ & A & _). apply A.
  - destruct (Fb (h g) (Hb g H)) as (_ & _ & A & _). apply A.
  - destruct (Fb (h g) (Hb g H)) as (_ & _ & _ & A). apply A.
  - destruct (Fb (h g) (Hb g H)) as (_ & _ & _ & A). apply A.
Qed.

Lemma columns_compose (f h : rng -> rng) :
  linear f -> linear h ->
  compose_cols (columns f) (columns h) = columns (fun g => f (h g)).
Proof.
  intros Lf Lh. unfold compose_cols, columns.
  rewrite map_map. apply map_ext_in. intros j Hj.
  rewrite map_map. apply map_ext_in. intros b Hb.
  apply apply_columns; [exact Lf | ].
  destruct Lh as (_ & _ & Hbytes). apply Hbytes, embed_bytes.
  unfold bits8 in Hb. cbn in Hb.
  repeat (destruct Hb as [<- | Hb]; [cbv; split; [discriminate | reflexivity] | ]).
  contradiction.
Qed.

Lemma columns_ext (f h : rng -> rng) :
  (forall g, f g = h g) -> columns f = columns h.
Proof.
  intros E. unfold columns.
  apply map_ext. intros j. apply map_ext. intros b. apply E.
Qed.

Lemma linear_iter (p : positive) : linear (fun g => Pos.iter rng_step g p).
Proof.
  induction p as [p IH | p IH | ]; cbn [Pos.iter].
  - apply (linear_compose rng_step _ rng_step_linear).
    apply (linear_compose _ _ IH IH).
  - apply (linear_compose _ _ IH IH).
  - exact rng_step_linear.
Qed.

Lemma power_columns (p : positive) :
  power_cols (columns rng_step) p = columns (fun g => Pos.iter rng_step g p).
Proof.
  induction p as [p IH | p IH | ]; cbn [power_cols Pos.iter].
  - rewrite IH.
    rewrite (columns_compose _ _ (linear_iter p) (linear_iter p)).
    rewrite (columns_compose rng_step _ rng_step_linear
               (linear_compose _ _ (linear_iter p) (linear_iter p))).
    reflexivity.
  - rewrite IH.
    now rewrite (columns_compose _ _ (linear_iter p) (linear_iter p)).
  - apply columns_ext. reflexivity.
Qed.

(** The state after [p] calls, by 32 squarings at most. *)
Lemma rng_iter_fast (p : positive) (g : rng) :
  rng_bytes g ->
  rng_iter (Npos p) g = apply_cols (power_cols (columns rng_step) p) g.
Proof.
  intros H. rewrite power_columns.
  now rewrite (apply_columns _ g (linear_iter p) H).
Qed.

Lemma rng_seed_bytes : rng_bytes rng_seed.
Proof. unfold rng_bytes; cbn; lia. Qed.

(** ** Random generator: the period of the seed *)

Section Period.

Local Open Scope N_scope.

Lemma rng_iter_add (n m : N) (g : rng) :
  rng_iter (n + m) g = rng_iter n (rng_iter m g).
Proof. unfold rng_iter. apply N.iter_add. Qed.

Lemma returns_add (n m : N) : returns n -> returns m -> returns (n + m).
Proof. unfold returns. intros Hn Hm. now rewrite rng_iter_add, Hm. Qed.

Lemma returns_sub (n m : N) : returns (n + m) -> returns m -> returns n.
Proof. unfold returns. intros Hs Hm. now rewrite rng_iter_add, Hm in Hs. Qed.

Lemma returns_mul (k m : N) : returns m -> returns (k * m).
Proof.
  intros Hm. induction k as [ | k IH] using N.peano_ind.
  - reflexivity.
  - rewrite N.mul_succ_l. now apply returns_add.
Qed.

Lemma returns_mod (a b : N) : returns a -> returns b -> returns (a mod b).
Proof.
  intros Ha Hb.
  apply (returns_sub (a mod b) (b * (a / b))).
  - rewrite N.add_comm, <- N.Div0.div_mod. exact Ha.
  - rewrite N.mul_comm. now apply returns_mul.
Qed.

Lemma returns_gcd (b : N) :
  forall a, returns a -> returns b -> returns (N.gcd a b).
Proof.
  induction b as [b IH] using (well_founded_induction N.lt_wf_0).
  intros a Ha Hb.
  destruct (N.eq_dec b 0) as [-> | Nz].
  - now rewrite N.gcd_0_r.
  - rewrite N.gcd_comm, <- (N.Lcm0.gcd_mod a b), N.gcd_comm.
    apply IH.
    + now apply N.mod_lt.
    + exact Hb.
    + now apply returns_mod.
Qed.

Lemma divisors_of_prime (q d : N) :
  no_proper_divisor q = true -> q <> 0 -> (d | q) -> d = 1 \/ d = q.
Proof.
  intros T Q D.
  assert (Dz : d <> 0).
  { intros ->. destruct D as [k E]. rewrite N.mul_0_r in E. contradiction. }
  assert (Le : d <= q) by (apply N.divide_pos_le; [lia | exact D]).
  destruct (N.eq_dec d 1) as [-> | D1]; [now left | ].
  destruct (N.eq_dec d q) as [-> | Dq]; [now right | ].
  exfalso. unfold no_proper_divisor in T. rewrite forallb_forall in T.
  specialize (T (N.to_nat d)). rewrite N2Nat.id in T.
  assert (I : In (N.to_nat d) (seq 2 (N.to_nat q - 2))) by (apply in_seq; lia).
  apply T in I. apply negb_true_iff, N.eqb_neq in I.
  apply I, N.Lcm0.mod_divide; assumption.
Qed.

(** A divisor of [q * c], [q] prime, is a multiple of [q] or divides [c]. *)
Lemma divisor_split (q c g : N) :
  no_proper_divisor q = true -> q <> 0 -> (g | q * c) -> (q | g) \/ (g | c).
Proof.
  intros T Q D.
  destruct (divisors_of_prime q (N.gcd g q) T Q (N.gcd_divide_r g q)) as [E | E].
  - right. now apply (N.gauss g q c).
  - left. rewrite <- E. apply N.gcd_divide_l.
Qed.

Lemma period_divisors (g : N) :
  (g | rng_period) ->
  g = rng_period \/ (g | rng_period / 31) \/ (g | rng_period / 127) \/
  (g | rng_period / 601) \/ (g | rng_period / 1801).
Proof.
  intros D.
  destruct (divisor_split 31 (rng_period / 31) g) as [D31 | ?];
    [vm_compute; reflexivity | discriminate | exact D | | tauto].
  destruct (divisor_split 127 (rng_period / 127) g) as [D127 | ?];
    [vm_compute; reflexivity | discriminate | exact D | | tauto].
  destruct (divisor_split 601 (rng_period / 601) g) as [D601 | ?];
    [vm_compute; reflexivity | discriminate | exact D | | tauto].
  destruct (divisor_split 1801 (rng_period / 1801) g) as [D1801 | ?];
    [vm_compute; reflexivity | discriminate | exact D | | tauto].
  left. apply N.divide_antisym; [exact D | ].
  change rng_period with (N.lcm (N.lcm (N.lcm 31 127) 601) 1801).
  repeat apply N.lcm_least; assumption.
Qed.

Lemma returns_period : returns rng_period.
Proof.
  unfold returns, rng_period.
  rewrite (rng_iter_fast _ _ rng_seed_bytes). vm_compute. reflexivity.
Qed.

Lemma not_returns_before :
  ~ returns (rng_period / 31) /\ ~ returns (rng_period / 127) /\
  ~ returns (rng_period / 601) /\ ~ returns (rng_period / 1801).
Proof.
  unfold returns.
  repeat split; intros E;
    match type of E with
    | rng_iter ?n _ = _ =>
        let v := eval vm_compute in n in change n with v in E
    end;
    rewrite (rng_iter_fast _ _ rng_seed_bytes) in E;
    vm_compute in E; discriminate E.
Qed.

Lemma rng_iter_zero (n : N) : rng_iter n rng_zero = rng_zero.
Proof.
  unfold rng_iter. induction n as [ | n IH] using N.peano_ind.
  - reflexivity.
  - rewrite N.iter_succ, IH. reflexivity.
Qed.

(** The [k]-th value returned is the variable [a] after [k] calls. *)
Lemma rng_outputs_iter (n : nat) :
  forall g : rng,
    rng_outputs n g
    = map (fun k => ra (rng_iter (N.of_nat (S k)) g)) (seq 0 n).
Proof.
  induction n as [ | n IH]; intros g.
  - reflexivity.
  - cbn [rng_outputs genRandom]. rewrite IH.
    cbn [seq map]. rewrite <- seq_shift, map_map.
    f_equal. apply map_ext. intros k.
    replace (N.of_nat (S (S k))) with (N.of_nat (S k) + 1) by lia.
    now rewrite rng_iter_add.
Qed.

Lemma returns_iff_multiple (n : N) : returns n <-> (rng_period | n).
Proof.
  split.
  - intros Hn.
    pose proof (returns_gcd rng_period n Hn returns_period) as Hg.
    destruct not_returns_before as (N31 & N127 & N601 & N1801).
    destruct (period_divisors _ (N.gcd_divide_r n rng_period))
      as [E | [D | [D | [D | D]]]].
    + rewrite <- E. apply N.gcd_divide_l.
    + exfalso. apply N31. destruct D as [k ->]. now apply returns_mul.
    + exfalso. apply N127. destruct D as [k ->]. now apply returns_mul.
    + exfalso. apply N601. destruct D as [k ->]. now apply returns_mul.
    + exfalso. apply N1801. destruct D as [k ->]. now apply returns_mul.
  - intros [k ->]. apply returns_mul, returns_period.
Qed.

Lemma never_zero (n : N) : rng_iter n rng_seed <> rng_zero.
Proof.
  intros E.
  assert (R : returns (rng_period * (n + 1))).
  { rewrite N.mul_comm. apply returns_mul, returns_period. }
  unfold returns in R.
  replace (rng_period * (n + 1)) with ((rng_period * (n + 1) - n) + n) in R
    by (unfold rng_period; lia).
  rewrite rng_iter_add, E, rng_iter_zero in R. discriminate R.
Qed.

(** C3 (as amended).  From the cold-start state [(0, 0, 0, 86)] one call
    of the generator computes [t = x ^ (x << 4)], shifts [y], [z], [a]
    down into [x], [y], [z], and stores and returns
    [a = z ^ t ^ (z >> 1) ^ (t << 1)] (each assignment truncated to 8
    bits).  The outputs are a function of the number of calls (the
    first eight from the seed are 125, 67, 98, 9, 250, 18, 221, 24).
    The state is back at the seed after [n] calls exactly when [n] is a
    multiple of 4261412737 = 31 * 127 * 601 * 1801: this is the period
    of the state sequence, rather than 2^32 - 1.  The state with four
    zero bytes is never reached. *)
Theorem genRandom_sequence :
  (forall g : rng, genRandom g = (ra (rng_step g), rng_step g)) /\
  (forall x y z a : Z,
      rng_step (mkRng x y z a)
      = mkRng y z a
          (u8 (Z.lxor (Z.lxor (Z.lxor a (u8 (Z.lxor x (Z.shiftl x 4))))
                         (Z.shiftr a 1))
                 (Z.shiftl (u8 (Z.lxor x (Z.shiftl x 4))) 1)))) /\
  rng_seed = mkRng 0 0 0 86 /\
  (forall (n : nat) (g : rng),
      rng_outputs n g
      = map (fun k => ra (rng_iter (N.of_nat (S k)) g)) (seq 0 n)) /\
  rng_outputs 8 rng_seed = [125; 67; 98; 9; 250; 18; 221; 24]%Z /\
  rng_period = 4261412737 /\ rng_period = 31 * 127 * 601 * 1801 /\
  rng_period < 2 ^ 32 - 1 /\
  (forall n : N, rng_iter n rng_seed = rng_seed <-> (rng_period | n)) /\
  (forall n : N, rng_iter n rng_seed <> rng_zero).
Proof.
  split; [reflexivity | split; [reflexivity | split; [reflexivity | ]]].
  split; [intros n g; apply rng_outputs_iter | ].
  split; [vm_compute; reflexivity | ].
  split; [reflexivity | split; [reflexivity | split; [reflexivity | ]]].
  split; [exact returns_iff_multiple | exact never_zero].
Qed.

(** C3, the claim as stated fails: after [2^32 - 1] calls the generator
    is not back in its cold-start state, so [2^32 - 1] is not a period
    of the state sequence. *)
Lemma period_is_not_2_32_minus_1 :
  rng_iter (2 ^ 32 - 1) rng_seed <> rng_seed /\
  rng_iter (2 ^ 32 - 1) rng_seed = mkRng 11 172 120 5.
Proof.
  change (2 ^ 32 - 1) with 4294967295.
  rewrite (rng_iter_fast _ _ rng_seed_bytes).
  split; [intro E; vm_compute in E; discriminate E | vm_compute; reflexivity].
Qed.

End Period.

(** ** Timing macro *)

(** X1.  The [+ 0.5] of [TMR_MS] rounds nothing: the division by 16 is
    an integer division and has truncated already, so for every duration
    below 4096 ms the macro is the number of whole 16 ms ticks in it
    (200 ms are 12 ticks, not 13). *)
Theorem TMR_MS_truncates (ms : Z) :
  0 <= ms < 4096 ->
  TMR_MS ms = ms / 16 /\ 16 * TMR_MS ms <= ms < 16 * TMR_MS ms + 16.
Proof.
  intros H. unfold TMR_MS, u8.
  rewrite (Z.quot_div_nonneg ms 16) by lia.
  assert (Q : 0 <= ms / 16) by (apply Z.div_pos; lia).
  rewrite (Z.quot_div_nonneg (2 * (ms / 16) + 1) 2) by lia.
  assert (E : (2 * (ms / 16) + 1) / 2 = ms / 16).
  { symmetry. apply (Z.div_unique _ 2 _ 1); lia. }
  rewrite E.
  assert (B : ms / 16 < 256) by (apply Z.div_lt_upper_bound; lia).
  rewrite Z.mod_small by lia.
  split; [reflexivity | ].
  pose proof (Z.mul_div_le ms 16 ltac:(lia)).
  pose proof (Z.mul_succ_div_gt ms 16 ltac:(lia)). lia.
Qed.

Lemma TMR_MS_truncates_witness :
  TMR_MS 200 = 12 /\ 16 * TMR_MS 200 <= 200 < 16 * TMR_MS 200 + 16.
Proof.
  destruct (TMR_MS_truncates 200) as [H1 H2]; [lia | ].
  split; [rewrite H1; reflexivity | exact H2].
Defined.

(** ** Display driver: patterns *)

(** Every pattern of the table lies within the LED lines. *)
Lemma portVals_in_mask (val pv : Z) :
  index portVals val = Some pv -> Z.land pv LED_MASK = pv /\ 0 <= val <= 6.
Proof.
  intros Hi.
  destruct (Z_le_dec 0 val) as [H0 | H0]; [destruct (Z_le_dec val 6) as [H6 | H6] | ];
    try (rewrite index_portVals_none in Hi by lia; discriminate).
  split; [ | lia].
  assert (C : val = 0 \/ val = 1 \/ val = 2 \/ val = 3 \/ val = 4 \/ val = 5 \/ val = 6) by lia.
  repeat (destruct C as [C | C]; [subst val; injection Hi as <-; reflexivity | ]).
  subst val; injection Hi as <-; reflexivity.
Qed.

(** No two faces share a pattern. *)
Lemma portVals_injective (a b pv : Z) :
  index portVals a = Some pv -> index portVals b = Some pv -> a = b.
Proof.
  intros Ha Hb.
  destruct (portVals_in_mask _ _ Ha) as [_ Ra].
  destruct (portVals_in_mask _ _ Hb) as [_ Rb].
  assert (Ca : a = 0 \/ a = 1 \/ a = 2 \/ a = 3 \/ a = 4 \/ a = 5 \/ a = 6) by lia.
  assert (Cb : b = 0 \/ b = 1 \/ b = 2 \/ b = 3 \/ b = 4 \/ b = 5 \/ b = 6) by lia.
  rewrite <- Hb in Ha. clear Hb.
  repeat (destruct Ca as [Ca | Ca]; [subst a | ]); try subst a;
    repeat (destruct Cb as [Cb | Cb]; [subst b | ]); try subst b;
    (reflexivity || (exfalso; vm_compute in Ha; discriminate Ha)).
Qed.

(** The LED lines of [PORTB] after [diceSet] carry the pattern. *)
Lemma diceSet_port_pattern (val portb pv p : Z) :
  0 <= portb < 256 -> index portVals val = Some pv ->
  diceSet_port val portb = Some p -> Z.land p LED_MASK = pv.
Proof.
  intros Hp Hi E.
  destruct (diceSet_port_bits val portb pv Hp Hi) as [p' [E' B]].
  assert (p' = p) by congruence. subst p'.
  destruct (portVals_in_mask _ _ Hi) as [M _].
  apply Z.bits_inj'. intros n Hn.
  rewrite Z.land_spec, B.
  assert (Mn := f_equal (fun v => Z.testbit v n) M). cbv beta in Mn.
  rewrite Z.land_spec in Mn.
  destruct (Z.testbit LED_MASK n), (Z.testbit pv n); cbn in *;
    try reflexivity; try discriminate; now rewrite andb_false_r.
Qed.

(** X2.  The face can be read back from the port: after [diceSet] with a
    face 0..6 the four LED lines of [PORTB] are exactly the face's entry
    of [portVals], and two faces leave the same port value only if they
    are the same face. *)
Theorem display_round_trip (a b : Z) (s : machine) :
  0 <= a <= 6 -> 0 <= b <= 6 -> 0 <= PORTB s < 256 ->
  exists (sa sb : machine) (pa : Z),
    diceSet a s = Some sa /\ diceSet b s = Some sb /\
    index portVals a = Some pa /\
    Z.land (PORTB sa) LED_MASK = pa /\
    (PORTB sa = PORTB sb <-> a = b).
Proof.
  intros Ha Hb Hp.
  destruct (index_portVals a Ha) as [pa [Ia _]].
  destruct (index_portVals b Hb) as [pb [Ib _]].
  destruct (diceSet_port_bits a (PORTB s) pa Hp Ia) as [qa [Ea _]].
  destruct (diceSet_port_bits b (PORTB s) pb Hp Ib) as [qb [Eb _]].
  pose proof (diceSet_port_pattern a (PORTB s) pa qa Hp Ia Ea) as Pa.
  pose proof (diceSet_port_pattern b (PORTB s) pb qb Hp Ib Eb) as Pb.
  unfold diceSet. rewrite Ea, Eb.
  eexists. eexists. exists pa.
  split; [reflexivity | split; [reflexivity | split; [exact Ia | ]]].
  assert (Qa : PORTB (set_shown (a :: shown s) (set_PORTB qa s)) = qa)
    by (destruct s; reflexivity).
  assert (Qb : PORTB (set_shown (b :: shown s) (set_PORTB qb s)) = qb)
    by (destruct s; reflexivity).
  rewrite Qa, Qb. split; [exact Pa | split].
  - intros E. apply (portVals_injective a b pa Ia). congruence.
  - intros ->. congruence.
Qed.

Lemma display_round_trip_witness :
  exists (sa sb : machine) (pa : Z),
    diceSet 3 (main_init rng_seed) = Some sa /\
    diceSet 5 (main_init rng_seed) = Some sb /\
    index portVals 3 = Some pa /\
    Z.land (PORTB sa) LED_MASK = pa /\
    (PORTB sa = PORTB sb <-> 3 = 5).
Proof.
  apply (display_round_trip 3 5 (main_init rng_seed)); cbn; lia.
Defined.

(** X3.  A second [diceSet] replaces the pattern of the first: the port
    after [diceSet(a); diceSet(b)] is the port after [diceSet(b)] alone,
    no LED of [a] staying lit. *)
Theorem diceSet_last_write_wins (a b : Z) (s : machine) :
  0 <= a <= 6 -> 0 <= b <= 6 -> 0 <= PORTB s < 256 ->
  exists sa sab sb : machine,
    diceSet a s = Some sa /\ diceSet b sa = Some sab /\
    diceSet b s = Some sb /\
    PORTB sab = PORTB sb /\ shown sab = b :: a :: shown s.
Proof.
  intros Ha Hb Hp.
  destruct (index_portVals a Ha) as [pa [Ia _]].
  destruct (index_portVals b Hb) as [pb [Ib _]].
  destruct (diceSet_port_bits a (PORTB s) pa Hp Ia) as [qa [Ea Ba]].
  assert (Rqa : 0 <= qa < 256).
  { unfold diceSet_port in Ea. rewrite Ia in Ea. injection Ea as <-. apply u8_range. }
  destruct (diceSet_port_bits b qa pb Rqa Ib) as [qab [Eab Bab]].
  destruct (diceSet_port_bits b (PORTB s) pb Hp Ib) as [qb [Eb Bb]].
  assert (Qa : PORTB (set_shown (a :: shown s) (set_PORTB qa s)) = qa)
    by (destruct s; reflexivity).
  exists (set_shown (a :: shown s) (set_PORTB qa s)).
  exists (set_shown (b :: a :: shown s) (set_PORTB qab s)).
  exists (set_shown (b :: shown s) (set_PORTB qb s)).
  unfold diceSet. rewrite Qa, Ea, Eab, Eb.
  split; [reflexivity | split; [destruct s; reflexivity | split; [reflexivity | ]]].
  split; [ | destruct s; reflexivity].
  replace (PORTB (set_shown (b :: a :: shown s) (set_PORTB qab s))) with qab
    by (destruct s; reflexivity).
  replace (PORTB (set_shown (b :: shown s) (set_PORTB qb s))) with qb
    by (destruct s; reflexivity).
  apply Z.bits_inj'. intros n Hn. rewrite Bab, Bb, Ba.
  now destruct (Z.testbit LED_MASK n).
Qed.

Lemma diceSet_last_write_wins_witness :
  exists sa sab sb : machine,
    diceSet 6 (main_init rng_seed) = Some sa /\ diceSet 0 sa = Some sab /\
    diceSet 0 (main_init rng_seed) = Some sb /\
    PORTB sab = PORTB sb /\ shown sab = 0 :: 6 :: shown (main_init rng_seed).
Proof.
  apply (diceSet_last_write_wins 6 0 (main_init rng_seed)); cbn; lia.
Defined.

(** ** Start-up: the warm-up of the generator *)

Lemma rng_iter_succ_step (n : N) (g : rng) :
  rng_iter (n + 1) g = rng_iter n (rng_step g).
Proof. now rewrite rng_iter_add. Qed.

Lemma warm_up_from (samples : list Z) :
  forall (i : Z) (g : rng),
    0 <= i <= 255 ->
    (Z.of_nat (length samples) >= 256 - i) ->
    Forall (fun v => 0 <= v < 256) samples ->
    exists n : nat,
      Z.of_nat n <= 255 - i /\
      warm_up samples i g = Some (rng_iter (N.of_nat n) g) /\
      nth n samples 0 <= i + Z.of_nat n /\
      (forall k : nat, (k < n)%nat -> i + Z.of_nat k < nth k samples 0).
Proof.
  induction samples as [ | v rest IH]; intros i g Hi Len All.
  - cbn [length] in Len. lia.
  - inversion All as [ | ? ? Hv Hrest]; subst.
    cbn [warm_up].
    destruct (Z.ltb_spec i v) as [Lt | Ge].
    + rewrite u8_small by lia.
      destruct (IH (i + 1) (rng_step g)) as (n & N1 & N2 & N3 & N4);
        [lia | cbn [length] in Len; lia | exact Hrest | ].
      exists (S n). split; [lia | split; [ | split]].
      * rewrite N2. f_equal.
        replace (N.of_nat (S n)) with (N.of_nat n + 1)%N by lia.
        now rewrite rng_iter_succ_step.
      * cbn [nth]. lia.
      * intros k K. destruct k as [ | k]; cbn [nth]; [lia | ].
        specialize (N4 k ltac:(lia)). lia.
    + exists 0%nat. split; [lia | split; [reflexivity | split]].
      * cbn [nth]. lia.
      * intros k K. lia.
Qed.

(** X4.  The warm-up loop of lines 133-134 ends, whatever the battery
    samples (bytes, one read per test): the counter is a [uint8_t] and
    the loop stops at the first test [i < battLevel()] that fails, after
    at most 255 calls of [genRandom], the generator having been stepped
    once for every test that passed. *)
Theorem warm_up_bounded (samples : list Z) (g : rng) :
  (256 <= length samples)%nat ->
  Forall (fun v => 0 <= v < 256) samples ->
  exists n : nat,
    (n <= 255)%nat /\
    warm_up samples 0 g = Some (rng_iter (N.of_nat n) g) /\
    nth n samples 0 <= Z.of_nat n /\
    (forall k : nat, (k < n)%nat -> Z.of_nat k < nth k samples 0).
Proof.
  intros Len All.
  destruct (warm_up_from samples 0 g) as (n & N1 & N2 & N3 & N4);
    [lia | lia | exact All | ].
  exists n. split; [lia | split; [exact N2 | split; [lia | ]]].
  intros k K. specialize (N4 k K). lia.
Qed.

Lemma warm_up_bounded_witness :
  exists n : nat,
    (n <= 255)%nat /\
    warm_up (repeat 100 256) 0 rng_seed = Some (rng_iter (N.of_nat n) rng_seed) /\
    nth n (repeat 100 256) 0 <= Z.of_nat n /\
    (forall k : nat, (k < n)%nat -> Z.of_nat k < nth k (repeat 100 256) 0).
Proof.
  apply (warm_up_bounded (repeat 100 256) rng_seed).
  - rewrite repeat_length. apply Nat.le_refl.
  - apply Forall_forall. intros x Hx. apply repeat_spec in Hx. subst. lia.
Defined.

(** ** Random generator: one call loses nothing *)

Lemma rng_mix_injective (x x' : Z) :
  0 <= x < 256 -> 0 <= x' < 256 -> rng_mix x = rng_mix x' -> x = x'.
Proof.
  intros Hx Hx' E.
  assert (A : forallb (fun n => forallb (fun m =>
                 negb (rng_mix (Z.of_nat n) =? rng_mix (Z.of_nat m))
                 || (n =? m)%nat) (seq 0 256)) (seq 0 256) = true)
    by (vm_compute; reflexivity).
  rewrite forallb_forall in A.
  specialize (A (Z.to_nat x) ltac:(apply in_seq; lia)).
  rewrite forallb_forall in A.
  specialize (A (Z.to_nat x') ltac:(apply in_seq; lia)).
  rewrite !Z2Nat.id in A by lia.
  rewrite E, Z.eqb_refl in A. cbn in A.
  apply Nat.eqb_eq in A. lia.
Qed.

Lemma rng_step_a (x a : Z) :
  ra (rng_step (mkRng x 0 0 a))
  = Z.lxor (u8 (Z.lxor a (Z.shiftr a 1))) (rng_mix x).
Proof.
  unfold rng_step, rng_mix. cbn [rx ry rz ra].
  repeat (rewrite u8_lxor || rewrite Z.shiftl_lxor || rewrite Z.shiftr_lxor).
  apply Z.bits_inj'. intros n Hn. rewrite !Z.lxor_spec.
  repeat match goal with
         | |- context [Z.testbit ?v n] => destruct (Z.testbit v n)
         end; reflexivity.
Qed.

Lemma lxor_cancel_l (c u v : Z) : Z.lxor c u = Z.lxor c v -> u = v.
Proof.
  intros E. apply (f_equal (Z.lxor c)) in E.
  now rewrite <- !Z.lxor_assoc, Z.lxor_nilpotent, !Z.lxor_0_l in E.
Qed.

Lemma rng_step_injective (g h : rng) :
  rng_bytes g -> rng_bytes h -> rng_step g = rng_step h -> g = h.
Proof.
  destruct g as [x y z a], h as [x' y' z' a'].
  intros (Hx & _) (Hx' & _) E. cbn [rx] in Hx, Hx'.
  assert (Ea : ra (rng_step (mkRng x 0 0 a)) = ra (rng_step (mkRng x' 0 0 a'))).
  { apply (f_equal ra) in E. exact E. }
  unfold rng_step in E. cbn [rx ry rz ra] in E.
  injection E as Ey Ez Eaa _. subst y' z' a'.
  rewrite !rng_step_a in Ea. apply lxor_cancel_l in Ea.
  now rewrite (rng_mix_injective x x' Hx Hx' Ea).
Qed.

Lemma rng_iter_bytes (n : N) (g : rng) : rng_bytes g -> rng_bytes (rng_iter n g).
Proof.
  intros H. destruct n as [ | p]; [exact H | ].
  destruct (linear_iter p) as (_ & _ & B). now apply B.
Qed.

(** X5.  A call of [genRandom] loses nothing of the state: any number of
    calls maps two different states (of bytes) to two different states,
    and a state other than all-zero never becomes all-zero. *)
Theorem genRandom_loses_nothing (n : N) (g h : rng) :
  rng_bytes g -> rng_bytes h ->
  (rng_iter n g = rng_iter n h -> g = h) /\
  (g <> rng_zero -> rng_iter n g <> rng_zero).
Proof.
  intros Hg Hh.
  assert (Inj : forall m a b, rng_bytes a -> rng_bytes b ->
                  rng_iter m a = rng_iter m b -> a = b).
  { intros m. induction m as [ | m IH] using N.peano_ind; intros a b Ha Hb E.
    - exact E.
    - rewrite <- !N.add_1_r, !rng_iter_succ_step in E.
      apply IH in E.
      + now apply rng_step_injective.
      + now apply rng_step_linear.
      + now apply rng_step_linear. }
  split; [apply Inj; assumption | ].
  intros NZ E. apply NZ. apply (Inj n); try assumption.
  - unfold rng_bytes, rng_zero; cbn; lia.
  - now rewrite rng_iter_zero.
Qed.

Lemma genRandom_loses_nothing_witness :
  (rng_iter 5 rng_seed = rng_iter 5 (mkRng 1 2 3 4) -> rng_seed = mkRng 1 2 3 4) /\
  (rng_seed <> rng_zero -> rng_iter 5 rng_seed <> rng_zero).
Proof.
  apply (genRandom_loses_nothing 5 rng_seed (mkRng 1 2 3 4));
    unfold rng_bytes; cbn; lia.
Defined.

(** ** The loop: a press, the battery check *)

(** X6.  An iteration that reads the button pressed ends in Roll at the
    first delay (or the second, should that iteration step the count-up),
    with the debouncer at Pressed and the generator not called, whatever
    the state before, a roll in its settling blink or steady phase
    included.  Only a press that finds the debouncer at rest restarts the
    timer and clears the blink counters. *)
Theorem press_restarts_roll (i : poll) (s s' : machine) :
  btn1 i = true -> loop_body i s = Some s' ->
  state s' = STATE_ROLL /\ 1 <= nextRollChangeDelay s' <= 2 /\
  gen s' = gen s /\ btnPressState s' = BTN_PRESSED /\
  (btnPressState s = BTN_NOTPRESSED ->
     timer (front_sections i s) = now (front_sections i s) /\
     blinkCount (front_sections i s) = 0 /\
     blinkState (front_sections i s) = 0) /\
  (btnPressState s <> BTN_NOTPRESSED ->
     timer (front_sections i s) = timer s /\
     blinkCount (front_sections i s) = blinkCount s /\
     blinkState (front_sections i s) = blinkState s).
Proof.
  intros B L.
  destruct (held_step i s s' B L) as (H1 & H2 & H3 & H4).
  split; [exact H1 | split; [exact H2 | split; [exact H3 | split; [exact H4 | ]]]].
  unfold front_sections, battery_section, button_section, tick_section,
    WDT_TIMEDOUT, WDT_INT_RESET, wdt_hw.
  rewrite B.
  destruct s as [a b st lb rr n bp h bc bs g p wde wdie sh]; fields.
  split; intros P.
  - subst bp. repeat inner_case; repeat split.
  - destruct bp; try congruence; repeat inner_case; repeat split.
Qed.

Lemma press_restarts_roll_witness :
  state (state_after [tick_poll true 0] steady_entry) = STATE_ROLL /\
  gen (state_after [tick_poll true 0] steady_entry) = gen steady_entry.
Proof.
  destruct (press_restarts_roll (tick_poll true 0) steady_entry
              (state_after [tick_poll true 0] steady_entry))
    as (H1 & _ & H3 & _).
  - reflexivity.
  - vm_compute. reflexivity.
  - split; [exact H1 | exact H3].
Defined.

(** X7.  The battery is sampled only when a check is due: with [lowBatt]
    other than [BATT_DOCHECK] the iteration is the same whatever the ADC
    would have read; with a check due the sample is classified in that
    very iteration, so that the display section never leaves
    [BATT_DOCHECK] behind (only the sleep section orders a check). *)
Theorem battery_read_only_when_due (i : poll) (s : machine) :
  (lowBatt s <> BATT_DOCHECK ->
   forall v : Z,
     loop_body (mkPoll (wdt_expired1 i) (btn1 i) v (wdt_expired2 i) (btn2 i)) s
     = loop_body i s) /\
  (lowBatt s = BATT_DOCHECK ->
   lowBatt (front_sections i s) = classify (adc i)) /\
  (forall m : machine, main_logic i s = Some m -> lowBatt m <> BATT_DOCHECK).
Proof.
  split; [ | split].
  - intros ND v. unfold loop_body, main_logic, battery_section, button_section,
      tick_section, sleep_section, fully_idle, WDT_TIMEDOUT, WDT_INT_RESET, wdt_hw.
    destruct s as [a b st lb rr n bp h bc bs g p wde wdie sh]; fields.
    destruct lb; try congruence; fields; repeat inner_case; reflexivity.
  - intros D. rewrite front_lowBatt, D. reflexivity.
  - intros m M. unfold main_logic in M.
    change (battery_section ?i (button_section ?i (tick_section ?i ?x)))
      with (front_sections i x) in M.
    assert (F : lowBatt (front_sections i s) <> BATT_DOCHECK).
    { rewrite front_lowBatt. unfold classify.
      destruct (lowBatt s) eqn:L; cbn [batt_eqb]; try discriminate;
        destruct (adc i >? LOWBATT_VAL); discriminate. }
    unfold display_section in M.
    destruct (batt_eqb (lowBatt (front_sections i s)) BATT_LOWWARN) eqn:W.
    + assert (Lw : lowBatt (front_sections i s) = BATT_LOWWARN)
        by (destruct (lowBatt (front_sections i s)); (reflexivity || discriminate)).
      unfold warn_branch, diceSet in M.
      destruct (front_sections i s) as [a b st lb rr n bp h bc bs g p wde wdie sh];
        fields. subst lb.
      repeat inner_case_in M; injection M as <-; fields; discriminate.
    + unfold roll_branch, rolldone_branch, steady_branch, diceSet in M.
      destruct (front_sections i s) as [a b st lb rr n bp h bc bs g p wde wdie sh];
        fields.
      destruct st; repeat inner_case_in M; injection M as <-; fields; exact F.
Qed.

(** ** Invariants of the loop *)

Ltac inv_leaf :=
  unfold warning_inv, idle_dark in *; fields;
  intuition (subst; try discriminate; try congruence; try lia).

Lemma tick_section_inv (i : poll) (s : machine) :
  warning_inv s -> idle_dark s ->
  warning_inv (tick_section i s) /\ idle_dark (tick_section i s).
Proof.
  unfold tick_section, WDT_TIMEDOUT, WDT_INT_RESET, wdt_hw.
  destruct s. fields. repeat inner_case; inv_leaf.
Qed.

Lemma button_section_inv (i : poll) (s : machine) :
  warning_inv s -> idle_dark s ->
  let m := button_section i s in
  (lowBatt m = BATT_DOCHECK ->
   blinkCount m = 0 /\ blinkState m = 0 /\
   (state m = STATE_IDLE \/ state m = STATE_ROLL)) /\
  (lowBatt m = BATT_LOWWARN ->
   (state m = STATE_IDLE \/ state m = STATE_ROLL) /\
   (blinkState m = 0 \/ blinkState m = 1) /\ 0 <= blinkCount m <= 5) /\
  (lowBatt m <> BATT_LOWWARN ->
   state m = STATE_IDLE \/ state m = STATE_STEADY ->
   blinkCount m = 0 /\ blinkState m = 0) /\
  idle_dark m.
Proof.
  unfold button_section.
  destruct s as [a b st lb rr n bp h bc bs g p wde wdie sh]. fields.
  destruct (btn1 i); [destruct bp | destruct bp; fields; try inner_case];
    fields; inv_leaf.
Qed.

Lemma battery_section_inv (i : poll) (s : machine) :
  (lowBatt s = BATT_DOCHECK ->
   blinkCount s = 0 /\ blinkState s = 0 /\
   (state s = STATE_IDLE \/ state s = STATE_ROLL)) ->
  (lowBatt s = BATT_LOWWARN ->
   (state s = STATE_IDLE \/ state s = STATE_ROLL) /\
   (blinkState s = 0 \/ blinkState s = 1) /\ 0 <= blinkCount s <= 5) ->
  (lowBatt s <> BATT_LOWWARN ->
   state s = STATE_IDLE \/ state s = STATE_STEADY ->
   blinkCount s = 0 /\ blinkState s = 0) ->
  idle_dark s ->
  warning_inv (battery_section i s) /\ idle_dark (battery_section i s) /\
  lowBatt (battery_section i s) <> BATT_DOCHECK.
Proof.
  unfold battery_section, classify.
  destruct s as [a b st lb rr n bp h bc bs g p wde wdie sh]. fields.
  destruct lb; fields; try inner_case; inv_leaf.
Qed.

Lemma front_sections_inv (i : poll) (s : machine) :
  warning_inv s -> idle_dark s ->
  warning_inv (front_sections i s) /\ idle_dark (front_sections i s) /\
  lowBatt (front_sections i s) <> BATT_DOCHECK.
Proof.
  intros W D. unfold front_sections.
  destruct (tick_section_inv i s W D) as [W1 D1].
  destruct (button_section_inv i _ W1 D1) as [F [Wb [Wc D2]]].
  apply battery_section_inv; assumption.
Qed.

Ltac gt_cases :=
  repeat match goal with
         | H : (?a >? ?b) = _ |- _ =>
             destruct (Z.gtb_spec a b); try discriminate H; clear H
         | H : (?a =? ?b) = _ |- _ =>
             destruct (Z.eqb_spec a b); try discriminate H; clear H
         end.

Ltac branch_inv E :=
  repeat inner_case_in E; try discriminate E; injection E as <-;
  gt_cases;
  repeat match goal with
         | |- context [u8 ?v] =>
             lazymatch goal with
             | _ : 0 <= u8 v < 256 |- _ => fail
             | _ => pose proof (u8_range v)
             end
         end;
  unfold warning_inv, idle_dark in *; fields; cbn [hd];
  intuition (subst; try discriminate; try congruence; try lia).

Lemma warn_branch_inv (s s' : machine) :
  lowBatt s = BATT_LOWWARN -> warning_inv s -> warn_branch s = Some s' ->
  warning_inv s' /\ idle_dark s' /\ lowBatt s' <> BATT_DOCHECK.
Proof.
  unfold warn_branch, diceSet.
  destruct s as [a b st lb rr n bp h bc bs g p wde wdie sh]. fields.
  intros -> W E. branch_inv E.
Qed.

Lemma roll_branch_inv (s s' : machine) :
  state s = STATE_ROLL -> lowBatt s <> BATT_LOWWARN ->
  lowBatt s <> BATT_DOCHECK -> roll_branch s = Some s' ->
  warning_inv s' /\ idle_dark s' /\ lowBatt s' <> BATT_DOCHECK.
Proof.
  unfold roll_branch, diceSet.
  destruct s as [a b st lb rr n bp h bc bs g p wde wdie sh]. fields.
  intros -> L1 L2 E. branch_inv E.
Qed.

Lemma rolldone_branch_inv (s s' : machine) :
  state s = STATE_ROLLDONE -> lowBatt s <> BATT_LOWWARN ->
  lowBatt s <> BATT_DOCHECK -> rolldone_branch s = Some s' ->
  warning_inv s' /\ idle_dark s' /\ lowBatt s' <> BATT_DOCHECK.
Proof.
  unfold rolldone_branch, diceSet.
  destruct s as [a b st lb rr n bp h bc bs g p wde wdie sh]. fields.
  intros -> L1 L2 E. branch_inv E.
Qed.

Lemma steady_branch_inv (s s' : machine) :
  state s = STATE_STEADY -> lowBatt s <> BATT_LOWWARN ->
  lowBatt s <> BATT_DOCHECK -> warning_inv s -> steady_branch s = Some s' ->
  warning_inv s' /\ idle_dark s' /\ lowBatt s' <> BATT_DOCHECK.
Proof.
  unfold steady_branch, diceSet.
  destruct s as [a b st lb rr n bp h bc bs g p wde wdie sh]. fields.
  intros -> L1 L2 W E. branch_inv E.
Qed.

Lemma display_section_inv (s s' : machine) :
  warning_inv s -> idle_dark s -> lowBatt s <> BATT_DOCHECK ->
  display_section s = Some s' ->
  warning_inv s' /\ idle_dark s' /\ lowBatt s' <> BATT_DOCHECK.
Proof.
  intros W D L. unfold display_section.
  destruct (batt_eqb (lowBatt s) BATT_LOWWARN) eqn:B.
  - apply warn_branch_inv; [destruct (lowBatt s); try discriminate; reflexivity | exact W].
  - assert (L1 : lowBatt s <> BATT_LOWWARN) by (intros C; rewrite C in B; discriminate).
    destruct (state s) eqn:S.
    + intros E. injection E as <-. auto.
    + now apply roll_branch_inv.
    + now apply rolldone_branch_inv.
    + now apply steady_branch_inv.
Qed.

Lemma fully_idle_spec (i : poll) (m : machine) :
  fully_idle i m = true <->
  btn2 i = false /\ btnPressState m = BTN_NOTPRESSED /\
  state m = STATE_IDLE /\ lowBatt m <> BATT_LOWWARN.
Proof.
  unfold fully_idle.
  destruct (btn2 i), (btnPressState m), (state m), (lowBatt m); cbn;
    intuition (try discriminate; try congruence).
Qed.

(** The sleep section either leaves the battery state and the watchdog
    enable, or, fully idle, stops the watchdog and orders a battery check. *)
Lemma sleep_section_cases (i : poll) (m : machine) :
  (lowBatt (sleep_section i m) = lowBatt m /\
   WDE (sleep_section i m) = WDE m) \/
  (lowBatt (sleep_section i m) = BATT_DOCHECK /\
   WDE (sleep_section i m) = false /\ WDIE (sleep_section i m) = false /\
   fully_idle i m = true).
Proof.
  unfold sleep_section, WDT_TIMEDOUT, wdt_disable, wdt_hw.
  destruct (fully_idle i _) eqn:F.
  - assert (F' : fully_idle i m = true).
    { apply fully_idle_spec in F. apply fully_idle_spec.
      destruct m; fields. repeat inner_case_in F; exact F. }
    destruct m; fields. repeat inner_case; auto.
  - destruct m; fields. repeat inner_case; auto.
Qed.

Lemma sleep_section_inv (i : poll) (m : machine) :
  warning_inv m -> idle_dark m ->
  warning_inv (sleep_section i m) /\ idle_dark (sleep_section i m).
Proof.
  intros W D. unfold warning_inv, idle_dark in *.
  destruct (sleep_section_frame i m)
    as (_ & _ & -> & _ & _ & -> & -> & -> & _ & _ & ->).
  destruct (sleep_section_cases i m) as [[-> _] | [-> [_ [_ F]]]].
  - tauto.
  - apply fully_idle_spec in F.
    intuition (try discriminate; try congruence).
Qed.

Lemma loop_body_inv (i : poll) (s s' : machine) :
  warning_inv s -> idle_dark s -> loop_body i s = Some s' ->
  warning_inv s' /\ idle_dark s'.
Proof.
  intros W D E. apply loop_body_sections in E. destruct E as [m [E ->]].
  destruct (front_sections_inv i s W D) as [W1 [D1 L1]].
  destruct (display_section_inv _ _ W1 D1 L1 E) as [W2 [D2 _]].
  now apply sleep_section_inv.
Qed.

(** One pass of the display section calls [diceSet] at most once. *)
Lemma display_section_writes (s s' : machine) :
  display_section s = Some s' ->
  (PORTB s' = PORTB s /\ shown s' = shown s) \/
  exists v, shown s' = v :: shown s /\
            diceSet_port v (PORTB s) = Some (PORTB s').
Proof.
  unfold display_section, warn_branch, roll_branch, rolldone_branch,
    steady_branch, diceSet.
  destruct s as [a b st lb rr n bp h bc bs g p wde wdie sh]. fields.
  intros E. destruct lb, st; fields;
    repeat inner_case_in E; try discriminate E; injection E as <-; fields;
    first [ left; split; reflexivity
          | right; eexists; split; [reflexivity | eassumption] ].
Qed.

Lemma front_sections_port (i : poll) (s : machine) :
  PORTB (front_sections i s) = PORTB s /\
  shown (front_sections i s) = shown s.
Proof.
  unfold front_sections, battery_section, button_section, tick_section,
    WDT_TIMEDOUT, WDT_INT_RESET, wdt_hw.
  destruct s; fields. repeat inner_case; split; reflexivity.
Qed.

Lemma diceSet_port_inv (v p p' : Z) :
  0 <= p < 256 -> Z.testbit p PORTB3 = true ->
  diceSet_port v p = Some p' ->
  0 <= p' < 256 /\ Z.testbit p' PORTB3 = true /\
  index portVals v = Some (Z.land p' LED_MASK).
Proof.
  intros R B E.
  destruct (index portVals v) as [pv | ] eqn:Hi;
    [ | unfold diceSet_port in E; rewrite Hi in E; discriminate].
  destruct (diceSet_port_bits v p pv R Hi) as [q [E' Bits]].
  assert (q = p') by congruence. subst q.
  split; [ | split].
  - unfold diceSet_port in E. rewrite Hi in E. injection E as <-. apply u8_range.
  - rewrite Bits. exact B.
  - now rewrite (diceSet_port_pattern v p pv p' R Hi E).
Qed.

Lemma loop_body_port (i : poll) (s s' : machine) :
  port_inv s -> loop_body i s = Some s' -> port_inv s'.
Proof.
  unfold port_inv. intros (R & B & P) E.
  apply loop_body_sections in E. destruct E as [m [E ->]].
  destruct (sleep_section_frame i m)
    as (_ & _ & _ & _ & _ & _ & _ & _ & _ & -> & ->).
  destruct (front_sections_port i s) as [FP FS].
  apply display_section_writes in E. rewrite FP, FS in E.
  destruct E as [[-> ->] | [v [-> E]]].
  - auto.
  - cbn [hd]. now apply (diceSet_port_inv v (PORTB s)).
Qed.

Lemma main_init_inv (g : rng) : reachable_inv (main_init g).
Proof.
  unfold reachable_inv, wdt_consistent, warning_inv, idle_dark, port_inv.
  cbn. intuition (try discriminate; try congruence; try lia).
Qed.

Lemma loop_body_reachable (i : poll) (s s' : machine) :
  reachable_inv s -> loop_body i s = Some s' -> reachable_inv s'.
Proof.
  intros (C & W & D & P & _) E.
  destruct (loop_body_inv i s s' W D E) as [W' D'].
  pose proof (loop_body_port i s s' P E) as P'.
  destruct (loop_body_wdt i s s' C E) as [m [_ [-> [Wm C']]]].
  split; [exact C' | split; [exact W' | split; [exact D' | split; [exact P' | ]]]].
  intros Off. destruct (sleep_section_cases i m) as [[_ K] | [K _]].
  - congruence.
  - exact K.
Qed.

Lemma run_reachable (ins : list poll) :
  forall s s', reachable_inv s -> run ins s = Some s' -> reachable_inv s'.
Proof.
  induction ins as [ | i rest IH]; intros s s' R E; cbn [run] in E.
  - now injection E as <-.
  - destruct (loop_body i s) as [s1 | ] eqn:L; [ | discriminate].
    apply (IH s1 s'); [ | exact E]. now apply (loop_body_reachable i s).
Qed.

Lemma run_from_init (ins : list poll) (g : rng) :
  exists s, run ins (main_init g) = Some s /\ reachable_inv s.
Proof.
  destruct (run_safe ins (main_init g)) as [s [E _]].
  { apply main_init_safe. }
  exists s. split; [exact E | ].
  apply (run_reachable ins _ _ (main_init_inv g) E).
Qed.

Lemma front_sections_warn_start (i : poll) (s : machine) :
  warning_inv s -> lowBatt s <> BATT_LOWWARN ->
  lowBatt (front_sections i s) = BATT_LOWWARN ->
  lowBatt s = BATT_DOCHECK /\ LOWBATT_VAL < adc i /\
  blinkCount (front_sections i s) = 0 /\ blinkState (front_sections i s) = 0.
Proof.
  unfold front_sections, battery_section, button_section, tick_section,
    WDT_TIMEDOUT, WDT_INT_RESET, wdt_hw, classify, warning_inv.
  destruct s as [a b st lb rr n bp h bc bs g p wde wdie sh]. fields.
  intros W L. destruct lb; fields; try congruence;
    repeat inner_case; fields; try discriminate;
    intros _; gt_cases; intuition (try discriminate; try congruence; try lia).
Qed.

(** X8.  Whatever the inputs since power-up, no array read goes out of
    bounds and the blink counters are tied to the battery state: while a
    battery check is due the device is idle with both counters at 0; while
    the warning is blinked the animator is in Idle or Roll, [blinkState]
    is 0 or 1 and [blinkCount] at most 5; in Idle and Steady without a
    warning both counters are 0.  With that, the iteration whose battery
    check starts the warning starts it with both counters at 0. *)
Theorem blink_counters_from_power_up (ins : list poll) (g : rng) :
  exists s, run ins (main_init g) = Some s /\ warning_inv s /\
    forall i, lowBatt s <> BATT_LOWWARN ->
              lowBatt (front_sections i s) = BATT_LOWWARN ->
              lowBatt s = BATT_DOCHECK /\ LOWBATT_VAL < adc i /\
              blinkCount (front_sections i s) = 0 /\
              blinkState (front_sections i s) = 0.
Proof.
  destruct (run_from_init ins g) as [s [E (_ & W & _)]].
  exists s. split; [exact E | split; [exact W | ]].
  intros i. now apply front_sections_warn_start.
Qed.

(** X9.  Whatever the inputs since power-up, [PORTB] is a byte with the
    pull-up bit of the button still set, and its four LED lines carry the
    pattern of the face passed last to [diceSet] (blank if there was no
    call yet). *)
Theorem port_shows_last_face (ins : list poll) (g : rng) :
  exists s, run ins (main_init g) = Some s /\
    0 <= PORTB s < 256 /\ Z.testbit (PORTB s) PORTB3 = true /\
    index portVals (hd 0 (shown s)) = Some (Z.land (PORTB s) LED_MASK).
Proof.
  destruct (run_from_init ins g) as [s [E (_ & _ & _ & P & _)]].
  exists s. split; [exact E | exact P].
Qed.

(** X10.  Whenever the loop has stopped the watchdog (deep sleep), the
    display is blank: the last face passed to [diceSet] is 0 and the LED
    lines of [PORTB] are all low; the animator is idle, the debouncer at
    rest, both blink counters 0 and a battery check is ordered. *)
Theorem deep_sleep_is_dark (ins : list poll) (g : rng) :
  exists s, run ins (main_init g) = Some s /\
    (WDE s = false ->
     hd 0 (shown s) = 0 /\ Z.land (PORTB s) LED_MASK = 0 /\
     state s = STATE_IDLE /\ btnPressState s = BTN_NOTPRESSED /\
     lowBatt s = BATT_DOCHECK /\ blinkCount s = 0 /\ blinkState s = 0).
Proof.
  destruct (run_from_init ins g) as [s [E (_ & W & D & P & K)]].
  exists s. split; [exact E | ]. intros Off.
  specialize (K Off). destruct W as [Wa _].
  destruct (Wa K) as (S & B & C1 & C2).
  assert (H0 : hd 0 (shown s) = 0).
  { apply D; [exact S | rewrite K; discriminate]. }
  destruct P as (_ & _ & P). rewrite H0 in P.
  change (index portVals 0) with (Some 0) in P. injection P as P.
  repeat split; auto.
Qed.

(** X11.  The iteration after a deep sleep always counts a tick, turns the
    watchdog back on in interrupt mode and samples the battery. *)
Theorem wake_up_restarts_watchdog (ins : list poll) (g : rng) (j : poll) :
  exists s, run ins (main_init g) = Some s /\
    (WDE s = false ->
     now (front_sections j s) = u8 (now s + 1) /\
     WDE (front_sections j s) = true /\ WDIE (front_sections j s) = true /\
     lowBatt (front_sections j s) = classify (adc j)).
Proof.
  destruct (run_from_init ins g) as [s [E (C & _ & _ & _ & K)]].
  exists s. split; [exact E | ]. intros Off.
  specialize (K Off). unfold wdt_consistent in C.
  assert (I : WDIE s = false).
  { destruct (WDIE s); [ | reflexivity]. rewrite C in Off; [discriminate | reflexivity]. }
  clear C E.
  unfold front_sections, battery_section, button_section, tick_section,
    WDT_TIMEDOUT, WDT_INT_RESET, wdt_hw.
  destruct s as [a b st lb rr n bp h bc bs g' p wde wdie sh]. fields.
  subst wde wdie lb. fields.
  repeat inner_case; repeat split.
Qed.

Lemma blink_counters_from_power_up_witness :
  exists s, run [idle_poll] (main_init rng_seed) = Some s /\
    lowBatt s = BATT_DOCHECK /\
    lowBatt (front_sections (tick_poll false 200) s) = BATT_LOWWARN /\
    blinkCount (front_sections (tick_poll false 200) s) = 0 /\
    blinkState (front_sections (tick_poll false 200) s) = 0.
Proof.
  destruct (blink_counters_from_power_up [idle_poll] rng_seed) as (s & R & _ & H).
  exists s. split; [exact R | ].
  assert (E : s = first_sleep).
  { vm_compute in R. injection R as <-. reflexivity. }
  destruct (H (tick_poll false 200)) as (A & _ & B & C).
  - rewrite E. vm_compute. discriminate.
  - rewrite E. reflexivity.
  - split; [exact A | split; [rewrite E; reflexivity | split; [exact B | exact C]]].
Defined.

Lemma deep_sleep_is_dark_witness :
  exists s,
    run (repeat (tick_poll true 0) 5 ++ repeat (tick_poll false 0) 300)
      (main_init rng_seed) = Some s /\
    WDE s = false /\ hd 0 (shown s) = 0 /\ Z.land (PORTB s) LED_MASK = 0 /\
    (length (shown s) = 13)%nat.
Proof.
  destruct (deep_sleep_is_dark
              (repeat (tick_poll true 0) 5 ++ repeat (tick_poll false 0) 300)
              rng_seed) as (s & R & H).
  exists s. split; [exact R | ].
  assert (W : WDE s = false /\ (length (shown s) = 13)%nat).
  { vm_compute in R. injection R as <-. split; reflexivity. }
  destruct W as [W Len]. destruct (H W) as (A & B & _).
  split; [exact W | split; [exact A | split; [exact B | exact Len]]].
Defined.

Lemma wake_up_restarts_watchdog_witness :
  exists s, run [idle_poll] (main_init rng_seed) = Some s /\
    WDE s = false /\ now s = 0 /\
    now (front_sections (mkPoll false true 0 false true) s) = 1 /\
    WDE (front_sections (mkPoll false true 0 false true) s) = true.
Proof.
  destruct (wake_up_restarts_watchdog [idle_poll] rng_seed
              (mkPoll false true 0 false true)) as (s & R & H).
  exists s. split; [exact R | ].
  assert (W : WDE s = false /\ now s = 0).
  { vm_compute in R. injection R as <-. split; reflexivity. }
  destruct W as [W N]. destruct (H W) as (A & B & _).
  split; [exact W | split; [exact N | split; [ | exact B]]].
  rewrite A, N. reflexivity.
Defined.

(** ** The steady hold *)

(** Fully idle with the watchdog interrupt still armed, the sleep section
    stops the watchdog and orders a battery check. *)
Lemma sleep_section_sleeps (i : poll) (m : machine) :
  WDIE m = true -> wdt_expired2 i = false -> fully_idle i m = true ->
  WDE (sleep_section i m) = false /\ lowBatt (sleep_section i m) = BATT_DOCHECK.
Proof.
  intros I X F. apply fully_idle_spec in F. destruct F as (B & P & S & L).
  unfold sleep_section, fully_idle, WDT_TIMEDOUT, wdt_disable, wdt_hw.
  rewrite X, B. destruct m as [a b st lb rr n bp h bc bs g pp wde wdie sh]; fields.
  subst. rewrite andb_false_r. fields.
  destruct lb; try congruence; split; reflexivity.
Qed.

(** One watchdog tick in Steady with the button up. *)
Lemma released_tick_steady (v : Z) (s : machine) :
  state s = STATE_STEADY -> batt_settled s -> WDE s = true ->
  elapsed (now s) (timer s) < 125 ->
  exists s',
    loop_body (tick_poll false v) s = Some s' /\
    timer s' = timer s /\ now s' = u8 (now s + 1) /\
    (elapsed (now s) (timer s) < 124 ->
       state s' = STATE_STEADY /\ lowBatt s' = lowBatt s /\ WDE s' = true /\
       shown s' = shown s /\ PORTB s' = PORTB s) /\
    (elapsed (now s) (timer s) = 124 ->
       state s' = STATE_IDLE /\ shown s' = 0 :: shown s /\
       (btnPressState s = BTN_NOTPRESSED ->
          WDE s' = false /\ lowBatt s' = BATT_DOCHECK)).
Proof.
  intros St B W E.
  assert (L : lowBatt s <> BATT_DOCHECK) by (destruct B as [B | B]; rewrite B; discriminate).
  assert (LW : lowBatt s <> BATT_LOWWARN) by (destruct B as [B | B]; rewrite B; discriminate).
  destruct (front_released_tick v s W L)
    as (Fn & Fwde & Fwdie & Ft & Fst & Fl & Frr & Fnr & Fbc & Fbs & Fg & Fp & Fsh).
  assert (Fb : btnPressState s = BTN_NOTPRESSED ->
               btnPressState (front_sections (tick_poll false v) s) = BTN_NOTPRESSED).
  { unfold front_sections, battery_section, button_section, tick_section,
      WDT_TIMEDOUT, WDT_INT_RESET, wdt_hw, tick_poll.
    destruct s; fields. intros ->. repeat inner_case; reflexivity. }
  unfold loop_body, main_logic. fold (front_sections (tick_poll false v) s).
  set (m := front_sections (tick_poll false v) s) in *.
  assert (Em : elapsed (now m) (timer m) = elapsed (now s) (timer s) + 1).
  { rewrite Fn, Ft. apply elapsed_succ. lia. }
  unfold display_section.
  replace (batt_eqb (lowBatt m) BATT_LOWWARN) with false
    by (rewrite Fl; destruct (lowBatt s); try reflexivity; congruence).
  rewrite Fst, St. unfold steady_branch. rewrite Em.
  change (TMR_MS 2000) with 125.
  destruct (Z.geb_spec (elapsed (now s) (timer s) + 1) 125) as [G | G].
  - destruct (diceSet_ok 0 m) as [p [Hp Ed]]; [lia | ]. rewrite Ed.
    cbv beta iota. eexists. split; [reflexivity | ].
    set (m' := set_state STATE_IDLE (set_shown (0 :: shown m) (set_PORTB p m))).
    destruct (sleep_section_frame (tick_poll false v) m')
      as (Sn & St' & Sst & _ & _ & Sb & _ & _ & _ & Sp & Ssh).
    rewrite Sn, St', Sst, Ssh.
    assert (M1 : timer m' = timer s /\ now m' = u8 (now s + 1) /\
                 state m' = STATE_IDLE /\ shown m' = 0 :: shown s /\
                 WDIE m' = true /\ lowBatt m' = lowBatt s /\
                 btnPressState m' = btnPressState m).
    { subst m'. destruct m; fields. subst. repeat split. }
    destruct M1 as (M1 & M2 & M3 & M4 & M5 & M6 & M7).
    split; [exact M1 | split; [exact M2 | split; [lia | ]]].
    intros _. split; [exact M3 | split; [exact M4 | ]].
    intros Hb. apply sleep_section_sleeps; [exact M5 | reflexivity | ].
    apply fully_idle_spec. rewrite M7, M3, M6. auto.
  - cbv beta iota. eexists. split; [reflexivity | ].
    destruct (sleep_section_frame (tick_poll false v) m)
      as (Sn & St' & Sst & _ & _ & _ & _ & _ & _ & Sp & Ssh).
    destruct (sleep_section_busy (tick_poll false v) m) as [Sl Sw].
    { rewrite Fst, St. discriminate. }
    rewrite Sn, St', Sst, Sp, Ssh, Sl, Sw.
    repeat split; try congruence; lia.
Qed.

Lemma steady_run (v : Z) (n : nat) :
  forall (k : nat) (s : machine),
    (k <= n)%nat -> (1 <= n)%nat ->
    state s = STATE_STEADY -> batt_settled s -> WDE s = true ->
    elapsed (now s) (timer s) + Z.of_nat n = 125 ->
    exists s',
      run (repeat (tick_poll false v) k) s = Some s' /\
      ((k < n)%nat ->
         state s' = STATE_STEADY /\ lowBatt s' = lowBatt s /\ WDE s' = true /\
         shown s' = shown s /\ PORTB s' = PORTB s /\ timer s' = timer s /\
         elapsed (now s') (timer s') = elapsed (now s) (timer s) + Z.of_nat k) /\
      (k = n ->
         state s' = STATE_IDLE /\ shown s' = 0 :: shown s /\
         (btnPressState s = BTN_NOTPRESSED ->
            WDE s' = false /\ lowBatt s' = BATT_DOCHECK)).
Proof.
  induction n as [ | n IH]; intros k s Hk Hn St B W E; [lia | ].
  destruct k as [ | k].
  { exists s. split; [reflexivity | split; [ | lia]].
    intros _. repeat split; try assumption; lia. }
  pose proof (elapsed_range (now s) (timer s)) as R.
  destruct (released_tick_steady v s St B W ltac:(lia))
    as (s1 & L & T1 & N1 & Stay & Leave).
  cbn [repeat run]. rewrite L. cbv beta iota.
  destruct n as [ | n].
  - assert (k = 0)%nat by lia. subst k. cbn [repeat run].
    exists s1. split; [reflexivity | split; [lia | ]].
    intros _. apply Leave. lia.
  - destruct (Stay ltac:(lia)) as (S1 & L1 & W1 & Sh1 & P1).
    assert (E1 : elapsed (now s1) (timer s1) = elapsed (now s) (timer s) + 1).
    { rewrite N1, T1. apply elapsed_succ. lia. }
    assert (B1 : batt_settled s1) by (unfold batt_settled in *; now rewrite L1).
    destruct (IH k s1 ltac:(lia) ltac:(lia) S1 B1 W1 ltac:(lia))
      as (s' & R' & Lt & Eq).
    exists s'. split; [exact R' | split].
    + intros Hlt. destruct (Lt ltac:(lia)) as (A1 & A2 & A3 & A4 & A5 & A6 & A7).
      repeat split; try congruence. lia.
    + intros Heq. destruct (Eq ltac:(lia)) as (A1 & A2 & A3).
      split; [exact A1 | split; [congruence | ]].
      intros Hb. apply A3.
      destruct (loop_body_released (tick_poll false v) s s1 eq_refl L) as (_ & _ & D).
      destruct (D ltac:(rewrite Hb; discriminate)) as [_ D2].
      rewrite D2, Hb. now destruct (_ >=? _).
Qed.

(** X12.  Entered with [timer = now] and a settled battery, Steady holds
    the face for [TMR_MS(2000)] = 125 watchdog ticks with the button up:
    through the first 124 iterations nothing is written to the display;
    the 125th blanks it and returns to Idle, and if the debouncer is at
    rest that same iteration stops the watchdog and orders a battery
    check. *)
Theorem steady_hold (v : Z) (k : nat) (s : machine) :
  state s = STATE_STEADY -> batt_settled s -> WDE s = true ->
  timer s = now s -> (k <= 125)%nat ->
  exists s',
    run (repeat (tick_poll false v) k) s = Some s' /\
    ((k < 125)%nat ->
       state s' = STATE_STEADY /\ shown s' = shown s /\ PORTB s' = PORTB s /\
       WDE s' = true) /\
    (k = 125%nat ->
       state s' = STATE_IDLE /\ shown s' = 0 :: shown s /\
       (btnPressState s = BTN_NOTPRESSED ->
          WDE s' = false /\ lowBatt s' = BATT_DOCHECK)).
Proof.
  intros St B W T Hk.
  destruct (steady_run v 125 k s Hk ltac:(lia) St B W) as (s' & R & Lt & Eq).
  { rewrite T, elapsed_same. reflexivity. }
  exists s'. split; [exact R | split; [ | exact Eq]].
  intros H. destruct (Lt H) as (A1 & _ & A3 & A4 & A5 & _). auto.
Qed.

Lemma steady_hold_witness :
  exists s',
    run (repeat (tick_poll false 0) 125) steady_entry = Some s' /\
    state s' = STATE_IDLE /\ shown s' = 0 :: shown steady_entry /\
    WDE s' = false.
Proof.
  destruct (steady_hold 0 125 steady_entry) as (s' & R & _ & Eq);
    [ reflexivity | left; reflexivity | reflexivity | reflexivity | lia | ].
  destruct (Eq eq_refl) as (A & B & C).
  exists s'. split; [exact R | split; [exact A | split; [exact B | ]]].
  apply C. reflexivity.
Defined.

(** ** The spin while the button is held: the faces *)

(** One watchdog tick with the button held down. *)
Lemma held_tick (v : Z) (s : machine) :
  WDE s = true -> lowBatt s = BATT_OK -> btnPressState s = BTN_PRESSED ->
  0 <= rollResult s <= 6 ->
  exists s',
    loop_body (tick_poll true v) s = Some s' /\
    state s' = STATE_ROLL /\ lowBatt s' = BATT_OK /\
    btnPressState s' = BTN_PRESSED /\ WDE s' = true /\ gen s' = gen s /\
    now s' = u8 (now s + 1) /\
    if elapsed (u8 (now s + 1)) (timer s) >=? 3 then
      timer s' = now s' /\
      rollResult s' = (if rollResult s + 1 >? 6 then 1 else rollResult s + 1) /\
      shown s' = rollResult s' :: shown s
    else
      timer s' = timer s /\ rollResult s' = rollResult s /\ shown s' = shown s.
Proof.
  intros W L B R.
  unfold loop_body, main_logic, tick_section, button_section, battery_section,
    display_section, sleep_section, fully_idle, WDT_TIMEDOUT, WDT_INT_RESET,
    wdt_disable, wdt_hw, tick_poll.
  destruct s as [a b st lb rr n bp h bc bs g p wde wdie sh]; fields. subst.
  fields. unfold roll_branch. fields.
  change (index rollDelays 1) with (Some 3). cbv beta iota.
  destruct (Z.geb_spec (elapsed (u8 (a + 1)) b) 3) as [G | G]; fields.
  - change (u8 (1 + 1) >=? ROLLDELAY_COUNT) with false. cbv beta iota.
    rewrite (u8_small (rr + 1)) by lia.
    destruct (Z.gtb_spec (rr + 1) 6) as [G6 | G6]; fields; dice;
      eexists; (split; [reflexivity | ]); fields; repeat split.
  - eexists; (split; [reflexivity | ]); fields; repeat split.
Qed.

Lemma spin_face_range (k : nat) : 0 <= spin_face k <= 6.
Proof.
  destruct k as [ | j]; cbn [spin_face]; [lia | ].
  pose proof (Nat.mod_upper_bound j 6). lia.
Qed.

Lemma spin_face_succ (k : nat) :
  spin_face (S k) = if spin_face k + 1 >? 6 then 1 else spin_face k + 1.
Proof.
  destruct k as [ | j]; [reflexivity | ].
  cbn [spin_face].
  pose proof (Nat.mod_upper_bound j 6 ltac:(lia)) as U.
  destruct (Z.gtb_spec (Z.of_nat (j mod 6) + 1 + 1) 6) as [G | G].
  - assert (E : (S j mod 6 = 0)%nat).
    { assert (j mod 6 = 5)%nat by lia.
      rewrite (Nat.div_mod_eq j 6) at 1.
      replace (S (6 * (j / 6) + j mod 6)) with ((j / 6 + 1) * 6)%nat by lia.
      apply Nat.Div0.mod_mul. }
    rewrite E. reflexivity.
  - assert (E : (S j mod 6 = j mod 6 + 1)%nat).
    { rewrite (Nat.div_mod_eq j 6) at 1.
      replace (S (6 * (j / 6) + j mod 6)) with ((j mod 6 + 1) + (j / 6) * 6)%nat by lia.
      rewrite Nat.Div0.mod_add. apply Nat.mod_small. lia. }
    rewrite E. lia.
Qed.

Lemma succ_div_mod_3 (n : nat) :
  (n mod 3 = 2 /\ S n mod 3 = 0 /\ S n / 3 = S (n / 3))%nat \/
  (n mod 3 < 2 /\ S n mod 3 = S (n mod 3) /\ S n / 3 = n / 3)%nat.
Proof.
  pose proof (Nat.mod_upper_bound n 3 ltac:(lia)) as U.
  pose proof (Nat.div_mod_eq n 3) as E.
  destruct (Nat.eq_dec (n mod 3) 2) as [H | H]; [left | right].
  - assert (S n = (n / 3 + 1) * 3)%nat by lia.
    split; [exact H | split].
    + rewrite H0. apply Nat.Div0.mod_mul.
    + rewrite H0. rewrite Nat.div_mul by lia. lia.
  - assert (S n = (n mod 3 + 1) + (n / 3) * 3)%nat by lia.
    split; [lia | split].
    + rewrite H0 at 1. rewrite Nat.Div0.mod_add. rewrite Nat.mod_small; lia.
    + rewrite H0 at 1. rewrite Nat.div_add by lia.
      rewrite Nat.div_small; lia.
Qed.

Lemma spinning_step (v : Z) (g : rng) (n : nat) (s : machine) :
  spinning g n s ->
  exists s', loop_body (tick_poll true v) s = Some s' /\ spinning g (S n) s'.
Proof.
  intros (St & L & B & W & G & E & R & Sh).
  pose proof (spin_face_range (n / 3)) as FR.
  pose proof (Nat.mod_upper_bound n 3 ltac:(lia)) as U.
  destruct (held_tick v s W L B ltac:(rewrite R; exact FR))
    as (s' & Lb & St' & L' & B' & W' & G' & N' & C).
  exists s'. split; [exact Lb | ].
  assert (E1 : elapsed (u8 (now s + 1)) (timer s) = Z.of_nat (n mod 3) + 1).
  { rewrite elapsed_succ; lia. }
  unfold spinning.
  split; [exact St' | split; [exact L' | split; [exact B' | split; [exact W' | ]]]].
  split; [congruence | ].
  rewrite E1 in C.
  destruct (succ_div_mod_3 n) as [(M & M1 & D1) | (M & M1 & D1)];
    rewrite M1, D1.
  - destruct (Z.geb_spec (Z.of_nat (n mod 3) + 1) 3); [ | lia].
    destruct C as (C1 & C2 & C3).
    assert (RR : rollResult s' = spin_face (S (n / 3))).
    { rewrite C2, spin_face_succ, R. reflexivity. }
    split; [rewrite C1; apply elapsed_same | split; [exact RR | ]].
    rewrite C3, RR, Sh. reflexivity.
  - destruct (Z.geb_spec (Z.of_nat (n mod 3) + 1) 3); [lia | ].
    destruct C as (C1 & C2 & C3).
    split; [rewrite N', C1, E1; lia | split; congruence].
Qed.

Lemma spinning_run (v : Z) (g : rng) (k : nat) :
  forall (n : nat) (s : machine),
    spinning g n s ->
    exists s', run (repeat (tick_poll true v) k) s = Some s' /\
               spinning g (n + k) s'.
Proof.
  induction k as [ | k IH]; intros n s H.
  - exists s. rewrite Nat.add_0_r. split; [reflexivity | exact H].
  - destruct (spinning_step v g n s H) as (s1 & L & H1).
    destruct (IH (S n) s1 H1) as (s' & R & H').
    exists s'. cbn [repeat run]. rewrite L. cbv beta iota.
    split; [exact R | ]. now replace (n + S k)%nat with (S n + k)%nat by lia.
Qed.

Lemma spinning_first (v : Z) (g : rng) :
  v <= LOWBATT_VAL ->
  exists s, loop_body (tick_poll true v) (main_init g) = Some s /\
            spinning g 0 s.
Proof.
  intros V.
  assert (C : classify v = BATT_OK).
  { unfold classify. destruct (Z.gtb_spec v LOWBATT_VAL); [lia | reflexivity]. }
  unfold loop_body, main_logic, tick_section, button_section, battery_section,
    display_section, sleep_section, fully_idle, WDT_TIMEDOUT, WDT_INT_RESET,
    wdt_disable, wdt_hw, tick_poll, main_init.
  fields. rewrite C. fields.
  eexists. split; [reflexivity | ].
  unfold spinning. fields. repeat split.
Qed.

(** X13.  With a good battery and the button held down from power-up,
    one watchdog tick per iteration, the roll never draws: after [n + 1]
    iterations the animator is still in Roll with the generator
    untouched, and the display has counted up one face every
    [TMR_MS(50)] = 3 ticks, 1 to 6 and round again, however often the
    tick counter has wrapped. *)
Theorem held_spin (v : Z) (g : rng) (n : nat) :
  v <= LOWBATT_VAL ->
  exists s,
    run (repeat (tick_poll true v) (S n)) (main_init g) = Some s /\
    state s = STATE_ROLL /\ gen s = g /\
    rollResult s = spin_face (n / 3) /\ shown s = spin_trace (n / 3).
Proof.
  intros V.
  destruct (spinning_first v g V) as (s1 & L & H1).
  destruct (spinning_run v g n 0%nat s1 H1) as (s & R & H).
  exists s. cbn [repeat run]. rewrite L. cbv beta iota.
  destruct H as (St & _ & _ & _ & G & _ & RR & Sh).
  split; [exact R | ]. cbn [Nat.add] in *. auto.
Qed.

Lemma held_spin_witness :
  exists s,
    run (repeat (tick_poll true 0) 1000) (main_init rng_seed) = Some s /\
    state s = STATE_ROLL /\ gen s = rng_seed /\ rollResult s = 3 /\
    firstn 4 (shown s) = [3; 2; 1; 6].
Proof.
  destruct (held_spin 0 rng_seed 999) as (s & R & St & G & RR & Sh);
    [vm_compute; discriminate | ].
  exists s. split; [exact R | split; [exact St | split; [exact G | ]]].
  split; [rewrite RR; reflexivity | rewrite Sh; reflexivity].
Defined.

(** ** The warning and the animator *)

Lemma warn_branch_faces (s s' : machine) :
  warn_branch s = Some s' ->
  shown s' = shown s \/ shown s' = 0 :: shown s \/ shown s' = 1 :: shown s.
Proof.
  unfold warn_branch, diceSet. intros E.
  destruct s; fields. repeat inner_case_in E; injection E as <-; fields; auto.
Qed.

Lemma front_sections_draws_nothing (i : poll) (s : machine) :
  gen (front_sections i s) = gen s /\
  rollResult (front_sections i s) = rollResult s /\
  (btn1 i = false ->
   state (front_sections i s) = state s /\
   nextRollChangeDelay (front_sections i s) = nextRollChangeDelay s).
Proof.
  unfold front_sections, battery_section, button_section, tick_section,
    WDT_TIMEDOUT, WDT_INT_RESET, wdt_hw.
  destruct s; fields. repeat inner_case; repeat split; intros; discriminate.
Qed.

(** X14.  While the low-battery warning is blinked the animator stands
    still: an iteration with [lowBatt] at the warning draws no number,
    leaves [rollResult] alone and shows nothing but the blank face and
    face 1; with the button up the animator's state and its place in the
    delay schedule are unchanged too, and a press only arms the roll
    (state Roll at the first delay) for when the warning is over. *)
Theorem warning_freezes_animator (i : poll) (s s' : machine) :
  lowBatt s = BATT_LOWWARN -> loop_body i s = Some s' ->
  gen s' = gen s /\ rollResult s' = rollResult s /\
  (shown s' = shown s \/ shown s' = 0 :: shown s \/ shown s' = 1 :: shown s) /\
  (btn1 i = false ->
     state s' = state s /\ nextRollChangeDelay s' = nextRollChangeDelay s) /\
  (btn1 i = true -> state s' = STATE_ROLL /\ nextRollChangeDelay s' = 1).
Proof.
  intros L E. apply loop_body_sections in E. destruct E as [m [E ->]].
  destruct (sleep_section_frame i m)
    as (_ & _ & -> & -> & -> & _ & _ & _ & -> & _ & ->).
  assert (Lf : lowBatt (front_sections i s) = BATT_LOWWARN).
  { rewrite front_lowBatt, L. reflexivity. }
  unfold display_section in E. rewrite Lf in E. cbn [batt_eqb] in E.
  destruct (warn_branch_frame _ _ E) as (W1 & W2 & W3 & W4 & _).
  destruct (front_sections_draws_nothing i s) as (F1 & F2 & F3).
  destruct (front_sections_port i s) as [_ F4].
  pose proof (warn_branch_faces _ _ E) as Sh. rewrite F4 in Sh.
  rewrite W1, W2, W3, W4, F1, F2.
  split; [reflexivity | split; [reflexivity | split; [exact Sh | split]]].
  - exact F3.
  - intros B. destruct (front_held i s B) as (H1 & H2 & _). auto.
Qed.

(** ** The battery states Ok and Low *)

Lemma front_sections_batt (b : batt_t) (i : poll) (s : machine) :
  b <> BATT_DOCHECK -> lowBatt s <> BATT_DOCHECK ->
  front_sections i (set_lowBatt b s) = set_lowBatt b (front_sections i s).
Proof.
  unfold front_sections, battery_section, button_section, tick_section,
    WDT_TIMEDOUT, WDT_INT_RESET, wdt_hw.
  destruct s as [a t st lb rr n bp h bc bs g p wde wdie sh]; fields.
  intros B L. destruct b, lb; try congruence; fields;
    repeat inner_case; reflexivity.
Qed.

Lemma display_section_batt (s : machine) :
  lowBatt s = BATT_OK ->
  display_section (set_lowBatt BATT_LOW s)
  = match display_section s with
    | Some m => Some (set_lowBatt BATT_LOW m)
    | None => None
    end /\
  match display_section s with
  | Some m => lowBatt m = BATT_OK
  | None => True
  end.
Proof.
  unfold display_section, roll_branch, rolldone_branch, steady_branch, diceSet.
  destruct s as [a t st lb rr n bp h bc bs g p wde wdie sh]; fields.
  intros ->. fields. destruct st; fields;
    repeat inner_case; split; reflexivity.
Qed.

Lemma sleep_section_batt (i : poll) (m : machine) :
  lowBatt m = BATT_OK ->
  sleep_section i (set_lowBatt BATT_LOW m)
  = if batt_eqb (lowBatt (sleep_section i m)) BATT_DOCHECK
    then sleep_section i m
    else set_lowBatt BATT_LOW (sleep_section i m).
Proof.
  unfold sleep_section, fully_idle, WDT_TIMEDOUT, wdt_disable, wdt_hw.
  destruct m as [a t st lb rr n bp h bc bs g p wde wdie sh]; fields.
  intros ->. fields. repeat inner_case; reflexivity.
Qed.

(** X15.  The loop tells [BATT_LOW] from [BATT_OK] nowhere: an iteration
    started with the battery state Low does exactly what it does started
    with Ok, reading the same table entries, and ends in the same
    machine, except that the battery state is still Low where it would
    still be Ok (both end with the check ordered when the device goes to
    deep sleep). *)
Theorem batt_low_runs_like_ok (i : poll) (s : machine) :
  loop_body i (set_lowBatt BATT_LOW s)
  = match loop_body i (set_lowBatt BATT_OK s) with
    | Some s' =>
        Some (if batt_eqb (lowBatt s') BATT_DOCHECK then s'
              else set_lowBatt BATT_LOW s')
    | None => None
    end.
Proof.
  set (s0 := set_lowBatt BATT_OK s).
  assert (L0 : lowBatt s0 = BATT_OK) by (subst s0; destruct s; reflexivity).
  replace (set_lowBatt BATT_LOW s) with (set_lowBatt BATT_LOW s0)
    by (subst s0; destruct s; reflexivity).
  unfold loop_body, main_logic.
  fold (front_sections i (set_lowBatt BATT_LOW s0)).
  fold (front_sections i s0).
  rewrite front_sections_batt by (try discriminate; rewrite L0; discriminate).
  assert (Lf : lowBatt (front_sections i s0) = BATT_OK).
  { rewrite front_lowBatt, L0. reflexivity. }
  destruct (display_section_batt _ Lf) as [-> Lm].
  destruct (display_section (front_sections i s0)) as [m | ]; [ | reflexivity].
  cbv beta iota. now rewrite sleep_section_batt.
Qed.

(** ** One write per iteration *)

(** X16.  An iteration writes the display at most once: either [PORTB]
    and the trace are as before, or exactly one face, in 0..6, has been
    passed to [diceSet] and [PORTB] is what that one call made of the
    port's value before the iteration. *)
Theorem one_write_per_iteration (i : poll) (s s' : machine) :
  loop_body i s = Some s' ->
  (PORTB s' = PORTB s /\ shown s' = shown s) \/
  exists v, 0 <= v <= 6 /\ shown s' = v :: shown s /\
            diceSet_port v (PORTB s) = Some (PORTB s').
Proof.
  intros E. apply loop_body_sections in E. destruct E as [m [E ->]].
  destruct (sleep_section_frame i m)
    as (_ & _ & _ & _ & _ & _ & _ & _ & _ & -> & ->).
  destruct (front_sections_port i s) as [FP FS].
  apply display_section_writes in E. rewrite FP, FS in E.
  destruct E as [E | [v [Sh E]]]; [left; exact E | right].
  exists v. split; [ | split; [exact Sh | exact E]].
  unfold diceSet_port in E.
  destruct (index portVals v) as [pv | ] eqn:Hi; [ | discriminate].
  apply (portVals_in_mask v pv Hi).
Qed.

Lemma warning_freezes_animator_witness :
  exists s s',
    lowBatt s = BATT_LOWWARN /\
    loop_body (tick_poll true 0) s = Some s' /\
    gen s' = gen s /\ state s' = STATE_ROLL /\ nextRollChangeDelay s' = 1.
Proof.
  exists warn_entry.
  destruct (loop_body (tick_poll true 0) warn_entry) as [s' | ] eqn:E;
    [ | vm_compute in E; discriminate E].
  exists s'.
  destruct (warning_freezes_animator (tick_poll true 0) warn_entry s'
              ltac:(reflexivity) E) as (G & _ & _ & _ & P).
  destruct (P eq_refl) as [P1 P2].
  repeat split; auto.
Defined.

Lemma one_write_per_iteration_witness :
  exists s', loop_body (tick_poll true 0) (main_init rng_seed) = Some s' /\
             PORTB s' = PORTB (main_init rng_seed).
Proof.
  destruct (loop_body (tick_poll true 0) (main_init rng_seed)) as [s' | ] eqn:E;
    [ | vm_compute in E; discriminate E].
  exists s'. split; [reflexivity | ].
  destruct (one_write_per_iteration _ _ _ E) as [[P _] | [v [_ [Sh _]]]];
    [exact P | ].
  exfalso. vm_compute in E. injection E as <-. discriminate Sh.
Defined.
